(** * Lich5 documentation generator: anchor resolver, patch applier,
      response sanitizer and content-hash manifest

    Shallow embedding of [src/generate_docs.py]
    (class [Lich5DocumentationGenerator]) and proofs about it.

    Text is modelled by [string]: a sequence of characters whose code
    points are below 256.  The character tables below (white space, word
    characters, letter case) are those of Python 3 [str] on that range. *)

From Stdlib Require Import ZArith Ascii String List Bool Lia Sorted.
From Stdlib Require DecimalString.
From stdpp Require Import gmap strings list.
Import ListNotations.

Local Open Scope string_scope.

(* ===================================================================== *)
(** * Python string primitives *)
(* ===================================================================== *)

Module PyStr.

Definition code (c : ascii) : nat := nat_of_ascii c.

Definition in_range (lo hi : nat) (c : ascii) : bool :=
  Nat.leb lo (code c) && Nat.leb (code c) hi.

(** [str.isspace] on one character: TAB..CR, FS..US, SPACE, NEL, NBSP. *)
Definition isspace (c : ascii) : bool :=
  in_range 9 13 c || in_range 28 32 c
  || Nat.eqb (code c) 133 || Nat.eqb (code c) 160.

(** Upper- and lower-case letters ([str.isupper] / [str.islower] on one
    character). *)
Definition is_upper_char (c : ascii) : bool :=
  in_range 65 90 c || in_range 192 214 c || in_range 216 222 c.

Definition is_lower_char (c : ascii) : bool :=
  in_range 97 122 c || Nat.eqb (code c) 170 || Nat.eqb (code c) 181
  || Nat.eqb (code c) 186 || in_range 223 246 c || in_range 248 255 c.

(** [str.isalnum] on one character. *)
Definition isalnum (c : ascii) : bool :=
  in_range 48 57 c || in_range 65 90 c || in_range 97 122 c
  || Nat.eqb (code c) 170 || in_range 178 179 c || Nat.eqb (code c) 181
  || in_range 185 186 c || in_range 188 190 c
  || in_range 192 214 c || in_range 216 246 c || in_range 248 255 c.

Definition lower_char (c : ascii) : ascii :=
  if is_upper_char c then ascii_of_nat (code c + 32) else c.

(** [s.lower()] *)
Fixpoint lower (s : string) : string :=
  match s with
  | EmptyString => EmptyString
  | String c r => String (lower_char c) (lower r)
  end.

(** [s.isupper()]: no lower-case character and at least one upper-case. *)
Fixpoint has_upper (s : string) : bool :=
  match s with
  | EmptyString => false
  | String c r => is_upper_char c || has_upper r
  end.

Fixpoint has_lower (s : string) : bool :=
  match s with
  | EmptyString => false
  | String c r => is_lower_char c || has_lower r
  end.

Definition isupper (s : string) : bool := negb (has_lower s) && has_upper s.

Definition is_empty (s : string) : bool :=
  match s with EmptyString => true | _ => false end.

(** [s.lstrip()] *)
Fixpoint lstrip (s : string) : string :=
  match s with
  | EmptyString => EmptyString
  | String c r => if isspace c then lstrip r else s
  end.

(** [s.rstrip()] *)
Fixpoint rstrip (s : string) : string :=
  match s with
  | EmptyString => EmptyString
  | String c r =>
      let r' := rstrip r in
      if isspace c && is_empty r' then EmptyString else String c r'
  end.

(** [s.strip()] *)
Definition strip (s : string) : string := rstrip (lstrip s).

(** [s.lstrip(ch)] for a one-character argument. *)
Fixpoint lstrip_char (ch : ascii) (s : string) : string :=
  match s with
  | EmptyString => EmptyString
  | String c r => if Ascii.eqb c ch then lstrip_char ch r else s
  end.

(** [s.startswith(p)] *)
Fixpoint startswith (p s : string) : bool :=
  match p, s with
  | EmptyString, _ => true
  | String a p', String b s' => Ascii.eqb a b && startswith p' s'
  | String _ _, EmptyString => false
  end.

(** [sub in s] *)
Fixpoint contains (sub s : string) : bool :=
  startswith sub s ||
  match s with
  | EmptyString => false
  | String _ r => contains sub r
  end.

(** [s[n:]] for [0 <= n]. *)
Fixpoint drop (n : nat) (s : string) : string :=
  match n, s with
  | O, _ => s
  | S n', String _ r => drop n' r
  | S _, EmptyString => EmptyString
  end.

(** [s.split(sep)] for a one-character separator: never empty. *)
Fixpoint split (sep : ascii) (s : string) : list string :=
  match s with
  | EmptyString => [EmptyString]
  | String c r =>
      if Ascii.eqb c sep then EmptyString :: split sep r
      else match split sep r with
           | h :: t => String c h :: t
           | [] => [String c EmptyString]
           end
  end.

(** [sep.join(parts)] *)
Fixpoint join (sep : string) (parts : list string) : string :=
  match parts with
  | [] => EmptyString
  | [p] => p
  | p :: rest => p ++ sep ++ join sep rest
  end.

(** [s.split()]: the maximal runs of non-space characters. *)
Fixpoint split_ws_aux (cur : option string) (s : string) : list string :=
  match s with
  | EmptyString => match cur with Some w => [w] | None => [] end
  | String c r =>
      if isspace c then
        match cur with
        | Some w => w :: split_ws_aux None r
        | None => split_ws_aux None r
        end
      else
        match cur with
        | Some w => split_ws_aux (Some (w ++ String c EmptyString)) r
        | None => split_ws_aux (Some (String c EmptyString)) r
        end
  end.

Definition split_ws (s : string) : list string := split_ws_aux None s.

(** The first run of non-space characters of [s] and what follows it. *)
Fixpoint span_word (s : string) : string * string :=
  match s with
  | EmptyString => (EmptyString, EmptyString)
  | String c r =>
      if isspace c then (EmptyString, s)
      else let '(w, rest) := span_word r in (String c w, rest)
  end.

(** [s.split(None, 1)] *)
Definition split_ws_1 (s : string) : list string :=
  match lstrip s with
  | EmptyString => []
  | s' =>
      let '(w, rest) := span_word s' in
      match lstrip rest with
      | EmptyString => [w]
      | rest' => [w; rest']
      end
  end.

(** [s.replace(ch, '')] for a one-character [ch]. *)
Fixpoint remove_char (ch : ascii) (s : string) : string :=
  match s with
  | EmptyString => EmptyString
  | String c r =>
      if Ascii.eqb c ch then remove_char ch r else String c (remove_char ch r)
  end.

(** [ch * n] *)
Fixpoint replicate_char (n : nat) (ch : ascii) : string :=
  match n with
  | O => EmptyString
  | S n' => String ch (replicate_char n' ch)
  end.

(** [c in chars] for a one-character [c]. *)
Fixpoint mem_char (c : ascii) (chars : string) : bool :=
  match chars with
  | EmptyString => false
  | String d r => Ascii.eqb c d || mem_char c r
  end.

Definition nl : ascii := "010"%char.

End PyStr.

(* ===================================================================== *)
(** * Response sanitizer  ([sanitize_json_escapes], lines 465-513) *)
(* ===================================================================== *)

Definition backslash : ascii := "\"%char.

Definition is_hex (c : ascii) : bool := PyStr.mem_char c "0123456789ABCDEFabcdef".

(** [next_char in <quote, backslash, slash, b, f, n, r, t>]: the JSON
    one-character escapes.  The quote character has code 34. *)
Definition valid_single_escape (c : ascii) : bool :=
  Ascii.eqb c (ascii_of_nat 34) || PyStr.mem_char c "\/bfnrt".

(** The [while i < len(json_text)] scan, written by recursion on the part of
    the text that starts at index [i]; the result is [''.join(result)]. *)
Fixpoint sanitize_json_escapes (json_text : string) : string :=
  match json_text with
  | EmptyString => EmptyString
  | String c rest =>
      if Ascii.eqb c backslash then
        match rest with
        | EmptyString =>
            (* [i + 1 < len] fails: not an escape sequence *)
            String c EmptyString
        | String next_char rest' =>
            if valid_single_escape next_char then
              String backslash (String next_char (sanitize_json_escapes rest'))
            else
              match rest' with
              | String h1 (String h2 (String h3 (String h4 rest''))) =>
                  (* [i + 5 < len] holds *)
                  if Ascii.eqb next_char "u" then
                    if is_hex h1 && is_hex h2 && is_hex h3 && is_hex h4 then
                      String backslash (String "u" (String h1 (String h2
                        (String h3 (String h4 (sanitize_json_escapes rest''))))))
                    else
                      String backslash (String backslash (String "u"
                        (sanitize_json_escapes rest')))
                  else
                    String backslash (String backslash (String next_char
                      (sanitize_json_escapes rest')))
              | _ =>
                  String backslash (String backslash (String next_char
                    (sanitize_json_escapes rest')))
              end
        end
      else String c (sanitize_json_escapes rest)
  end.

(* ===================================================================== *)
(** * The regular expressions of [soft_match_anchor] *)
(* ===================================================================== *)

Module Re.

Inductive charclass : Type :=
| CSpace                       (* \s *)
| CWord                        (* \w *)
| CSet (chars : string).       (* [...] *)

Definition is_word (c : ascii) : bool :=
  PyStr.isalnum c || Ascii.eqb c "_".

Definition in_class (cls : charclass) (c : ascii) : bool :=
  match cls with
  | CSpace => PyStr.isspace c
  | CWord => is_word c
  | CSet chars => PyStr.mem_char c chars
  end.

(** The fragment of Python's pattern language that the patterns built by
    [soft_match_anchor] use.  [RLit s] is [re.escape(s)]. *)
Inductive regex : Type :=
| RLit (s : string)
| RChar (cls : charclass)      (* one character of cls *)
| RStar (cls : charclass)      (* cls* *)
| RPlus (cls : charclass)      (* cls+ *)
| RBol                         (* ^ *)
| RWordB                       (* \b *)
| RSeq (r1 r2 : regex)
| RAlt (r1 r2 : regex)
| ROpt (r : regex).            (* r? *)

(** Consume the literal [l] at the head of [s]; [prev] is the character
    just before the current position, if any. *)
Fixpoint eat (l : string) (prev : option ascii) (s : string)
  : option (option ascii * string) :=
  match l with
  | EmptyString => Some (prev, s)
  | String a l' =>
      match s with
      | String b s' => if Ascii.eqb a b then eat l' (Some b) s' else None
      | EmptyString => None
      end
  end.

Definition word_before (prev : option ascii) : bool :=
  match prev with Some c => is_word c | None => false end.

Definition word_after (s : string) : bool :=
  match s with String c _ => is_word c | EmptyString => false end.

Definition at_boundary (prev : option ascii) (s : string) : bool :=
  xorb (word_before prev) (word_after s).

(** Zero or more characters of [cls], then the continuation [k]. *)
Fixpoint star (cls : charclass) (prev : option ascii) (s : string)
  (k : option ascii -> string -> bool) : bool :=
  k prev s ||
  match s with
  | String c s' => in_class cls c && star cls (Some c) s' k
  | EmptyString => false
  end.

(** [matches r prev s k]: some match of [r] at the current position leaves a
    position accepted by [k]. *)
Fixpoint matches (r : regex) (prev : option ascii) (s : string)
  (k : option ascii -> string -> bool) : bool :=
  match r with
  | RLit l =>
      match eat l prev s with
      | Some (prev', s') => k prev' s'
      | None => false
      end
  | RChar cls =>
      match s with
      | String c s' => in_class cls c && k (Some c) s'
      | EmptyString => false
      end
  | RStar cls => star cls prev s k
  | RPlus cls =>
      match s with
      | String c s' => in_class cls c && star cls (Some c) s' k
      | EmptyString => false
      end
  | RBol => match prev with None => k prev s | Some _ => false end
  | RWordB => at_boundary prev s && k prev s
  | RSeq r1 r2 => matches r1 prev s (fun p s' => matches r2 p s' k)
  | RAlt r1 r2 => matches r1 prev s k || matches r2 prev s k
  | ROpt r1 => matches r1 prev s k || k prev s
  end.

Definition match_here (r : regex) (prev : option ascii) (s : string) : bool :=
  matches r prev s (fun _ _ => true).

Fixpoint search_from (r : regex) (prev : option ascii) (s : string) : bool :=
  match_here r prev s ||
  match s with
  | String c s' => search_from r (Some c) s'
  | EmptyString => false
  end.

(** [re.search(r, line)] as a truth value. *)
Definition search (r : regex) (line : string) : bool :=
  search_from r None line.

Fixpoint seq (rs : list regex) : regex :=
  match rs with
  | [] => RLit EmptyString
  | [r] => r
  | r :: rest => RSeq r (seq rest)
  end.

(** The characters that [re.escape] prefixes with a backslash. *)
Definition is_escaped (c : ascii) : bool :=
  PyStr.mem_char c "()[]{}?*+-|^$\.&~# "
  || PyStr.in_range 9 13 c.

(** [re.escape(s)] as pattern text. *)
Fixpoint escape (s : string) : string :=
  match s with
  | EmptyString => EmptyString
  | String c r =>
      if is_escaped c then String backslash (String c (escape r))
      else String c (escape r)
  end.

(** Pattern text without any character that is special in a pattern: it
    denotes itself. *)
Fixpoint plain (s : string) : bool :=
  match s with
  | EmptyString => true
  | String c r => negb (PyStr.mem_char c ".^$*+?{}[]\|()") && plain r
  end.

End Re.

(* ===================================================================== *)
(** * Anchor resolver *)
(* ===================================================================== *)

(** [re.search] on pattern text that the program builds from an unescaped
    fragment of the anchor (line 638, when the accessor keyword of the anchor
    has a character that is special in a pattern): [Some b] is the truth
    value of the result, [None] is [re.error].  Python's pattern compiler is
    not modelled; the functions below take this search as a parameter. *)
Definition raw_search : Type := string -> string -> option bool.

(** The qualifier group and the method-definition patterns of lines 616 and
    619. *)
Definition qualifier : Re.regex :=
  Re.ROpt (Re.RSeq (Re.RAlt (Re.RLit "self") (Re.RPlus Re.CWord)) (Re.RLit ".")).

Definition def_index_pattern : Re.regex :=
  Re.seq [Re.RWordB; Re.RLit "def"; Re.RPlus Re.CSpace; qualifier;
          Re.RLit "[]"].

Definition def_pattern (method_name : string) : Re.regex :=
  Re.seq [Re.RWordB; Re.RLit "def"; Re.RPlus Re.CSpace; qualifier;
          Re.RLit method_name; Re.ROpt (Re.RChar (Re.CSet "?!="))].

(** [soft_match_anchor] (lines 573-663).  [None] is an exception raised by
    the body. *)
Definition soft_match_anchor (E : raw_search) (anchor line : string)
  : option bool :=
  let anchor_stripped := PyStr.strip anchor in
  if PyStr.startswith "class " anchor_stripped
     || PyStr.startswith "module " anchor_stripped then
    (* Pattern 1: class and module definitions *)
    match PyStr.split_ws_1 anchor_stripped with
    | [keyword; name] =>
        let name := PyStr.strip (hd "" (PyStr.split "(" name)) in
        Some (Re.search
                (Re.seq [Re.RBol; Re.RStar Re.CSpace; Re.RLit keyword;
                         Re.RPlus Re.CSpace; Re.RLit name; Re.RWordB]) line)
    | _ => None
    end
  else if PyStr.startswith "def " anchor_stripped then
    (* Pattern 2: method definitions *)
    let method_sig :=
      PyStr.strip (hd "" (PyStr.split "(" (PyStr.drop 4 anchor_stripped))) in
    let method_name :=
      if PyStr.contains "." method_sig
      then List.last (PyStr.split "." method_sig) ""
      else method_sig in
    let pattern :=
      if String.eqb method_name "[]" then def_index_pattern
      else def_pattern method_name in
    if Re.search pattern line then Some true
    else if PyStr.contains ("def " ++ method_sig) line then Some true
    else Some false
  else if PyStr.startswith "attr_" anchor_stripped then
    (* Pattern 3: attribute readers, writers, accessors *)
    match PyStr.split_ws anchor_stripped with
    | [] => None
    | [attr_type] => Some (PyStr.contains attr_type line)
    | attr_type :: part1 :: _ =>
        let symbol := PyStr.lstrip_char ":" part1 in
        if Re.plain attr_type then
          Some (Re.search
                  (Re.seq [Re.RLit attr_type; Re.RPlus Re.CSpace; Re.RLit ":";
                           Re.RLit symbol; Re.RWordB]) line)
        else E (attr_type ++ "\s+:" ++ Re.escape symbol ++ "\b") line
    end
  else if PyStr.isupper
            (PyStr.strip (PyStr.remove_char "="
                            (PyStr.remove_char "_" anchor_stripped))) then
    (* Pattern 4: constants *)
    let const_name := PyStr.strip (hd "" (PyStr.split "=" anchor_stripped)) in
    Some (Re.search
            (Re.seq [Re.RWordB; Re.RLit const_name; Re.RStar Re.CSpace;
                     Re.RLit "="]) line)
  else if PyStr.startswith "@@" anchor_stripped
          || PyStr.startswith "@" anchor_stripped then
    (* Pattern 5: class and instance variables *)
    match PyStr.split_ws anchor_stripped with
    | [] => None
    | part0 :: _ =>
        let var_name := PyStr.strip (hd "" (PyStr.split "=" part0)) in
        Some (Re.search
                (Re.seq [Re.RLit var_name; Re.RStar Re.CSpace;
                         Re.RAlt (Re.RLit "=") (Re.RLit "||=")]) line)
    end
  else
    (* Fallback: every token of the anchor occurs in the line *)
    let anchor_clean := PyStr.strip (hd "" (PyStr.split "(" anchor_stripped)) in
    let tokens := PyStr.split_ws anchor_clean in
    match tokens with
    | [] => Some false
    | _ => Some (forallb (fun token => PyStr.contains token line) tokens)
    end.

(** How [find_insertion_line] found its line: the four places where it
    returns an index, each with its own log call. *)
Inductive how : Type := Exact | Soft | NearMiss | Distant.

Inductive resolution : Type :=
| Found (idx : nat) (h : how)
| NotFound
| Raised.

Definition nearby_offsets : list Z := seqZ (-5) 11.

(** The [search_order] list of lines 710-723. *)
Definition search_order (len : nat) (expected_idx : Z) : list nat :=
  let nearby :=
    flat_map (fun offset : Z =>
                if (offset =? 0)%Z then []
                else
                  let idx := (expected_idx + offset)%Z in
                  if (0 <=? idx)%Z && (idx <? Z.of_nat len)%Z
                  then [Z.to_nat idx] else [])
             nearby_offsets in
  let rest :=
    filter (fun idx : nat =>
              Z.of_nat idx <> expected_idx /\ idx ∉ nearby)
           (List.seq 0 len) in
  nearby ++ rest.

(** The loop of lines 726-734 over [search_order]. *)
Fixpoint scan (E : raw_search) (lines : list string) (expected_idx : Z)
  (anchor : string) (inserted_at_lines : gset nat) (order : list nat)
  : resolution :=
  match order with
  | [] => NotFound
  | idx :: order' =>
      if bool_decide (idx ∈ inserted_at_lines)
      then scan E lines expected_idx anchor inserted_at_lines order'
      else
        match lines !! idx with
        | None => Raised
        | Some l =>
            match soft_match_anchor E anchor l with
            | None => Raised
            | Some true =>
                let offset := (Z.of_nat idx - expected_idx)%Z in
                Found idx (if (Z.abs offset <=? 5)%Z then NearMiss else Distant)
            | Some false =>
                scan E lines expected_idx anchor inserted_at_lines order'
            end
        end
  end.

(** [find_insertion_line] (lines 665-738). *)
Definition find_insertion_line (E : raw_search) (lines : list string)
  (line_number : Z) (anchor : string) (inserted_at_lines : gset nat)
  : resolution :=
  let expected_idx := (line_number - 1)%Z in
  if (expected_idx <? 0)%Z || (Z.of_nat (length lines) <=? expected_idx)%Z
  then NotFound
  else
    let e := Z.to_nat expected_idx in
    if bool_decide (e ∈ inserted_at_lines) then NotFound
    else
      match lines !! e with
      | None => Raised
      | Some l =>
          if PyStr.contains anchor l then Found e Exact
          else
            match soft_match_anchor E anchor l with
            | None => Raised
            | Some true => Found e Soft
            | Some false =>
                scan E lines expected_idx anchor inserted_at_lines
                     (search_order (length lines) expected_idx)
            end
      end.

(* ===================================================================== *)
(** * Patch applier  ([insert_comments], lines 740-821) *)
(* ===================================================================== *)

(** One entry of the provider's JSON array, with the types of the wire
    format: an integer line number (zero stands for a missing one), two
    texts and an integer indent. *)
Record directive : Type := Directive {
  line_number : Z;
  anchor : string;
  indent : Z;
  comment : string
}.

(** The three local variables that the loop of [insert_comments] mutates. *)
Record buffer : Type := Buffer {
  lines : list string;
  inserted_at_lines : gset nat;
  documented_anchors : gset string
}.

(** What one iteration of the loop does with its entry. *)
Inductive outcome : Type :=
| Invalid                 (* a required field is missing: [continue] *)
| Duplicate               (* the normalized anchor is documented: [continue] *)
| Unresolved              (* [find_insertion_line] returned [None] *)
| Failed                  (* an exception, caught by [except Exception] *)
| Inserted (idx : nat).   (* the block went in before [lines[idx]] *)

Definition newline : string := String PyStr.nl EmptyString.

(** [sorted(comments, key=line_number, reverse=True)]: descending by line
    number, entries with equal line numbers in their input order. *)
Fixpoint insert_sorted (x : directive) (l : list directive) : list directive :=
  match l with
  | [] => [x]
  | y :: l' =>
      if (line_number y <=? line_number x)%Z then x :: l
      else y :: insert_sorted x l'
  end.

Definition sorted_comments (comments : list directive) : list directive :=
  foldr insert_sorted [] comments.

(** Lines 794-803: the comment text, cut at line breaks, every line that is
    not blank after [indent_str], every blank line empty. *)
Definition indent_of (anchor_line : string) : string :=
  let actual_indent :=
    String.length anchor_line - String.length (PyStr.lstrip anchor_line) in
  PyStr.replicate_char actual_indent " ".

Definition comment_lines_of (indent_str comment_text : string) : list string :=
  map (fun comment_line =>
         if PyStr.is_empty (PyStr.strip comment_line) then EmptyString
         else indent_str ++ comment_line)
      (PyStr.split PyStr.nl comment_text).

(** [lines.insert(i, x)] for [0 <= i]. *)
Definition list_insert_at (i : nat) (x : string) (l : list string) : list string :=
  take i l ++ x :: drop i l.

(** Lines 806-807: [for offset, comment_line in enumerate(comment_lines)]. *)
Fixpoint insert_block (l : list string) (insert_idx offset : nat)
  (comment_lines : list string) : list string :=
  match comment_lines with
  | [] => l
  | comment_line :: rest =>
      insert_block (list_insert_at (insert_idx + offset) comment_line l)
                   insert_idx (S offset) rest
  end.

(** The normalized anchor of line 781. *)
Definition normalize_anchor (anchor : string) : string :=
  PyStr.strip (PyStr.lower anchor).

(** The body of the loop (lines 769-819). *)
Definition insert_entry (E : raw_search) (st : buffer) (entry : directive)
  : buffer * outcome :=
  let anchor := PyStr.strip (anchor entry) in
  let comment_text := PyStr.strip (comment entry) in
  if (line_number entry =? 0)%Z || PyStr.is_empty anchor
     || PyStr.is_empty comment_text
  then (st, Invalid)
  else
    let anchor_normalized := normalize_anchor anchor in
    if bool_decide (anchor_normalized ∈ documented_anchors st)
    then (st, Duplicate)
    else
      match find_insertion_line E (lines st) (line_number entry) anchor
                                (inserted_at_lines st) with
      | NotFound => (st, Unresolved)
      | Raised => (st, Failed)
      | Found insert_idx _ =>
          match lines st !! insert_idx with
          | None => (st, Failed)
          | Some anchor_line =>
              let comment_lines :=
                comment_lines_of (indent_of anchor_line) comment_text in
              (Buffer (insert_block (lines st) insert_idx 0 comment_lines)
                      ({[insert_idx]} ∪ inserted_at_lines st)
                      ({[anchor_normalized]} ∪ documented_anchors st),
               Inserted insert_idx)
          end
      end.

(** The loop over the sorted entries, with the outcome of every iteration. *)
Fixpoint insert_loop (E : raw_search) (st : buffer) (entries : list directive)
  : buffer * list outcome :=
  match entries with
  | [] => (st, [])
  | entry :: rest =>
      let '(st1, o) := insert_entry E st entry in
      let '(st2, os) := insert_loop E st1 rest in
      (st2, o :: os)
  end.

Definition initial_buffer (original_content : string) : buffer :=
  Buffer (PyStr.split PyStr.nl original_content) ∅ ∅.

(** [insert_comments] (lines 740-821). *)
Definition insert_comments (E : raw_search) (original_content : string)
  (comments : list directive) : string :=
  match comments with
  | [] => original_content
  | _ =>
      PyStr.join newline
        (lines (fst (insert_loop E (initial_buffer original_content)
                                 (sorted_comments comments))))
  end.

(** The outcomes of one call, in processing order, and the entries whose
    block was inserted. *)
Definition outcomes (E : raw_search) (original_content : string)
  (comments : list directive) : list outcome :=
  snd (insert_loop E (initial_buffer original_content)
                   (sorted_comments comments)).

Definition is_inserted (o : outcome) : bool :=
  match o with Inserted _ => true | _ => false end.

Fixpoint select_inserted (entries : list directive) (os : list outcome)
  : list directive :=
  match entries, os with
  | entry :: entries', o :: os' =>
      if is_inserted o then entry :: select_inserted entries' os'
      else select_inserted entries' os'
  | _, _ => []
  end.

Definition applied (E : raw_search) (original_content : string)
  (comments : list directive) : list directive :=
  select_inserted (sorted_comments comments)
                  (outcomes E original_content comments).

(** The same loop as a step relation: one constructor per way through the
    body. *)
Definition valid_entry (entry : directive) : Prop :=
  line_number entry <> 0%Z
  /\ PyStr.strip (anchor entry) <> EmptyString
  /\ PyStr.strip (comment entry) <> EmptyString.

Definition entry_key (entry : directive) : string :=
  normalize_anchor (PyStr.strip (anchor entry)).

Definition resolve_entry (E : raw_search) (st : buffer) (entry : directive)
  : resolution :=
  find_insertion_line E (lines st) (line_number entry)
                      (PyStr.strip (anchor entry)) (inserted_at_lines st).

Inductive entry_step (E : raw_search) (st : buffer) (entry : directive)
  : outcome -> buffer -> Prop :=
| step_invalid :
    ~ valid_entry entry ->
    entry_step E st entry Invalid st
| step_duplicate :
    valid_entry entry ->
    entry_key entry ∈ documented_anchors st ->
    entry_step E st entry Duplicate st
| step_unresolved :
    valid_entry entry ->
    entry_key entry ∉ documented_anchors st ->
    resolve_entry E st entry = NotFound ->
    entry_step E st entry Unresolved st
| step_failed :
    valid_entry entry ->
    entry_key entry ∉ documented_anchors st ->
    resolve_entry E st entry = Raised ->
    entry_step E st entry Failed st
| step_inserted insert_idx h anchor_line :
    valid_entry entry ->
    entry_key entry ∉ documented_anchors st ->
    resolve_entry E st entry = Found insert_idx h ->
    lines st !! insert_idx = Some anchor_line ->
    entry_step E st entry (Inserted insert_idx)
      (Buffer
         (take insert_idx (lines st)
          ++ comment_lines_of (indent_of anchor_line)
                              (PyStr.strip (comment entry))
          ++ drop insert_idx (lines st))
         ({[insert_idx]} ∪ inserted_at_lines st)
         ({[entry_key entry]} ∪ documented_anchors st)).

Inductive loop_steps (E : raw_search)
  : buffer -> list directive -> list outcome -> buffer -> Prop :=
| loop_done st : loop_steps E st [] [] st
| loop_next st entry rest o st1 os st2 :
    entry_step E st entry o st1 ->
    loop_steps E st1 rest os st2 ->
    loop_steps E st (entry :: rest) (o :: os) st2.

(** A run of [insert_comments] and the text it returns. *)
Inductive run (E : raw_search) (original_content : string)
  : list directive -> string -> Prop :=
| run_nothing : run E original_content [] original_content
| run_loop comments os st :
    comments <> [] ->
    loop_steps E (initial_buffer original_content)
               (sorted_comments comments) os st ->
    run E original_content comments (PyStr.join newline (lines st)).

(* ===================================================================== *)
(** * SHA-256  ([hashlib.sha256], FIPS 180-4) *)
(* ===================================================================== *)

Module Sha256.
Local Open Scope Z_scope.

Definition w32 (x : Z) : Z := x mod 2 ^ 32.
Definition add32 (x y : Z) : Z := w32 (x + y).
Definition rotr (n x : Z) : Z :=
  w32 (Z.lor (Z.shiftr x n) (Z.shiftl x (32 - n))).
Definition xor3 (x y z : Z) : Z := Z.lxor (Z.lxor x y) z.

Definition Ch (x y z : Z) : Z :=
  Z.lxor (Z.land x y) (Z.land (w32 (Z.lnot x)) z).
Definition Maj (x y z : Z) : Z :=
  xor3 (Z.land x y) (Z.land x z) (Z.land y z).
Definition Sigma0 (x : Z) : Z := xor3 (rotr 2 x) (rotr 13 x) (rotr 22 x).
Definition Sigma1 (x : Z) : Z := xor3 (rotr 6 x) (rotr 11 x) (rotr 25 x).
Definition sigma0 (x : Z) : Z := xor3 (rotr 7 x) (rotr 18 x) (Z.shiftr x 3).
Definition sigma1 (x : Z) : Z := xor3 (rotr 17 x) (rotr 19 x) (Z.shiftr x 10).

(** The first 64 primes. *)
Definition is_prime (p : nat) : bool :=
  forallb (fun d => negb (Nat.eqb (p mod d) 0)) (List.seq 2 (p - 2)).

Definition primes : list Z :=
  map Z.of_nat (List.filter is_prime (List.seq 2 310)).

(** The integer cube root of [x], bit by bit from bit [n - 1] down. *)
Fixpoint cube_root (n : nat) (x r : Z) : Z :=
  match n with
  | O => r
  | S n' =>
      let r' := r + 2 ^ Z.of_nat n' in
      if r' * r' * r' <=? x then cube_root n' x r' else cube_root n' x r
  end.

(** The round constants: the first 32 bits of the fractional parts of the
    cube roots of the first 64 primes. *)
Definition K : list Z := Eval vm_compute in
  map (fun p => w32 (cube_root 36 (p * 2 ^ 96) 0)) primes.

(** The initial hash value: the first 32 bits of the fractional parts of
    the square roots of the first 8 primes. *)
Definition H0 : list Z := Eval vm_compute in
  map (fun p => w32 (Z.sqrt (p * 2 ^ 64))) (take 8 primes).

(** The [n] low bytes of [x], most significant first. *)
Fixpoint be_bytes (n : nat) (x : Z) : list Z :=
  match n with
  | O => []
  | S n' => (Z.shiftr x (8 * Z.of_nat n')) mod 256 :: be_bytes n' x
  end.

(** The message, the byte 0x80, zero bytes up to 56 modulo 64, and the
    length of the message in bits on eight bytes. *)
Definition pad (msg : list Z) : list Z :=
  let len := Z.of_nat (length msg) in
  let zeros := Z.to_nat ((55 - len) mod 64) in
  msg ++ [0x80] ++ repeat 0 zeros ++ be_bytes 8 (8 * len).

Fixpoint words (fuel : nat) (bytes : list Z) : list Z :=
  match fuel, bytes with
  | S fuel', b0 :: b1 :: b2 :: b3 :: rest =>
      (b0 * 2 ^ 24 + b1 * 2 ^ 16 + b2 * 2 ^ 8 + b3) :: words fuel' rest
  | _, _ => []
  end.

Definition nthz (l : list Z) (i : nat) : Z := nth i l 0.

(** The message schedule: [w] holds W_0 .. W_(t-1). *)
Fixpoint schedule (n t : nat) (w : list Z) : list Z :=
  match n with
  | O => w
  | S n' =>
      let x := add32 (add32 (sigma1 (nthz w (t - 2))) (nthz w (t - 7)))
                     (add32 (sigma0 (nthz w (t - 15))) (nthz w (t - 16))) in
      schedule n' (S t) (w ++ [x])
  end.

Definition round (st : list Z) (kw : Z * Z) : list Z :=
  match st with
  | [a; b; c; d; e; f; g; h] =>
      let t1 := add32 (add32 (add32 h (Sigma1 e)) (add32 (Ch e f g) (fst kw)))
                      (snd kw) in
      let t2 := add32 (Sigma0 a) (Maj a b c) in
      [add32 t1 t2; a; b; c; add32 d t1; e; f; g]
  | _ => st
  end.

Definition compress (h : list Z) (block : list Z) : list Z :=
  let w := schedule 48 16 (words 16 block) in
  let st := fold_left round (combine K w) h in
  map (fun p => add32 (fst p) (snd p)) (combine h st).

Fixpoint blocks (fuel : nat) (h : list Z) (bytes : list Z) : list Z :=
  match fuel with
  | O => h
  | S fuel' =>
      match bytes with
      | [] => h
      | _ => blocks fuel' (compress h (take 64 bytes)) (drop 64 bytes)
      end
  end.

Definition digest (msg : list Z) : list Z :=
  let p := pad msg in
  flat_map (be_bytes 4) (blocks (length p) H0 p).

Definition hex_digit (n : Z) : ascii :=
  nth (Z.to_nat n) (list_ascii_of_string "0123456789abcdef") "0"%char.

Fixpoint hex (bytes : list Z) : string :=
  match bytes with
  | [] => EmptyString
  | b :: rest => String (hex_digit (b / 16)) (String (hex_digit (b mod 16)) (hex rest))
  end.

(** [text.encode('utf-8')] for code points below 256. *)
Fixpoint utf8 (text : string) : list Z :=
  match text with
  | EmptyString => []
  | String c r =>
      let n := Z.of_nat (nat_of_ascii c) in
      if n <? 128 then n :: utf8 r
      else (192 + n / 64) :: (128 + n mod 64) :: utf8 r
  end.

(** [hashlib.sha256(text.encode('utf-8')).hexdigest()] *)
Definition hexdigest (text : string) : string := hex (digest (utf8 text)).

End Sha256.

(* ===================================================================== *)
(** * Content-hash manifest *)
(* ===================================================================== *)

Definition yard_tags : list string :=
  ["@param"; "@return"; "@example"; "@note"; "@see"; "@yield"].

Definition second_char_is_space (stripped : string) : bool :=
  match stripped with
  | String _ (String c _) => Ascii.eqb c " "
  | _ => false
  end.

(** The three-way test of lines 166-175: does the line go into
    [code_lines]? *)
Definition is_code_line (line : string) : bool :=
  let stripped := PyStr.strip line in
  if PyStr.startswith "#" stripped
     && existsb (fun tag => PyStr.contains tag stripped) yard_tags
  then false
  else if PyStr.startswith "#" stripped && second_char_is_space stripped
  then PyStr.startswith "#!" stripped
       || PyStr.contains "coding:" stripped
       || PyStr.contains "encoding:" stripped
  else true.

Definition code_content (content : string) : string :=
  PyStr.join newline (List.filter is_code_line (PyStr.split PyStr.nl content)).

(** [s[:n]] *)
Fixpoint prefix_chars (n : nat) (s : string) : string :=
  match n, s with
  | S n', String c r => String c (prefix_chars n' r)
  | _, _ => EmptyString
  end.

(** [compute_code_hash] (lines 153-179). *)
Definition compute_code_hash (content : string) : string :=
  prefix_chars 16 (Sha256.hexdigest (code_content content)).

(** ** Paths and files *)

(** A [pathlib.Path] without [..] components: its parts, and whether it
    starts at the root. *)
Record Path : Type := MkPath { absolute : bool; parts : list string }.

(** [p / q] *)
Definition path_join (p q : Path) : Path :=
  if absolute q then q else MkPath (absolute p) (parts p ++ parts q).

(** [Path(name)] for one relative component. *)
Definition rel (name : string) : Path := MkPath false [name].

(** [p.name] *)
Definition path_name (p : Path) : string := List.last (parts p) EmptyString.

(** [str(p)] *)
Definition path_str (p : Path) : string :=
  match absolute p, parts p with
  | false, [] => "."
  | false, ps => PyStr.join "/" ps
  | true, ps => "/" ++ PyStr.join "/" ps
  end.

Fixpoint strip_prefix (root p : list string) : option (list string) :=
  match root, p with
  | [], _ => Some p
  | r :: root', x :: p' => if String.eqb r x then strip_prefix root' p' else None
  | _ :: _, [] => None
  end.

(** [p.relative_to(root)] for resolved paths; [None] is [ValueError]. *)
Definition relative_to (p root : list string) : option Path :=
  MkPath false <$> strip_prefix root p.

(** The part of the outside world that the manifest code touches: the
    working directory, the regular files (by resolved path, links
    followed), and whether the next write of [manifest.json] or of a given
    file fails. *)
Record world : Type := World {
  cwd : list string;
  files : gmap (list string) string;
  unwritable : gset (list string)
}.

(** [p.resolve()] *)
Definition resolve (w : world) (p : Path) : list string :=
  if absolute p then parts p else cwd w ++ parts p.

(** [p.exists()] *)
Definition path_exists (w : world) (p : Path) : bool :=
  bool_decide (is_Some (files w !! resolve w p)).

(** [open(p, 'r').read()]; [None] is an exception. *)
Definition read_text (w : world) (p : Path) : option string :=
  files w !! resolve w p.

(** [open(p, 'w').write(text)]; [None] is an exception. *)
Definition write_text (w : world) (p : Path) (text : string) : option world :=
  if bool_decide (resolve w p ∈ unwritable w) then None
  else Some (World (cwd w) (<[resolve w p := text]> (files w)) (unwritable w)).

(** ** The manifest *)

Record manifest_entry : Type := ManifestEntry {
  timestamp : string;
  provider : string;
  content_hash : option string;
  file_name : string
}.

(** The manifest dictionary: each of its two keys may be missing from a
    manifest loaded from disk. *)
Record manifest_t : Type := Manifest {
  processed_files : option (gmap string manifest_entry);
  failed_files : option (list string)
}.

(** The fields of [self] that the modelled methods read or write, and the
    last manifest that [save_manifest] wrote. *)
Record generator : Type := Generator {
  provider_name : string;
  incremental : bool;
  output_structure : string;
  source_root : option Path;
  output_dir : Path;
  manifest : manifest_t;
  saved_manifest : option manifest_t
}.

Definition with_manifest (self : generator) (m : manifest_t) : generator :=
  Generator (provider_name self) (incremental self) (output_structure self)
            (source_root self) (output_dir self) m (saved_manifest self).

Definition manifest_file (self : generator) : Path :=
  path_join (output_dir self) (rel "manifest.json").

(** [save_manifest] (lines 144-151): a failed write is logged and ignored. *)
Definition save_manifest (self : generator) (w : world) : generator :=
  if bool_decide (resolve w (manifest_file self) ∈ unwritable w) then self
  else Generator (provider_name self) (incremental self) (output_structure self)
                 (source_root self) (output_dir self) (manifest self)
                 (Some (manifest self)).

(** The path below [base] where the documented copy of [file_path] goes:
    mirrored below the source root, or flat. *)
Definition documented_path (self : generator) (w : world) (base : Path)
  (file_path : Path) : Path :=
  match String.eqb (output_structure self) "mirror", source_root self with
  | true, Some root =>
      match relative_to (resolve w file_path) (resolve w root) with
      | Some relative_path => path_join base relative_path
      | None => path_join base (rel (path_name file_path))
      end
  | _, _ => path_join base (rel (path_name file_path))
  end.

(** [get_output_file_path] (lines 100-129). *)
Definition get_output_file_path (self : generator) (w : world)
  (file_path : Path) : Path :=
  documented_path self w (path_join (output_dir self) (rel "documented"))
                  file_path.

(** [is_file_processed] (lines 181-240). *)
Definition is_file_processed (self : generator) (w : world) (file_path : Path)
  : bool :=
  if negb (incremental self) then false
  else
    let relative_path := path_str file_path in
    match default ∅ (processed_files (manifest self)) !! relative_path with
    | None => false
    | Some stored_info =>
        (* lines 191-204: the documented/ directory of the working directory *)
        let output_file := documented_path self w (rel "documented") file_path in
        if negb (path_exists w output_file) then false
        else
          match read_text w file_path with
          | None => false
          | Some current_content =>
              let current_hash := compute_code_hash current_content in
              let stored_hash := content_hash stored_info in
              if bool_decide (Some current_hash = stored_hash) then true
              else false
          end
    end.

(** [if content:] *)
Definition truthy (content : option string) : bool :=
  match content with
  | Some (String _ _) => true
  | _ => false
  end.

(** [mark_file_processed] (lines 242-274); [now] is
    [datetime.now().isoformat()]. *)
Definition mark_file_processed (self : generator) (w : world) (now : string)
  (file_path : Path) (success : bool) (content : option string) : generator :=
  let relative_path := path_str file_path in
  let m := manifest self in
  let m' :=
    if success then
      let processed := default ∅ (processed_files m) in
      let content_hash :=
        match content with
        | Some (String c r) => Some (compute_code_hash (String c r))
        | _ => compute_code_hash <$> read_text w file_path
        end in
      Manifest
        (Some (<[relative_path :=
                   ManifestEntry now (provider_name self) content_hash
                                 (path_name file_path)]> processed))
        (failed_files m)
    else
      let failed := default [] (failed_files m) in
      Manifest (processed_files m)
               (Some (if bool_decide (relative_path ∈ failed) then failed
                      else (failed ++ [relative_path])%list)) in
  save_manifest (with_manifest self m') w.

(** [_process_single_file] (lines 823-848) from line 829 on: [process_file]
    has returned [result] and [w] is the files as it left them. *)
Definition _process_single_file (self : generator) (w : world) (now : string)
  (file_path : Path) (result : option string) : bool * generator * world :=
  match result with
  | Some (String c r) =>
      let output_file := get_output_file_path self w file_path in
      match write_text w output_file (String c r) with
      | Some w' =>
          (true, mark_file_processed self w' now file_path true None, w')
      | None =>
          (false, mark_file_processed self w now file_path false None, w)
      end
  | _ => (false, mark_file_processed self w now file_path false None, w)
  end.

(* ===================================================================== *)
(** * Predicates used to state the properties *)
(* ===================================================================== *)

(** Every backslash of [s] starts a JSON escape: one of the one-character
    escapes, or [u] and four hexadecimal digits. *)
Fixpoint escapes_ok (s : string) : bool :=
  match s with
  | EmptyString => true
  | String c rest =>
      if Ascii.eqb c backslash then
        match rest with
        | EmptyString => false
        | String n rest' =>
            if valid_single_escape n then escapes_ok rest'
            else if Ascii.eqb n "u" then
              match rest' with
              | String h1 (String h2 (String h3 (String h4 rest''))) =>
                  is_hex h1 && is_hex h2 && is_hex h3 && is_hex h4
                  && escapes_ok rest''
              | _ => false
              end
            else false
        end
      else escapes_ok rest
  end.

(** [rest] starts with four hexadecimal digits. *)
Definition four_hex (rest : string) : bool :=
  match rest with
  | String h1 (String h2 (String h3 (String h4 _))) =>
      is_hex h1 && is_hex h2 && is_hex h3 && is_hex h4
  | _ => false
  end.

(** [s] is [t] with some characters of [t] left out. *)
Fixpoint is_subseq (s t : string) : bool :=
  match t with
  | EmptyString => PyStr.is_empty s
  | String b t' =>
      match s with
      | EmptyString => true
      | String a s' =>
          if Ascii.eqb a b then is_subseq s' t' else is_subseq s t'
      end
  end.

Fixpoint last_char (s : string) : option ascii :=
  match s with
  | EmptyString => None
  | String c EmptyString => Some c
  | String _ r => last_char r
  end.

(** Number of lines of a text: [len(text.split(newline))]. *)
Definition line_count (text : string) : nat :=
  length (PyStr.split PyStr.nl text).

(** The indices of the outcomes that inserted a block. *)
Definition inserted_indices (os : list outcome) : list nat :=
  omap (fun o => match o with Inserted idx => Some idx | _ => None end) os.

(** The white space at the head of a line. *)
Fixpoint leading_space (line : string) : string :=
  match line with
  | EmptyString => EmptyString
  | String c r => if PyStr.isspace c then String c (leading_space r)
                  else EmptyString
  end.

(** Two entries that differ in their [indent] field at most. *)
Definition same_but_indent (d1 d2 : directive) : Prop :=
  line_number d1 = line_number d2
  /\ anchor d1 = anchor d2
  /\ comment d1 = comment d2.

(** The entry has its required fields and [find_insertion_line] finds a
    line for it in the file as it is before any insertion. *)
Definition resolvable (E : raw_search) (original_content : string)
  (entry : directive) : Prop :=
  valid_entry entry
  /\ exists idx h,
       resolve_entry E (initial_buffer original_content) entry = Found idx h.

(** Number of lines of the comment of an entry, once trimmed. *)
Definition comment_line_count (entry : directive) : nat :=
  line_count (PyStr.strip (comment entry)).

Fixpoint all_spaces (s : string) : bool :=
  match s with
  | EmptyString => true
  | String c r => Ascii.eqb c " " && all_spaces r
  end.

Definition tab : string := String (ascii_of_nat 9) EmptyString.

(** The soft match of the anchor on the line at [idx]. *)
Definition soft_at (E : raw_search) (lines : list string) (anchor : string)
  (idx : nat) : option bool :=
  l ← lines !! idx; soft_match_anchor E anchor l.

(** The flag of a line found by the search of the file: a near miss up to
    five lines away from the expected line, a distant match farther. *)
Definition flag_of (expected_idx : Z) (idx : nat) : how :=
  if (Z.abs (Z.of_nat idx - expected_idx) <=? 5)%Z then NearMiss else Distant.

(** A line that the search passes over: claimed, or no soft match. *)
Definition passed (E : raw_search) (lines : list string) (anchor : string)
  (claimed : gset nat) (j : nat) : Prop :=
  j ∈ claimed \/ soft_at E lines anchor j = Some false.

(** The line at index [d], and no other line, matches the anchor softly. *)
Definition only_soft_match (E : raw_search) (anchor : string)
  (lines : list string) (d : nat) : bool :=
  forallb (fun il : nat * string =>
             bool_decide (soft_match_anchor E anchor il.2
                          = Some (Nat.eqb il.1 d)))
          (imap pair lines)
  && Nat.ltb d (length lines).

(** A search engine for the examples: none of them builds a pattern from
    an unescaped fragment. *)
Definition no_raw_patterns : raw_search := fun _ _ => None.

(** Text from lines. *)
Definition text_of (lines : list string) : string := PyStr.join newline lines.

(** ** What a pattern matches *)

Fixpoint all_chars (p : ascii -> bool) (s : string) : bool :=
  match s with
  | EmptyString => true
  | String c r => p c && all_chars p r
  end.

(** The character before the position reached after [w]. *)
Definition prev_after (prev : option ascii) (w : string) : option ascii :=
  match last_char w with
  | Some c => Some c
  | None => prev
  end.

(** [den r prev w rest]: at a position that follows [prev] and where the
    text goes on with [w] and then [rest], the pattern [r] matches [w]. *)
Fixpoint den (r : Re.regex) (prev : option ascii) (w rest : string) : Prop :=
  match r with
  | Re.RLit l => w = l
  | Re.RChar cls => exists c, w = String c EmptyString /\ Re.in_class cls c = true
  | Re.RStar cls => all_chars (Re.in_class cls) w = true
  | Re.RPlus cls => w <> EmptyString /\ all_chars (Re.in_class cls) w = true
  | Re.RBol => w = EmptyString /\ prev = None
  | Re.RWordB => w = EmptyString /\ Re.at_boundary prev rest = true
  | Re.RSeq r1 r2 =>
      exists w1 w2,
        w = w1 ++ w2
        /\ den r1 prev w1 (w2 ++ rest)
        /\ den r2 (prev_after prev w1) w2 rest
  | Re.RAlt r1 r2 => den r1 prev w rest \/ den r2 prev w rest
  | Re.ROpt r1 => den r1 prev w rest \/ w = EmptyString
  end.

(** ** Definition-like anchors, in the words of the specification *)

(** The signature of the anchor: what follows [def], up to the opening
    parenthesis, trimmed. *)
Definition method_sig (anchor : string) : string :=
  PyStr.strip (hd "" (PyStr.split "(" (PyStr.drop 4 (PyStr.strip anchor)))).

(** The bare method name: the last segment after any qualifier dot. *)
Definition bare_name (anchor : string) : string :=
  List.last (PyStr.split "." (method_sig anchor)) "".

Definition is_substring (s line : string) : Prop :=
  exists pre post, line = pre ++ s ++ post.

(** The optional receiver qualifier: nothing, or a word and a dot. *)
Definition is_qualifier (qual : string) : Prop :=
  qual = "" \/
  exists w, w <> "" /\ all_chars Re.is_word w = true /\ qual = w ++ ".".

(** The optional trailing character. *)
Definition is_name_suffix (suffix : string) : Prop :=
  suffix = "" \/ suffix = "?" \/ suffix = "!" \/ suffix = "=".

(** The line contains the head of a definition of [name]: the word [def],
    white space, an optional qualifier, the name and an optional trailing
    character.  Nothing is asked of what follows: the name can go on. *)
Definition contains_definition (name line : string) : Prop :=
  exists pre ws qual suffix rest,
    line = pre ++ ("def" ++ ws ++ qual ++ name ++ suffix) ++ rest
    /\ Re.word_before (last_char pre) = false
    /\ ws <> ""
    /\ all_chars PyStr.isspace ws = true
    /\ is_qualifier qual
    /\ is_name_suffix suffix.

(** Where the documented copy of a file goes below the directory of the
    documented files. *)
Definition documented_suffix (self : generator) (w : world) (file_path : Path)
  : list string :=
  match String.eqb (output_structure self) "mirror", source_root self with
  | true, Some root =>
      match strip_prefix (resolve w root) (resolve w file_path) with
      | Some relative_parts => relative_parts
      | None => [path_name file_path]
      end
  | _, _ => [path_name file_path]
  end.

(** ** The tokens of the sanitizer's scan *)

(** Every text is empty, a lone backslash, or starts with one of the four
    tokens of the scan. *)
Inductive token_view : string -> Type :=
| view_empty : token_view EmptyString
| view_lone : token_view (String backslash EmptyString)
| view_plain c rest :
    Ascii.eqb c backslash = false -> token_view (String c rest)
| view_valid c rest :
    valid_single_escape c = true ->
    token_view (String backslash (String c rest))
| view_unicode h1 h2 h3 h4 rest :
    is_hex h1 && is_hex h2 && is_hex h3 && is_hex h4 = true ->
    token_view (String backslash (String "u"
                  (String h1 (String h2 (String h3 (String h4 rest))))))
| view_doubled c rest :
    valid_single_escape c = false ->
    Ascii.eqb c "u" && four_hex rest = false ->
    token_view (String backslash (String c rest)).

(** ** Inputs of the examples *)

(** A file of 200 lines with the declaration of [foo] at index [d]. *)
Definition file_with_foo_at (d : nat) : list string :=
  replicate d "  x = 1" ++ ["  def foo(a)"] ++ replicate (199 - d) "  y = 2".

Definition example_generator : generator :=
  Generator "openai" true "flat" None (MkPath false ["output"; "latest"])
            (Manifest (Some ∅) (Some ["lib/a.rb"])) None.

Definition example_world : world :=
  World ["repo"]
        {[ ["repo"; "lib"; "a.rb"] := text_of ["def foo"; "end"] ]} ∅.

Definition a_rb : Path := MkPath false ["lib"; "a.rb"].

Definition cwd_generator : generator :=
  Generator "openai" true "flat" None (MkPath false [])
            (Manifest None None) None.

Definition documented_a_rb : string := text_of ["# Foo"; "def foo"; "end"].

Definition edited_world : world :=
  World ["repo"]
        {[ ["repo"; "lib"; "a.rb"] := text_of ["def foo"; "  1"; "end"];
           ["repo"; "documented"; "a.rb"] := documented_a_rb ]} ∅.

(** ** A definition of a method, in the words of the specification *)

(** A method name ends where no word character and none of [?], [!], [=]
    follows. *)
Definition name_ends (rest : string) : bool :=
  match rest with
  | EmptyString => true
  | String c _ => negb (Re.is_word c || PyStr.mem_char c "?!=")
  end.

(** The line defines the method [name], trailing character included: the
    word [def], white space, an optional qualifier, the name, and the name
    ends there. *)
Definition defines_method (name line : string) : Prop :=
  exists pre ws qual rest,
    line = pre ++ ("def" ++ ws ++ qual ++ name) ++ rest
    /\ Re.word_before (last_char pre) = false
    /\ ws <> ""
    /\ all_chars PyStr.isspace ws = true
    /\ is_qualifier qual
    /\ name_ends rest = true.

(** Somewhere in the line there is [name], and the name ends there. *)
Definition occurs_ended (name line : string) : bool :=
  existsb (fun n => PyStr.startswith name (PyStr.drop n line)
                    && name_ends (PyStr.drop (n + String.length name) line))
          (seq 0 (S (String.length line))).

(* ===================================================================== *)
(** * More of the generator *)
(* ===================================================================== *)

(** Lines 995-998 of [generate_yard_docs]: the lines of the documented
    code that are comments. *)
Definition is_comment_line (line : string) : bool :=
  PyStr.startswith "#" (PyStr.strip line).

Definition yard_comments (documented_code : string) : list string :=
  List.filter is_comment_line (PyStr.split PyStr.nl documented_code).

(** Lines 1000-1003: the text of the [.yard] file, when one is written. *)
Definition yard_file (documented_code : string) : option string :=
  match yard_comments documented_code with
  | [] => None
  | comment_lines => Some (PyStr.join newline comment_lines)
  end.

(** ** The entries as [json.loads] returns them *)

(** The value of the key [line_number] of an entry: an integer (the
    booleans are the integers 1 and 0, and a missing key sorts as the
    default 0 of line 765 and is as invalid as 0 at line 775), [null], or a
    text.  A number with a fraction, an array and an object are not
    modelled. *)
Inductive line_key : Type :=
| KeyInt (z : Z)
| KeyNull
| KeyText (s : string).

(** The value of the key [anchor] or [comment]: a text (the empty text for
    a missing key), or a value that has no [strip]. *)
Inductive text_field : Type :=
| FieldText (s : string)
| FieldOther.

(** An element of the array: an object, or a value that has no [get]. *)
Inductive json_entry : Type :=
| EntryObject (key : line_key) (anchor_field comment_field : text_field)
| EntryOther.

(** The key function of line 765; [None] is [AttributeError]. *)
Definition sort_key (entry : json_entry) : option line_key :=
  match entry with
  | EntryObject key _ _ => Some key
  | EntryOther => None
  end.

(** The comparison of two keys; [None] is [TypeError]: integers compare
    with integers, texts with texts, [null] with nothing. *)
Definition key_leb (a b : line_key) : option bool :=
  match a, b with
  | KeyInt x, KeyInt y => Some (x <=? y)%Z
  | KeyText s, KeyText t => Some (String.leb s t)
  | _, _ => None
  end.

(** [sorted(comments, key=..., reverse=True)] of line 765 on these
    entries, as [insert_sorted] does it: the keys of all entries are taken
    first, and a comparison that fails makes the call fail. *)
Fixpoint insert_sorted_json (x : json_entry) (l : list json_entry)
  : option (list json_entry) :=
  match l with
  | [] => Some [x]
  | y :: l' =>
      match sort_key y, sort_key x with
      | Some ky, Some kx =>
          match key_leb ky kx with
          | Some true => Some (x :: l)
          | Some false => cons y <$> insert_sorted_json x l'
          | None => None
          end
      | _, _ => None
      end
  end.

Definition is_object (entry : json_entry) : bool :=
  match entry with EntryObject _ _ _ => true | EntryOther => false end.

Definition sorted_json (comments : list json_entry)
  : option (list json_entry) :=
  if forallb is_object comments
  then foldr (fun x acc => acc ≫= insert_sorted_json x) (Some []) comments
  else None.









(** ** [process_file] and the file of a failed response *)

(** [name.rfind('.')] *)
Fixpoint rfind_dot (name : string) : option nat :=
  match name with
  | EmptyString => None
  | String c r =>
      match rfind_dot r with
      | Some i => Some (S i)
      | None => if Ascii.eqb c "." then Some 0 else None
      end
  end.

(** [p.stem] *)
Definition path_stem (p : Path) : string :=
  let name := path_name p in
  match rfind_dot name with
  | Some i =>
      if Nat.ltb 0 i && Nat.ltb i (String.length name - 1)
      then prefix_chars i name else name
  | None => name
  end.

(** Lines 428-433. *)
Definition failed_response_file (self : generator) (file_path : Path) : Path :=
  path_join (output_dir self)
            (rel (path_stem file_path ++ "_failed_response.txt")).

Definition failed_response_text (file_path : Path) (result : string) : string :=
  "Failed to parse JSON for: " ++ path_name file_path ++ newline
  ++ "AI Response Length: "
  ++ DecimalString.NilZero.string_of_uint (Nat.to_uint (String.length result))
  ++ " characters" ++ newline
  ++ PyStr.replicate_char 80 "=" ++ newline
  ++ result.



(** Lines 921-930 of [process_directory]: the number of files that are
    skipped and the files that are left to process. *)
Fixpoint filter_processed (self : generator) (w : world)
  (ruby_files : list Path) : nat * list Path :=
  match ruby_files with
  | [] => (0, [])
  | file_path :: rest =>
      let '(processed, files_to_process) := filter_processed self w rest in
      if is_file_processed self w file_path
      then (S processed, files_to_process)
      else (processed, file_path :: files_to_process)
  end.

(** ** Predicates of the further properties *)

(** The order that [sorted_comments] builds. *)
Definition descending (a b : directive) : Prop :=
  (line_number b <= line_number a)%Z.

(** Every line of the trimmed comment of the entry is left out of the code
    hash: a documentation comment. *)
Definition comment_is_documentation (entry : directive) : Prop :=
  Forall (fun comment_line => is_code_line comment_line = false)
         (PyStr.split PyStr.nl (PyStr.strip (comment entry))).

Definition is_lower_hex (c : ascii) : bool :=
  PyStr.mem_char c "0123456789abcdef".

(** The name that a class or module anchor declares: what follows the
    keyword, up to an opening parenthesis, trimmed. *)
Definition declared_name (keyword anchor : string) : string :=
  PyStr.strip
    (hd "" (PyStr.split "("
              (PyStr.lstrip (PyStr.drop (String.length keyword + 1)
                                        (PyStr.strip anchor))))).

(** The line declares [name] with [keyword]: white space or nothing, the
    keyword, white space, the name, and then the end of a word. *)
Definition declares (keyword name line : string) : Prop :=
  exists ws1 ws2 rest,
    line = ws1 ++ keyword ++ ws2 ++ name ++ rest
    /\ all_chars PyStr.isspace ws1 = true
    /\ ws2 <> ""
    /\ all_chars PyStr.isspace ws2 = true
    /\ Re.at_boundary (last_char (ws1 ++ keyword ++ ws2 ++ name)) rest = true.

Definition no_space (c : ascii) : bool := negb (PyStr.isspace c).

(** The pattern of line 592. *)
Definition declaration_pattern (keyword name : string) : Re.regex :=
  Re.seq [Re.RBol; Re.RStar Re.CSpace; Re.RLit keyword; Re.RPlus Re.CSpace;
          Re.RLit name; Re.RWordB].
(** ** The other categories of anchors, as shapes of lines *)

(** The test of line 644: an anchor in capitals. *)
Definition is_constant_anchor (anchor : string) : bool :=
  PyStr.isupper
    (PyStr.strip (PyStr.remove_char "="
                    (PyStr.remove_char "_" (PyStr.strip anchor)))).

(** None of the first three categories: no keyword at the head. *)
Definition no_keyword (anchor : string) : Prop :=
  PyStr.startswith "class " (PyStr.strip anchor) = false
  /\ PyStr.startswith "module " (PyStr.strip anchor) = false
  /\ PyStr.startswith "def " (PyStr.strip anchor) = false
  /\ PyStr.startswith "attr_" (PyStr.strip anchor) = false.

Definition constant_name (anchor : string) : string :=
  PyStr.strip (hd "" (PyStr.split "=" (PyStr.strip anchor))).

Definition variable_name (anchor : string) : string :=
  PyStr.strip
    (hd "" (PyStr.split "=" (hd "" (PyStr.split_ws (PyStr.strip anchor))))).

(** The line assigns to [name]: the name, starting or ending a word at its
    head, white space or nothing, and an equals sign. *)
Definition assigns_constant (name line : string) : Prop :=
  exists pre ws rest,
    line = pre ++ name ++ ws ++ "=" ++ rest
    /\ all_chars PyStr.isspace ws = true
    /\ Re.at_boundary (last_char pre) (name ++ ws ++ "=" ++ rest) = true.

(** The line has the name, white space or nothing, and [=] or [||=]. *)
Definition assigns_variable (name line : string) : Prop :=
  exists pre ws op rest,
    line = pre ++ name ++ ws ++ op ++ rest
    /\ all_chars PyStr.isspace ws = true
    /\ (op = "=" \/ op = "||=").

(** The line has the accessor keyword, white space, a colon, the symbol,
    and then the end of a word. *)
Definition declares_accessor (attr_type symbol line : string) : Prop :=
  exists pre ws rest,
    line = pre ++ attr_type ++ ws ++ ":" ++ symbol ++ rest
    /\ ws <> ""
    /\ all_chars PyStr.isspace ws = true
    /\ Re.at_boundary (last_char (pre ++ attr_type ++ ws ++ ":" ++ symbol)) rest
       = true.

(** The patterns of lines 646, 652 and 638. *)
Definition constant_pattern (const_name : string) : Re.regex :=
  Re.seq [Re.RWordB; Re.RLit const_name; Re.RStar Re.CSpace; Re.RLit "="].

Definition variable_pattern (var_name : string) : Re.regex :=
  Re.seq [Re.RLit var_name; Re.RStar Re.CSpace;
          Re.RAlt (Re.RLit "=") (Re.RLit "||=")].

Definition accessor_pattern (attr_type symbol : string) : Re.regex :=
  Re.seq [Re.RLit attr_type; Re.RPlus Re.CSpace; Re.RLit ":";
          Re.RLit symbol; Re.RWordB].

(** ** The numbered listing of the prompt
       ([create_documentation_prompt], lines 288-291) *)

(** [f"{i:4d}"]: the decimal digits of [i], right-aligned in four columns. *)
Definition format_4d (i : nat) : string :=
  let digits := DecimalString.NilZero.string_of_uint (Nat.to_uint i) in
  PyStr.replicate_char (4 - String.length digits) " " ++ digits.

(** The loop over [enumerate(content.split('\n'), start=1)], from [i] on. *)
Fixpoint number_from (i : nat) (lines : list string) : list string :=
  match lines with
  | [] => []
  | line :: rest => (format_4d i ++ ": " ++ line) :: number_from (S i) rest
  end.

Definition numbered_lines (content : string) : list string :=
  number_from 1 (PyStr.split PyStr.nl content).

Definition numbered_content (content : string) : string :=
  PyStr.join newline (numbered_lines content).

(** Reading a listing back: the line shown with number [i] without its
    number, the colon and the space. *)
Fixpoint unnumber_from (i : nat) (shown : list string) : list string :=
  match shown with
  | [] => []
  | s :: rest =>
      PyStr.drop (String.length (format_4d i ++ ": ")) s
      :: unnumber_from (S i) rest
  end.

Definition listing_source (listing : string) : string :=
  PyStr.join newline (unnumber_from 1 (PyStr.split PyStr.nl listing)).

(** ** An empty source file *)

(** The pattern search of line 638 on an unescaped keyword never matches
    the empty line. *)
Definition no_match_on_empty (E : raw_search) : Prop :=
  forall pattern, E pattern EmptyString <> Some true.



(** ** The files that [process_directory] leaves out (line 895) *)

(** [s.replace(old, new)] for one-character [old] and [new]. *)
Fixpoint replace_char (old new : ascii) (s : string) : string :=
  match s with
  | EmptyString => EmptyString
  | String c r =>
      String (if Ascii.eqb c old then new else c) (replace_char old new r)
  end.

(** ['/critranks/' in str(f).replace('\\', '/')] *)
Definition in_critranks (f : Path) : bool :=
  PyStr.contains "/critranks/" (replace_char "\" "/" (path_str f)).

Definition ruby_files (all_ruby_files : list Path) : list Path :=
  List.filter (fun f => negb (in_critranks f)) all_ruby_files.

(** A component of a path as [pathlib] has it, and without a backslash. *)
Definition plain_part (part : string) : Prop :=
  PyStr.mem_char "/" part = false /\ PyStr.mem_char "\" part = false.

(** The path goes through a directory [critranks]: a component that is not
    the last one and, for a relative path, not the first one. *)
Definition below_critranks (f : Path) : Prop :=
  exists before after,
    parts f = (before ++ "critranks" :: after)%list
    /\ after <> []
    /\ (absolute f = false -> before <> []).

(* ===================================================================== *)
(** * Proofs *)
(* ===================================================================== *)

Local Open Scope list_scope.

(** ** Strings *)

Lemma string_strong_ind (P : string -> Prop) :
  (forall s, (forall t, String.length t < String.length s -> P t) -> P s) ->
  forall s, P s.
Proof.
  intros step s.
  assert (H : forall n t, String.length t < n -> P t).
  { induction n as [|n IH]; intros t Ht; [lia|].
    apply step. intros u Hu. apply IH. lia. }
  apply (H (S (String.length s))). lia.
Qed.

Lemma ascii_eqb_true (a b : ascii) : Ascii.eqb a b = true -> a = b.
Proof. apply Ascii.eqb_eq. Qed.

Lemma ascii_eqb_false (a b : ascii) : Ascii.eqb a b = false -> a <> b.
Proof. apply Ascii.eqb_neq. Qed.

Lemma append_cons c (s x : string) : String c s +:+ x = String c (s +:+ x).
Proof. reflexivity. Qed.

Lemma append_empty (x : string) : EmptyString +:+ x = x.
Proof. reflexivity. Qed.

(** ** The model on small inputs *)

Example sha256_of_abc :
  Sha256.hexdigest "abc"
  = "ba7816bf8f01cfea414140de5dae2223b00361a396177a9cb410ff61f20015ad".
Proof. vm_compute. reflexivity. Qed.

Example sha256_of_empty :
  Sha256.hexdigest ""
  = "e3b0c44298fc1c149afbf4c8996fb92427ae41e4649b934ca495991b7852b855".
Proof. vm_compute. reflexivity. Qed.

Example sha256_of_two_blocks :
  Sha256.hexdigest "abcdbcdecdefdefgefghfghighijhijkijkljklmklmnlmnomnopnopq"
  = "248d6a61d20638b8e5c026930c3e6039a33ce45964ff2167f6ecedd419db06c1".
Proof. vm_compute. reflexivity. Qed.

Example code_hash_skips_yard_lines :
  code_content (text_of ["#!/usr/bin/ruby"; "# Says hello"; "  # @param x";
                         "def hello(x) # @return"; "#"; "end"])
  = text_of ["#!/usr/bin/ruby"; "def hello(x) # @return"; "#"; "end"].
Proof. vm_compute. reflexivity. Qed.

Example sorted_comments_is_stable :
  sorted_comments [Directive 5 "a" 0 "x"; Directive 10 "b" 0 "x";
                   Directive 5 "c" 0 "x"; Directive 10 "d" 0 "x"]
  = [Directive 10 "b" 0 "x"; Directive 10 "d" 0 "x";
     Directive 5 "a" 0 "x"; Directive 5 "c" 0 "x"].
Proof. reflexivity. Qed.

Example search_order_near_then_rest :
  search_order 14 7 = [2; 3; 4; 5; 6; 8; 9; 10; 11; 12; 0; 1; 13].
Proof. vm_compute. reflexivity. Qed.

Example soft_match_class :
  soft_match_anchor no_raw_patterns "class Foo" "  class Foo < Bar" = Some true
  /\ soft_match_anchor no_raw_patterns "class Foo" "  class Foobar" = Some false.
Proof. split; vm_compute; reflexivity. Qed.

(** The method pattern asks nothing of what follows the name: the anchor
    [def foo] matches the definition of [foobar]. *)
Example soft_match_method_is_textual :
  soft_match_anchor no_raw_patterns "def foo" "  def self.foobar(x)" = Some true
  /\ soft_match_anchor no_raw_patterns "def foo" "  undef  foo" = Some false.
Proof. split; vm_compute; reflexivity. Qed.

Example insert_two_entries :
  insert_comments no_raw_patterns
    (text_of ["class A"; "  def foo"; "  end"; "end"])
    [Directive 1 "class A" 0 "# A class"; Directive 3 "def foo" 2 "# Foo"]
  = text_of ["# A class"; "class A"; "  # Foo"; "  def foo"; "  end"; "end"].
Proof. vm_compute. reflexivity. Qed.

(** ** Response sanitizer *)

Section Sanitizer.

Local Abbreviation san := sanitize_json_escapes.

Lemma backslash_is_valid_escape : valid_single_escape backslash = true.
Proof. reflexivity. Qed.

Lemma invalid_escape_not_backslash c :
  valid_single_escape c = false -> Ascii.eqb c backslash = false.
Proof.
  intros H. destruct (Ascii.eqb c backslash) eqn:E; [|reflexivity].
  apply ascii_eqb_true in E. subst c. discriminate H.
Qed.

Lemma u_is_not_valid_single : valid_single_escape "u" = false.
Proof. reflexivity. Qed.

(** The equations of the scan, one per branch. *)
Lemma san_plain c rest :
  Ascii.eqb c backslash = false -> san (String c rest) = String c (san rest).
Proof. intros H. simpl. rewrite H. reflexivity. Qed.

Lemma san_lone : san (String backslash EmptyString) = String backslash EmptyString.
Proof. reflexivity. Qed.

Lemma san_valid c rest :
  valid_single_escape c = true ->
  san (String backslash (String c rest))
  = String backslash (String c (san rest)).
Proof. intros H. simpl. rewrite H. reflexivity. Qed.

Lemma san_unicode h1 h2 h3 h4 rest :
  is_hex h1 && is_hex h2 && is_hex h3 && is_hex h4 = true ->
  san (String backslash (String "u" (String h1 (String h2 (String h3 (String h4 rest))))))
  = String backslash (String "u" (String h1 (String h2 (String h3 (String h4 (san rest)))))).
Proof. intros H. cbn [san]. cbn [Ascii.eqb Bool.eqb valid_single_escape]. 
  change (valid_single_escape "u") with false. cbv iota.
  change (Ascii.eqb "u" "u") with true. cbv iota. rewrite H. reflexivity. Qed.

Lemma san_doubled c rest :
  valid_single_escape c = false ->
  Ascii.eqb c "u" && four_hex rest = false ->
  san (String backslash (String c rest))
  = String backslash (String backslash (String c (san rest))).
Proof.
  intros Hv Hu. cbn [san]. change (Ascii.eqb backslash backslash) with true.
  cbv iota. rewrite Hv.
  destruct rest as [|h1 [|h2 [|h3 [|h4 rest]]]]; try reflexivity.
  destruct (Ascii.eqb c "u") eqn:Ec; [|reflexivity].
  apply ascii_eqb_true in Ec. subst c.
  simpl in Hu. rewrite Hu. reflexivity.
Qed.

Lemma token_view_of s : token_view s.
Proof.
  destruct s as [|c rest]; [constructor|].
  destruct (Ascii.eqb c backslash) eqn:Ec.
  - apply ascii_eqb_true in Ec. subst c.
    destruct rest as [|n rest]; [constructor|].
    destruct (valid_single_escape n) eqn:Ev; [now constructor|].
    destruct (Ascii.eqb n "u") eqn:En.
    + apply ascii_eqb_true in En. subst n.
      destruct (four_hex rest) eqn:Eh.
      * destruct rest as [|h1 [|h2 [|h3 [|h4 rest]]]]; try discriminate Eh.
        now apply view_unicode.
      * apply view_doubled; [exact Ev | rewrite Eh; reflexivity].
    + apply view_doubled; [exact Ev | rewrite En; reflexivity].
  - now constructor.
Qed.

Lemma escapes_ok_plain c x :
  Ascii.eqb c backslash = false -> escapes_ok (String c x) = escapes_ok x.
Proof. intros H. simpl. rewrite H. reflexivity. Qed.

Lemma escapes_ok_app_plain body :
  escapes_ok body = true ->
  forall x, escapes_ok x = true -> escapes_ok (body +:+ x) = true.
Proof.
  induction body as [body IH] using string_strong_ind.
  intros Hb x Hx.
  destruct body as [|c rest]; [exact Hx|].
  rewrite append_cons. cbn [escapes_ok] in *.
  destruct (Ascii.eqb c backslash).
  - destruct rest as [|n rest']; [discriminate|]. rewrite append_cons.
    destruct (valid_single_escape n).
    + apply IH; [simpl; lia | exact Hb | exact Hx].
    + destruct (Ascii.eqb n "u"); [|discriminate].
      destruct rest' as [|h1 [|h2 [|h3 [|h4 rest'']]]]; try discriminate.
      rewrite !append_cons.
      apply andb_true_iff in Hb as [Hh Hb]. rewrite Hh. simpl.
      apply IH; [simpl; lia | exact Hb | exact Hx].
  - apply IH; [simpl; lia | exact Hb | exact Hx].
Qed.

Lemma last_char_cons c rest :
  rest <> EmptyString -> last_char (String c rest) = last_char rest.
Proof. destruct rest; [congruence | reflexivity]. Qed.

Lemma last_char_some_nonempty s c : last_char s = Some c -> s <> EmptyString.
Proof. destruct s; [discriminate | congruence]. Qed.

(** The output is well formed, but for a backslash that ends the input and
    that the scan reaches on its own. *)
Lemma san_well_formed s :
  escapes_ok (san s) = true
  \/ (exists body, san s = body +:+ String backslash EmptyString
                   /\ escapes_ok body = true
                   /\ last_char s = Some backslash).
Proof.
  induction s as [s IH] using string_strong_ind.
  destruct (token_view_of s) as [| |c rest Hc|c rest Hv|h1 h2 h3 h4 rest Hh|c rest Hv Hu].
  - left. reflexivity.
  - right. exists EmptyString. repeat split; reflexivity.
  - rewrite (san_plain _ _ Hc).
    destruct (IH rest) as [Hok|(body & Hs & Hb & Hl)]; [simpl; lia| |].
    + left. rewrite escapes_ok_plain; assumption.
    + right. exists (String c body). rewrite Hs. split; [reflexivity|].
      split; [rewrite escapes_ok_plain; assumption|].
      rewrite last_char_cons; [exact Hl|]. eapply last_char_some_nonempty, Hl.
  - rewrite (san_valid _ _ Hv).
    destruct (IH rest) as [Hok|(body & Hs & Hb & Hl)]; [simpl; lia| |].
    + left. cbn [escapes_ok]. change (Ascii.eqb backslash backslash) with true.
      cbv iota. rewrite Hv. exact Hok.
    + right. exists (String backslash (String c body)). rewrite Hs.
      split; [reflexivity|]. split.
      * cbn [escapes_ok]. change (Ascii.eqb backslash backslash) with true.
        cbv iota. rewrite Hv. exact Hb.
      * pose proof (last_char_some_nonempty _ _ Hl) as Hne.
        rewrite last_char_cons by discriminate.
        rewrite last_char_cons by exact Hne. exact Hl.
  - rewrite (san_unicode _ _ _ _ _ Hh).
    destruct (IH rest) as [Hok|(body & Hs & Hb & Hl)]; [simpl; lia| |].
    + left. cbn [escapes_ok]. change (Ascii.eqb backslash backslash) with true.
      cbv iota. change (valid_single_escape "u") with false. cbv iota.
      change (Ascii.eqb "u" "u") with true. cbv iota. rewrite Hh. exact Hok.
    + right.
      exists (String backslash (String "u" (String h1 (String h2 (String h3 (String h4 body)))))).
      rewrite Hs. split; [reflexivity|]. split.
      * cbn [escapes_ok]. change (Ascii.eqb backslash backslash) with true.
        cbv iota. change (valid_single_escape "u") with false. cbv iota.
        change (Ascii.eqb "u" "u") with true. cbv iota. rewrite Hh. exact Hb.
      * pose proof (last_char_some_nonempty _ _ Hl) as Hne.
        do 5 (rewrite last_char_cons by discriminate).
        rewrite last_char_cons by exact Hne. exact Hl.
  - rewrite (san_doubled _ _ Hv Hu).
    pose proof (invalid_escape_not_backslash _ Hv) as Hc.
    destruct (IH rest) as [Hok|(body & Hs & Hb & Hl)]; [simpl; lia| |].
    + left. cbn [escapes_ok]. change (Ascii.eqb backslash backslash) with true.
      cbv iota. rewrite backslash_is_valid_escape. rewrite Hc. exact Hok.
    + right. exists (String backslash (String backslash (String c body))).
      rewrite Hs. split; [reflexivity|]. split.
      * cbn [escapes_ok]. change (Ascii.eqb backslash backslash) with true.
        cbv iota. rewrite backslash_is_valid_escape. rewrite Hc. exact Hb.
      * pose proof (last_char_some_nonempty _ _ Hl) as Hne.
        rewrite last_char_cons by discriminate.
        rewrite last_char_cons by exact Hne. exact Hl.
Qed.

Lemma is_subseq_refl_cons c s t :
  is_subseq s t = true -> is_subseq (String c s) (String c t) = true.
Proof. intros H. cbn [is_subseq]. rewrite Ascii.eqb_refl. exact H. Qed.

Lemma is_subseq_skip_tail t :
  (forall s c, is_subseq s t = true -> is_subseq s (String c t) = true)
  /\ (forall a s, is_subseq (String a s) t = true -> is_subseq s t = true).
Proof.
  induction t as [|b t [IHskip IHtail]].
  - split.
    + intros [|a s] c H; [reflexivity | discriminate H].
    + intros a s H. discriminate H.
  - assert (Htail : forall a s, is_subseq (String a s) (String b t) = true ->
                                is_subseq s (String b t) = true).
    { intros a s H. cbn [is_subseq] in H.
      destruct (Ascii.eqb a b).
      - apply IHskip, H.
      - apply IHskip, (IHtail a), H. }
    split; [|exact Htail].
    intros [|a s] c H; [reflexivity|].
    change (is_subseq (String a s) (String c (String b t)))
      with (if Ascii.eqb a c then is_subseq s (String b t)
            else is_subseq (String a s) (String b t)).
    destruct (Ascii.eqb a c); [apply (Htail a), H | exact H].
Qed.

Lemma is_subseq_skip c s t :
  is_subseq s t = true -> is_subseq s (String c t) = true.
Proof. apply is_subseq_skip_tail. Qed.

(** No character of the input is dropped or reordered. *)
Lemma san_keeps_input s : is_subseq s (san s) = true.
Proof.
  induction s as [s IH] using string_strong_ind.
  destruct (token_view_of s) as [| |c rest Hc|c rest Hv|h1 h2 h3 h4 rest Hh|c rest Hv Hu].
  - reflexivity.
  - reflexivity.
  - rewrite (san_plain _ _ Hc). apply is_subseq_refl_cons, IH. simpl; lia.
  - rewrite (san_valid _ _ Hv). do 2 apply is_subseq_refl_cons. apply IH. simpl; lia.
  - rewrite (san_unicode _ _ _ _ _ Hh). do 6 apply is_subseq_refl_cons.
    apply IH. simpl; lia.
  - rewrite (san_doubled _ _ Hv Hu). apply is_subseq_refl_cons.
    apply is_subseq_skip, is_subseq_refl_cons, IH. simpl; lia.
Qed.

(** Only backslashes are added. *)
Lemma san_adds_backslashes_only s :
  PyStr.remove_char backslash (san s) = PyStr.remove_char backslash s.
Proof.
  induction s as [s IH] using string_strong_ind.
  destruct (token_view_of s) as [| |c rest Hc|c rest Hv|h1 h2 h3 h4 rest Hh|c rest Hv Hu].
  - reflexivity.
  - reflexivity.
  - rewrite (san_plain _ _ Hc). cbn [PyStr.remove_char]. rewrite Hc.
    f_equal. apply IH. simpl; lia.
  - rewrite (san_valid _ _ Hv). cbn [PyStr.remove_char].
    rewrite (IH rest) by (simpl; lia). reflexivity.
  - rewrite (san_unicode _ _ _ _ _ Hh). cbn [PyStr.remove_char].
    rewrite (IH rest) by (simpl; lia). reflexivity.
  - rewrite (san_doubled _ _ Hv Hu). cbn [PyStr.remove_char].
    rewrite (IH rest) by (simpl; lia). reflexivity.
Qed.

End Sanitizer.

(** C4 (as amended).  For every input text [s]:
    - a backslash followed by a character that is neither a one-character
      escape nor the [u] of a four-hex-digit escape comes out as two
      backslashes and that character (a malformed [\u] included), and the
      scan goes on after the character;
    - no input character is dropped: [s] is a subsequence of the output and
      the two differ by backslashes only;
    - the output has well-formed escape sequences only, except that a
      backslash ending the input which the scan reaches on its own is copied
      as it is, at the end of the output;
    - the two characters [\d] become the three characters [\\d]. *)
Theorem sanitizer_contract (s : string) :
  (forall c rest,
      valid_single_escape c = false ->
      Ascii.eqb c "u" && four_hex rest = false ->
      sanitize_json_escapes (String backslash (String c rest))
      = String backslash (String backslash
          (String c (sanitize_json_escapes rest))))
  /\ is_subseq s (sanitize_json_escapes s) = true
  /\ PyStr.remove_char backslash (sanitize_json_escapes s)
     = PyStr.remove_char backslash s
  /\ (escapes_ok (sanitize_json_escapes s) = true
      \/ exists body,
           sanitize_json_escapes s = body +:+ String backslash EmptyString
           /\ escapes_ok body = true
           /\ last_char s = Some backslash)
  /\ sanitize_json_escapes "\d" = "\\d".
Proof.
  split; [intros c rest; apply san_doubled|].
  split; [apply san_keeps_input|].
  split; [apply san_adds_backslashes_only|].
  split; [apply san_well_formed | reflexivity].
Qed.

Lemma sanitizer_contract_witness :
  sanitize_json_escapes "a\qb\u12" = "a\\qb\\u12"
  /\ escapes_ok (sanitize_json_escapes "a\qb\u12") = true.
Proof.
  destruct (sanitizer_contract "a\qb\u12") as (Hd & _ & _ & [Hok|Hbad] & _).
  - split; [reflexivity | exact Hok].
  - destruct Hbad as (body & _ & _ & Hl). discriminate Hl.
Defined.

(** C4 as stated fails on a text that is one backslash: it is returned as
    it is, and a backslash with nothing after it is no escape sequence. *)
Lemma sanitizer_lone_backslash :
  sanitize_json_escapes "\" = "\"
  /\ escapes_ok (sanitize_json_escapes "\") = false.
Proof. split; reflexivity. Qed.

(** ** Splitting a text into lines and joining lines *)

Section Lines.

Variable sep : ascii.

Definition free_of (s : string) : Prop := PyStr.mem_char sep s = false.

Lemma split_not_nil s : PyStr.split sep s <> [].
Proof.
  destruct s as [|c r]; cbn [PyStr.split]; [discriminate|].
  destruct (Ascii.eqb c sep); [discriminate|].
  destruct (PyStr.split sep r); discriminate.
Qed.

Lemma split_free s : Forall free_of (PyStr.split sep s).
Proof.
  induction s as [|c r IH]; cbn [PyStr.split].
  - constructor; [reflexivity | constructor].
  - destruct (Ascii.eqb c sep) eqn:Ec.
    + constructor; [reflexivity | exact IH].
    + destruct (PyStr.split sep r) as [|h t].
      * constructor; [|constructor]. unfold free_of. cbn [PyStr.mem_char].
        rewrite Ascii.eqb_sym, Ec. reflexivity.
      * inversion IH as [|? ? Hh Ht]; subst. constructor; [|exact Ht].
        unfold free_of in *. cbn [PyStr.mem_char].
        rewrite Ascii.eqb_sym, Ec. exact Hh.
Qed.

Lemma split_free_line s : free_of s -> PyStr.split sep s = [s].
Proof.
  unfold free_of. induction s as [|c r IH]; intros H; [reflexivity|].
  cbn [PyStr.mem_char] in H. apply orb_false_iff in H as [Hc Hr].
  cbn [PyStr.split]. rewrite Ascii.eqb_sym, Hc. rewrite (IH Hr). reflexivity.
Qed.

Lemma split_line_then s rest :
  free_of s ->
  PyStr.split sep (s +:+ String sep rest) = s :: PyStr.split sep rest.
Proof.
  unfold free_of. induction s as [|c r IH]; intros H.
  - rewrite append_empty. cbn [PyStr.split]. rewrite Ascii.eqb_refl. reflexivity.
  - cbn [PyStr.mem_char] in H. apply orb_false_iff in H as [Hc Hr].
    change (String c r +:+ String sep rest) with (String c (r +:+ String sep rest)).
    cbn [PyStr.split]. rewrite Ascii.eqb_sym, Hc. rewrite (IH Hr). reflexivity.
Qed.

(** Splitting what [join] built gives the lines back. *)
Lemma split_join ls :
  ls <> [] -> Forall free_of ls ->
  PyStr.split sep (PyStr.join (String sep EmptyString) ls) = ls.
Proof.
  induction ls as [|l ls IH]; intros Hne Hall; [congruence|].
  inversion Hall as [|? ? Hl Hls]; subst.
  destruct ls as [|l' ls'].
  - cbn [PyStr.join]. apply split_free_line, Hl.
  - change (PyStr.join (String sep EmptyString) (l :: l' :: ls'))
      with (l +:+ String sep EmptyString
              +:+ PyStr.join (String sep EmptyString) (l' :: ls')).
    change (String sep EmptyString +:+ PyStr.join (String sep EmptyString) (l' :: ls'))
      with (String sep (PyStr.join (String sep EmptyString) (l' :: ls'))).
    rewrite (split_line_then _ _ Hl). f_equal. apply IH; [discriminate | exact Hls].
Qed.

(** Joining the lines of a text gives the text back. *)
Lemma join_split s :
  PyStr.join (String sep EmptyString) (PyStr.split sep s) = s.
Proof.
  induction s as [|c r IH]; [reflexivity|].
  cbn [PyStr.split]. destruct (Ascii.eqb c sep) eqn:Ec.
  - apply ascii_eqb_true in Ec. subst c.
    pose proof (split_not_nil r) as Hne.
    destruct (PyStr.split sep r) as [|h t]; [congruence|].
    change (PyStr.join (String sep EmptyString) (EmptyString :: h :: t))
      with (String sep (PyStr.join (String sep EmptyString) (h :: t))).
    rewrite IH. reflexivity.
  - pose proof (split_not_nil r) as Hne.
    destruct (PyStr.split sep r) as [|h t]; [congruence|].
    destruct t as [|h' t'].
    + cbn [PyStr.join] in *. rewrite IH. reflexivity.
    + change (PyStr.join (String sep EmptyString) (String c h :: h' :: t'))
        with (String c (h +:+ String sep EmptyString
                          +:+ PyStr.join (String sep EmptyString) (h' :: t'))).
      change (PyStr.join (String sep EmptyString) (h :: h' :: t'))
        with (h +:+ String sep EmptyString
                +:+ PyStr.join (String sep EmptyString) (h' :: t')) in IH.
      rewrite IH. reflexivity.
Qed.

Lemma free_of_app a b : free_of a -> free_of b -> free_of (a +:+ b).
Proof.
  unfold free_of. induction a as [|c r IH]; intros Ha Hb; [exact Hb|].
  change (String c r +:+ b) with (String c (r +:+ b)).
  cbn [PyStr.mem_char] in *. apply orb_false_iff in Ha as [Hc Hr].
  rewrite Hc. cbn. apply IH; assumption.
Qed.

Lemma free_of_replicate n ch :
  Ascii.eqb sep ch = false -> free_of (PyStr.replicate_char n ch).
Proof.
  intros H. unfold free_of. induction n as [|n IH]; [reflexivity|].
  cbn [PyStr.replicate_char PyStr.mem_char]. rewrite H. exact IH.
Qed.

End Lines.

Lemma line_count_join ls :
  ls <> [] -> Forall (free_of PyStr.nl) ls ->
  line_count (PyStr.join newline ls) = length ls.
Proof.
  intros Hne Hall. unfold line_count, newline. rewrite split_join; auto.
Qed.

(** ** Anchor resolver *)

Section Resolver.

Variable E : raw_search.
Variable file_lines : list string.
Variable anchor_text : string.
Variable claimed : gset nat.

Local Abbreviation soft_here := (soft_at E file_lines anchor_text).
Local Abbreviation passed_here := (passed E file_lines anchor_text claimed).

(** What [scan] returns is the first line of the search order that is
    neither claimed nor without a soft match. *)
Lemma scan_found expected_idx order idx h :
  scan E file_lines expected_idx anchor_text claimed order = Found idx h ->
  exists pre post,
    order = pre ++ idx :: post
    /\ Forall passed_here pre
    /\ (idx ∉ claimed)
    /\ idx < length file_lines
    /\ soft_here idx = Some true
    /\ h = flag_of expected_idx idx.
Proof.
  induction order as [|j order IH]; intros H; [discriminate H|].
  cbn [scan] in H. case_bool_decide as Hj.
  - destruct (IH H) as (pre & post & -> & Hpre & Hrest).
    exists (j :: pre), post. split; [reflexivity|].
    split; [constructor; [left; exact Hj | exact Hpre] | exact Hrest].
  - destruct (file_lines !! j) as [l|] eqn:Hl; [|discriminate H].
    destruct (soft_match_anchor E anchor_text l) as [[|]|] eqn:Hs;
      [| |discriminate H].
    + injection H as <- <-. exists [], order. split; [reflexivity|].
      split; [constructor|]. split; [exact Hj|].
      split; [eapply lookup_lt_Some, Hl|].
      split; [unfold soft_at; rewrite Hl; exact Hs | reflexivity].
    + destruct (IH H) as (pre & post & -> & Hpre & Hrest).
      exists (j :: pre), post. split; [reflexivity|].
      split; [|exact Hrest].
      constructor; [right; unfold soft_at; rewrite Hl; exact Hs | exact Hpre].
Qed.

(** Conversely, a line of the order that matches softly and is not
    claimed is returned when every other line of the order is passed. *)
Lemma scan_finds expected_idx order d :
  d ∈ order ->
  (forall j, j ∈ order -> j <> d -> passed_here j) ->
  d ∉ claimed ->
  soft_here d = Some true ->
  scan E file_lines expected_idx anchor_text claimed order
  = Found d (flag_of expected_idx d).
Proof.
  intros Hin Hothers Hd Hsoft.
  induction order as [|j order IH]; [by apply elem_of_nil in Hin|].
  cbn [scan]. destruct (decide (j = d)) as [->|Hne].
  - rewrite bool_decide_eq_false_2 by exact Hd.
    unfold soft_at in Hsoft.
    destruct (file_lines !! d) as [l|]; [|discriminate Hsoft].
    cbn in Hsoft. rewrite Hsoft. reflexivity.
  - assert (Hrec : scan E file_lines expected_idx anchor_text claimed order
                   = Found d (flag_of expected_idx d)).
    { apply IH.
      - apply elem_of_cons in Hin as [Heq|Hin]; [congruence | exact Hin].
      - intros k Hk. apply Hothers. apply elem_of_cons. right. exact Hk. }
    destruct (Hothers j) as [Hc|Hs]; [apply elem_of_cons; left; reflexivity | exact Hne | |].
    + rewrite bool_decide_eq_true_2 by exact Hc. exact Hrec.
    + case_bool_decide; [exact Hrec|].
      unfold soft_at in Hs.
      destruct (file_lines !! j) as [l|]; [|discriminate Hs].
      cbn in Hs. rewrite Hs. exact Hrec.
Qed.

(** Every line but the expected one is in the search order. *)
Lemma search_order_complete (expected_idx : Z) (idx : nat) :
  idx < length file_lines ->
  Z.of_nat idx <> expected_idx ->
  idx ∈ search_order (length file_lines) expected_idx.
Proof.
  intros Hlt Hne. unfold search_order.
  match goal with |- _ ∈ ?nearby ++ _ => set (near := nearby) end.
  apply elem_of_app. destruct (decide (idx ∈ near)) as [Hin|Hnin].
  - left. exact Hin.
  - right. apply list_elem_of_filter. split; [split; assumption|].
    apply elem_of_seq. lia.
Qed.

Lemma search_order_not_expected (expected_idx : Z) (idx : nat) :
  idx ∈ search_order (length file_lines) expected_idx ->
  Z.of_nat idx <> expected_idx.
Proof.
  unfold search_order. intros H. apply elem_of_app in H as [H|H].
  - apply list_elem_of_In, in_flat_map in H as (offset & _ & H).
    destruct (offset =? 0)%Z eqn:Eo; [destruct H|].
    destruct ((0 <=? expected_idx + offset)%Z
              && (expected_idx + offset <? Z.of_nat (length file_lines))%Z) eqn:Eb;
      [|destruct H].
    destruct H as [<-|[]]. lia.
  - apply list_elem_of_filter in H as [[H _] _]. exact H.
Qed.

(** The error side: a line number out of range, or a claimed line. *)
Lemma find_out_of_bounds line_number :
  (line_number - 1 < 0 \/ Z.of_nat (length file_lines) <= line_number - 1)%Z ->
  find_insertion_line E file_lines line_number anchor_text claimed = NotFound.
Proof.
  intros H. unfold find_insertion_line.
  destruct ((line_number - 1 <? 0)%Z
            || (Z.of_nat (length file_lines) <=? line_number - 1)%Z) eqn:Eb;
    [reflexivity|].
  apply orb_false_iff in Eb as [E1 E2]. lia.
Qed.

Lemma find_claimed line_number :
  (0 <= line_number - 1)%Z ->
  Z.to_nat (line_number - 1) ∈ claimed ->
  find_insertion_line E file_lines line_number anchor_text claimed = NotFound.
Proof.
  intros Hpos H. unfold find_insertion_line.
  destruct ((line_number - 1 <? 0)%Z
            || (Z.of_nat (length file_lines) <=? line_number - 1)%Z);
    [reflexivity|].
  rewrite bool_decide_eq_true_2 by exact H. reflexivity.
Qed.

(** The success side: an index that is returned is a line of the buffer
    and is not claimed. *)
Lemma find_found line_number idx h :
  find_insertion_line E file_lines line_number anchor_text claimed
  = Found idx h ->
  idx < length file_lines /\ idx ∉ claimed.
Proof.
  unfold find_insertion_line.
  destruct ((line_number - 1 <? 0)%Z
            || (Z.of_nat (length file_lines) <=? line_number - 1)%Z) eqn:Eb;
    [discriminate|].
  case_bool_decide as Hc; [discriminate|].
  destruct (file_lines !! Z.to_nat (line_number - 1)) as [l|] eqn:Hl;
    [|discriminate].
  pose proof (lookup_lt_Some _ _ _ Hl) as Hlt.
  destruct (PyStr.contains anchor_text l).
  - intros [= <- <-]. split; assumption.
  - destruct (soft_match_anchor E anchor_text l) as [[|]|]; [| |discriminate].
    + intros [= <- <-]. split; assumption.
    + intros H. apply scan_found in H as (pre & post & _ & _ & Hn & Hb & _).
      split; assumption.
Qed.

(** Drift: when the expected line is a line of the buffer, is not
    claimed and matches neither exactly nor softly, a line [d] that is the
    only one to match softly is found wherever it is. *)
Lemma find_drifted line_number d :
  (0 <= line_number - 1 < Z.of_nat (length file_lines))%Z ->
  Z.to_nat (line_number - 1) ∉ claimed ->
  d ∉ claimed ->
  soft_here d = Some true ->
  (forall j, j < length file_lines -> j <> d -> soft_here j = Some false) ->
  (forall l, file_lines !! Z.to_nat (line_number - 1) = Some l ->
             PyStr.contains anchor_text l = false) ->
  d <> Z.to_nat (line_number - 1) ->
  find_insertion_line E file_lines line_number anchor_text claimed
  = Found d (flag_of (line_number - 1) d).
Proof.
  intros Hb He Hd Hsoft Honly Hexact Hne. unfold find_insertion_line.
  destruct ((line_number - 1 <? 0)%Z
            || (Z.of_nat (length file_lines) <=? line_number - 1)%Z) eqn:Eb.
  { apply orb_true_iff in Eb as [Eb|Eb]; lia. }
  rewrite bool_decide_eq_false_2 by exact He.
  assert (Hdlt : d < length file_lines).
  { unfold soft_at in Hsoft. destruct (file_lines !! d) eqn:Hl; [|discriminate].
    eapply lookup_lt_Some, Hl. }
  pose proof (Honly (Z.to_nat (line_number - 1)) ltac:(lia) ltac:(congruence)) as Hse.
  unfold soft_at in Hse.
  destruct (file_lines !! Z.to_nat (line_number - 1)) as [l|] eqn:Hl;
    [|discriminate Hse].
  cbn in Hse. rewrite (Hexact l eq_refl), Hse.
  apply scan_finds; [| |exact Hd|exact Hsoft].
  - apply search_order_complete; [exact Hdlt | lia].
  - intros j Hj Hjd. right. apply Honly; [|exact Hjd].
    unfold search_order in Hj. apply elem_of_app in Hj as [Hj|Hj].
    + apply list_elem_of_In, in_flat_map in Hj as (offset & _ & Hj).
      destruct (offset =? 0)%Z; [destruct Hj|].
      destruct ((0 <=? line_number - 1 + offset)%Z
                && (line_number - 1 + offset <? Z.of_nat (length file_lines))%Z) eqn:Ebb;
        [|destruct Hj].
      destruct Hj as [<-|[]]. apply andb_true_iff in Ebb as [B1 B2]. lia.
    + apply list_elem_of_filter in Hj as [_ Hj]. apply elem_of_seq in Hj. lia.
Qed.

(** A near miss or a distant match is the first line of the search order
    that is not passed over. *)
Lemma find_searched line_number idx h :
  find_insertion_line E file_lines line_number anchor_text claimed
  = Found idx h ->
  h = NearMiss \/ h = Distant ->
  exists pre post,
    search_order (length file_lines) (line_number - 1) = pre ++ idx :: post
    /\ Forall passed_here pre
    /\ (idx ∉ claimed)
    /\ soft_here idx = Some true.
Proof.
  unfold find_insertion_line.
  destruct ((line_number - 1 <? 0)%Z
            || (Z.of_nat (length file_lines) <=? line_number - 1)%Z);
    [discriminate|].
  case_bool_decide as Hc; [discriminate|].
  destruct (file_lines !! Z.to_nat (line_number - 1)) as [l|];
    [|discriminate].
  destruct (PyStr.contains anchor_text l).
  { intros [= <- <-] [Hh|Hh]; discriminate Hh. }
  destruct (soft_match_anchor E anchor_text l) as [[|]|]; [| |discriminate].
  { intros [= <- <-] [Hh|Hh]; discriminate Hh. }
  intros H _. apply scan_found in H as (pre & post & Ho & Hp & Hn & _ & Hs & _).
  exists pre, post. repeat split; assumption.
Qed.

End Resolver.

(** ** Patch applier: the loop body and the step relation *)

Section Applier.

Variable E : raw_search.

(** The insertions of lines 806-807, one line at a time, put the whole
    block before the line at [insert_idx]. *)
Lemma insert_block_spec comment_lines : forall l insert_idx offset,
  insert_idx + offset <= length l ->
  insert_block l insert_idx offset comment_lines
  = take (insert_idx + offset) l ++ comment_lines
    ++ drop (insert_idx + offset) l.
Proof.
  induction comment_lines as [|c rest IH]; intros l idx off Hle.
  - cbn [insert_block app]. symmetry. apply take_drop.
  - cbn [insert_block]. unfold list_insert_at.
    set (n := idx + off) in *.
    rewrite IH by (rewrite length_app, length_take; cbn [length];
                   rewrite length_drop; lia).
    replace (idx + S off) with (n + 1) by lia.
    rewrite take_app_add' by (rewrite length_take; lia).
    rewrite drop_app_add' by (rewrite length_take; lia).
    cbn [take drop]. rewrite take_0, drop_0. rewrite <- app_assoc. reflexivity.
Qed.

Lemma is_empty_false s : PyStr.is_empty s = false <-> s <> EmptyString.
Proof. destruct s; cbn; split; congruence. Qed.

Lemma is_empty_true s : PyStr.is_empty s = true <-> s = EmptyString.
Proof. destruct s; cbn; split; congruence. Qed.

Lemma valid_entry_test entry :
  (line_number entry =? 0)%Z
  || PyStr.is_empty (PyStr.strip (anchor entry))
  || PyStr.is_empty (PyStr.strip (comment entry)) = false
  <-> valid_entry entry.
Proof.
  unfold valid_entry. rewrite !orb_false_iff, !is_empty_false, Z.eqb_neq.
  tauto.
Qed.

(** The body of the loop takes the step that the relation describes. *)
Lemma insert_entry_step st entry :
  entry_step E st entry (snd (insert_entry E st entry))
             (fst (insert_entry E st entry)).
Proof.
  unfold insert_entry.
  destruct ((line_number entry =? 0)%Z
            || PyStr.is_empty (PyStr.strip (anchor entry))
            || PyStr.is_empty (PyStr.strip (comment entry))) eqn:Hv.
  { apply step_invalid. intros Hvalid. apply valid_entry_test in Hvalid.
    congruence. }
  apply valid_entry_test in Hv.
  fold (entry_key entry).
  case_bool_decide as Hdup; [now apply step_duplicate|].
  fold (resolve_entry E st entry).
  destruct (resolve_entry E st entry) as [idx h| |] eqn:Hr;
    [|now apply step_unresolved|now apply step_failed].
  pose proof Hr as Hb. apply find_found in Hb as [Hb _].
  destruct (lookup_lt_is_Some_2 _ _ Hb) as [anchor_line Hl].
  rewrite Hl. cbn [fst snd].
  rewrite insert_block_spec by lia. rewrite Nat.add_0_r.
  eapply step_inserted; eassumption.
Qed.

(** One entry, one step. *)
Lemma entry_step_deterministic st entry o1 st1 o2 st2 :
  entry_step E st entry o1 st1 ->
  entry_step E st entry o2 st2 ->
  o1 = o2 /\ st1 = st2.
Proof.
  intros H1 H2.
  destruct H1 as [Hn|Hv Hd|Hv Hd Hr|Hv Hd Hr|idx h al Hv Hd Hr Hl];
    destruct H2 as [Hn'|Hv' Hd'|Hv' Hd' Hr'|Hv' Hd' Hr'|idx' h' al' Hv' Hd' Hr' Hl'];
    try (split; reflexivity); try contradiction; try congruence.
  assert (idx = idx') as <- by congruence.
  assert (al = al') as <- by congruence.
  split; reflexivity.
Qed.

Lemma insert_loop_steps entries : forall st,
  loop_steps E st entries (snd (insert_loop E st entries))
             (fst (insert_loop E st entries)).
Proof.
  induction entries as [|entry rest IH]; intros st; cbn [insert_loop].
  - constructor.
  - pose proof (insert_entry_step st entry) as Hstep.
    destruct (insert_entry E st entry) as [st1 o]. cbn [fst snd] in Hstep.
    specialize (IH st1).
    destruct (insert_loop E st1 rest) as [st2 os]. cbn [fst snd] in *.
    econstructor; eassumption.
Qed.

Lemma loop_steps_deterministic st entries os1 st1 :
  loop_steps E st entries os1 st1 ->
  forall os2 st2, loop_steps E st entries os2 st2 -> os1 = os2 /\ st1 = st2.
Proof.
  induction 1 as [st|st entry rest o sta os stb Hstep Hloop IH];
    intros os2 st2 H2; inversion H2; subst.
  - split; reflexivity.
  - match goal with
    | Hs : entry_step E st entry ?o' ?st' |- _ =>
        destruct (entry_step_deterministic _ _ _ _ _ _ Hstep Hs) as [<- <-]
    end.
    match goal with
    | Hl : loop_steps E sta rest ?os' st2 |- _ =>
        destruct (IH _ _ Hl) as [<- <-]
    end.
    split; reflexivity.
Qed.

(** [insert_comments] returns the text of the run, and a run has one
    text. *)
Lemma insert_comments_run original_content comments :
  run E original_content comments
      (insert_comments E original_content comments).
Proof.
  unfold insert_comments. destruct comments as [|c cs]; [constructor|].
  eapply run_loop; [discriminate | apply insert_loop_steps].
Qed.

Lemma run_deterministic original_content comments out1 out2 :
  run E original_content comments out1 ->
  run E original_content comments out2 ->
  out1 = out2.
Proof.
  intros H1 H2. destruct H1 as [|comments os1 st1 Hne1 Hl1].
  - inversion H2; [reflexivity | congruence].
  - inversion H2 as [|? os2 st2 Hne2 Hl2]; subst; [congruence|].
    destruct (loop_steps_deterministic _ _ _ _ Hl1 _ _ Hl2) as [_ <-].
    reflexivity.
Qed.

End Applier.

(** ** Patch applier: what a pass keeps invariant *)

Section Pass.

Variable E : raw_search.

Lemma length_comment_lines_of indent_str comment_text :
  length (comment_lines_of indent_str comment_text) = line_count comment_text.
Proof. unfold comment_lines_of, line_count. apply length_map. Qed.

Lemma entry_step_length st entry o st' :
  entry_step E st entry o st' ->
  length (lines st')
  = length (lines st)
    + (if is_inserted o then comment_line_count entry else 0).
Proof.
  intros H. destruct H as [| | | |idx h al Hv Hd Hr Hl]; cbn [is_inserted];
    try lia.
  cbn [lines]. rewrite !length_app, length_comment_lines_of.
  pose proof (take_drop idx (lines st)) as Htd.
  apply (f_equal length) in Htd. rewrite length_app in Htd.
  unfold comment_line_count. lia.
Qed.

(** Line-count law on the buffer. *)
Lemma loop_steps_length st entries os st' :
  loop_steps E st entries os st' ->
  length (lines st')
  = length (lines st)
    + sum_list (comment_line_count <$> select_inserted entries os).
Proof.
  induction 1 as [st|st entry rest o st1 os st2 Hstep Hloop IH].
  - cbn. lia.
  - rewrite IH. rewrite (entry_step_length _ _ _ _ Hstep).
    cbn [select_inserted]. destruct (is_inserted o); cbn; lia.
Qed.

Lemma comment_lines_free indent_str comment_text :
  free_of PyStr.nl indent_str ->
  Forall (free_of PyStr.nl) (comment_lines_of indent_str comment_text).
Proof.
  intros Hi. unfold comment_lines_of. apply Forall_fmap.
  eapply Forall_impl; [apply split_free|].
  intros l Hl. cbn. destruct (PyStr.is_empty (PyStr.strip l)); [reflexivity|].
  apply free_of_app; assumption.
Qed.

Lemma entry_step_free st entry o st' :
  entry_step E st entry o st' ->
  Forall (free_of PyStr.nl) (lines st) ->
  Forall (free_of PyStr.nl) (lines st').
Proof.
  intros H Hall. destruct H as [| | | |idx h al Hv Hd Hr Hl]; try exact Hall.
  cbn [lines]. rewrite <- (take_drop idx (lines st)) in Hall.
  apply Forall_app in Hall as [Ht Hdr].
  apply Forall_app. split; [exact Ht|]. apply Forall_app. split; [|exact Hdr].
  apply comment_lines_free. unfold indent_of. apply free_of_replicate.
  reflexivity.
Qed.

Lemma loop_steps_free st entries os st' :
  loop_steps E st entries os st' ->
  Forall (free_of PyStr.nl) (lines st) ->
  Forall (free_of PyStr.nl) (lines st').
Proof.
  induction 1 as [st|st entry rest o st1 os st2 Hstep Hloop IH]; [auto|].
  intros Hall. apply IH. eapply entry_step_free; eassumption.
Qed.

(** Anchors: the keys of the inserted entries are new, and all different. *)
Lemma loop_steps_keys st entries os st' :
  loop_steps E st entries os st' ->
  (forall d, d ∈ select_inserted entries os ->
             entry_key d ∉ documented_anchors st)
  /\ NoDup (entry_key <$> select_inserted entries os).
Proof.
  induction 1 as [st|st entry rest o st1 os st2 Hstep Hloop [IHnew IHnd]].
  - split; [intros d Hd; by apply elem_of_nil in Hd | constructor].
  - cbn [select_inserted].
    destruct Hstep as [| | | |idx h al Hv Hd Hr Hl]; cbn [is_inserted];
      try (split; assumption).
    cbn [documented_anchors] in IHnew. split.
    + intros d Hin. apply elem_of_cons in Hin as [->|Hin]; [exact Hd|].
      specialize (IHnew d Hin). set_solver.
    + rewrite fmap_cons. apply NoDup_cons. split; [|exact IHnd].
      intros Hin. apply list_elem_of_fmap in Hin as (d & Heq & Hin).
      specialize (IHnew d Hin). rewrite <- Heq in IHnew. set_solver.
Qed.

(** Claimed lines: an index that is returned is new, and all differ. *)
Lemma loop_steps_claims st entries os st' :
  loop_steps E st entries os st' ->
  (forall idx, idx ∈ inserted_indices os -> idx ∉ inserted_at_lines st)
  /\ NoDup (inserted_indices os).
Proof.
  induction 1 as [st|st entry rest o st1 os st2 Hstep Hloop [IHnew IHnd]].
  - split; [intros d Hd; by apply elem_of_nil in Hd | constructor].
  - unfold inserted_indices in *. cbn [omap list_omap].
    destruct Hstep as [| | | |idx h al Hv Hd Hr Hl];
      try (split; assumption).
    cbn [inserted_at_lines] in IHnew.
    apply find_found in Hr as [_ Hnew]. split.
    + intros i Hin. apply elem_of_cons in Hin as [->|Hin]; [exact Hnew|].
      specialize (IHnew i Hin). set_solver.
    + apply NoDup_cons. split; [|exact IHnd].
      intros Hin. specialize (IHnew idx Hin). set_solver.
Qed.

(** The indent field is never read. *)
Lemma insert_entry_indent st d1 d2 :
  same_but_indent d1 d2 -> insert_entry E st d1 = insert_entry E st d2.
Proof.
  intros (Hl & Ha & Hc). unfold insert_entry. rewrite Hl, Ha, Hc. reflexivity.
Qed.

Lemma insert_loop_indent ds1 ds2 :
  Forall2 same_but_indent ds1 ds2 ->
  forall st, insert_loop E st ds1 = insert_loop E st ds2.
Proof.
  induction 1 as [|d1 d2 ds1 ds2 Hd Hds IH]; intros st; [reflexivity|].
  cbn [insert_loop]. rewrite (insert_entry_indent st d1 d2 Hd).
  destruct (insert_entry E st d2) as [st1 o]. rewrite IH. reflexivity.
Qed.

Lemma insert_sorted_indent d1 d2 ds1 ds2 :
  same_but_indent d1 d2 ->
  Forall2 same_but_indent ds1 ds2 ->
  Forall2 same_but_indent (insert_sorted d1 ds1) (insert_sorted d2 ds2).
Proof.
  intros Hd Hds. induction Hds as [|y1 y2 ds1 ds2 Hy Hds IH].
  - cbn. constructor; [exact Hd | constructor].
  - cbn [insert_sorted]. destruct Hd as (Hl & Ha & Hc).
    destruct Hy as (Hl' & Ha' & Hc'). rewrite Hl, Hl'.
    destruct (line_number y2 <=? line_number d2)%Z.
    + constructor; [repeat split; assumption|].
      constructor; [repeat split; assumption | exact Hds].
    + constructor; [repeat split; assumption | exact IH].
Qed.

Lemma sorted_comments_indent ds1 ds2 :
  Forall2 same_but_indent ds1 ds2 ->
  Forall2 same_but_indent (sorted_comments ds1) (sorted_comments ds2).
Proof.
  induction 1 as [|d1 d2 ds1 ds2 Hd Hds IH]; [constructor|].
  unfold sorted_comments. cbn [foldr]. apply insert_sorted_indent; assumption.
Qed.

End Pass.

(** ** The applier: line count, determinism, anchors, indentation *)

Section ApplierClaims.

Variable E : raw_search.

Lemma initial_lines_free original_content :
  Forall (free_of PyStr.nl) (lines (initial_buffer original_content)).
Proof. apply split_free. Qed.

Lemma outcomes_steps original_content comments :
  loop_steps E (initial_buffer original_content) (sorted_comments comments)
    (outcomes E original_content comments)
    (fst (insert_loop E (initial_buffer original_content)
                      (sorted_comments comments))).
Proof. apply insert_loop_steps. Qed.

Lemma step_inserted_iff st entry o st' :
  entry_step E st entry o st' ->
  (is_inserted o = true <->
   valid_entry entry /\ (entry_key entry ∉ documented_anchors st)
   /\ exists idx h, resolve_entry E st entry = Found idx h).
Proof.
  intros H. destruct H as [Hn|Hv Hd|Hv Hd Hr|Hv Hd Hr|idx h al Hv Hd Hr Hl];
    cbn [is_inserted]; split; try discriminate.
  - intros (Hv & _). contradiction.
  - intros (_ & Hd' & _). contradiction.
  - intros (_ & _ & idx & h & Hr'). congruence.
  - intros (_ & _ & idx & h & Hr'). congruence.
  - intros _. eauto 6.
  - reflexivity.
Qed.

Lemma step_not_inserted st entry o st' :
  entry_step E st entry o st' -> is_inserted o = false -> st' = st.
Proof. intros H. destruct H; cbn; congruence. Qed.

Lemma step_inserted_key st entry o st' :
  entry_step E st entry o st' -> is_inserted o = true ->
  entry_key entry ∈ documented_anchors st'.
Proof. intros H. destruct H; cbn; try discriminate. intros _. set_solver. Qed.

Lemma length_leading_space line :
  String.length line - String.length (PyStr.lstrip line)
  = String.length (leading_space line).
Proof.
  assert (H : String.length line
              = String.length (leading_space line)
                + String.length (PyStr.lstrip line)).
  { induction line as [|c r IH]; [reflexivity|].
    cbn [leading_space PyStr.lstrip]. destruct (PyStr.isspace c).
    - cbn [String.length]. lia.
    - reflexivity. }
  lia.
Qed.

Lemma replicate_all_spaces s :
  all_spaces s = true -> PyStr.replicate_char (String.length s) " " = s.
Proof.
  induction s as [|c r IH]; [reflexivity|]. cbn [all_spaces].
  intros H. apply andb_true_iff in H as [Hc Hr].
  apply ascii_eqb_true in Hc. subst c. cbn. rewrite (IH Hr). reflexivity.
Qed.

(** A pass over two entries with one key. *)
Lemma pair_pass original_content a b :
  entry_key a = entry_key b ->
  let os := snd (insert_loop E (initial_buffer original_content) [a; b]) in
  length (select_inserted [a; b] os) <= 1
  /\ (length (select_inserted [a; b] os) = 1
      <-> resolvable E original_content a \/ resolvable E original_content b).
Proof.
  intros Hkey. cbn [insert_loop].
  set (st0 := initial_buffer original_content).
  pose proof (insert_entry_step E st0 a) as Ha.
  destruct (insert_entry E st0 a) as [st1 oa]. cbn [fst snd] in Ha.
  pose proof (insert_entry_step E st1 b) as Hb.
  destruct (insert_entry E st1 b) as [st2 ob]. cbn [fst snd] in Hb.
  cbn [snd select_inserted].
  pose proof (step_inserted_iff _ _ _ _ Ha) as Hia.
  pose proof (step_inserted_iff _ _ _ _ Hb) as Hib.
  unfold resolvable. fold st0.
  destruct (is_inserted oa) eqn:Eoa.
  - (* the first entry went in: the second is a duplicate *)
    assert (Eob : is_inserted ob = false).
    { destruct (is_inserted ob) eqn:Eob; [|reflexivity].
      destruct Hib as [Hib _]. destruct (Hib eq_refl) as (_ & Hnew & _).
      exfalso. apply Hnew. rewrite <- Hkey.
      eapply step_inserted_key; eassumption. }
    rewrite Eob. cbn [length]. split; [lia|]. split; [|reflexivity].
    intros _. left. destruct Hia as [Hia _].
    destruct (Hia eq_refl) as (Hv & _ & Hr). split; assumption.
  - (* the first entry was skipped: the buffer is as it was *)
    pose proof (step_not_inserted _ _ _ _ Ha Eoa) as ->.
    assert (Hempty : forall k, k ∉ documented_anchors st0).
    { intros k. cbn. set_solver. }
    destruct (is_inserted ob) eqn:Eob; cbn [length].
    + split; [lia|]. split; [|reflexivity]. intros _. right.
      destruct Hib as [Hib _]. destruct (Hib eq_refl) as (Hv & _ & Hr).
      split; assumption.
    + split; [lia|]. split; [discriminate|].
      intros [[Hv Hr]|[Hv Hr]]; exfalso.
      * destruct Hia as [_ Hia].
        enough (false = true) by discriminate.
        apply Hia. split; [exact Hv|]. split; [apply Hempty | exact Hr].
      * destruct Hib as [_ Hib].
        enough (false = true) by discriminate.
        apply Hib. split; [exact Hv|]. split; [apply Hempty | exact Hr].
Qed.

End ApplierClaims.

(** ** Statements about [insert_comments] and [find_insertion_line] *)

(** C2 (as amended).  Line-count law: the number of lines of the text that
    [insert_comments] returns is the number of lines of the original text
    plus, for every entry whose block was inserted, the number of lines of
    its comment text once trimmed. *)
Theorem line_count_law (E : raw_search) (original_content : string)
  (comments : list directive) :
  line_count (insert_comments E original_content comments)
  = line_count original_content
    + sum_list (comment_line_count <$> applied E original_content comments).
Proof.
  unfold insert_comments, applied.
  destruct comments as [|c cs]; [cbn; lia|].
  set (ds := sorted_comments (c :: cs)).
  pose proof (outcomes_steps E original_content (c :: cs)) as Hloop.
  fold ds in Hloop.
  pose proof (loop_steps_length _ _ _ _ _ Hloop) as Hlen.
  pose proof (loop_steps_free _ _ _ _ _ Hloop
                (initial_lines_free original_content)) as Hfree.
  rewrite line_count_join; [exact Hlen | | exact Hfree].
  intros Hnil. rewrite Hnil in Hlen. cbn [length] in Hlen.
  pose proof (split_not_nil PyStr.nl original_content) as Hne.
  cbn [initial_buffer lines] in Hlen.
  destruct (PyStr.split PyStr.nl original_content); [congruence|].
  cbn [length] in Hlen. lia.
Qed.

(** C2 as stated fails on a comment that starts with a line break: the
    comment has two lines, one line is inserted. *)
Lemma line_count_law_untrimmed :
  let original_content := "def foo" in
  let comments := [Directive 1 "def foo" 0 (newline +:+ "# doc")] in
  insert_comments no_raw_patterns original_content comments
  = text_of ["# doc"; "def foo"]
  /\ applied no_raw_patterns original_content comments = comments
  /\ line_count (insert_comments no_raw_patterns original_content comments)
     <> line_count original_content
        + sum_list ((fun d => line_count (comment d))
                      <$> applied no_raw_patterns original_content comments).
Proof. vm_compute. repeat split; congruence. Qed.

(** C3.  [insert_comments] is a function of the original text and the
    entries: a run on them exists, [insert_comments] computes its text, and
    two runs on the same inputs return the same text. *)
Theorem apply_deterministic (E : raw_search) (original_content : string)
  (comments : list directive) :
  run E original_content comments
      (insert_comments E original_content comments)
  /\ forall out1 out2,
       run E original_content comments out1 ->
       run E original_content comments out2 ->
       out1 = out2.
Proof.
  split; [apply insert_comments_run|].
  intros out1 out2. apply run_deterministic.
Qed.

Lemma apply_deterministic_witness :
  insert_comments no_raw_patterns "def foo" [Directive 1 "def foo" 0 "# doc"]
  = text_of ["# doc"; "def foo"].
Proof.
  destruct (apply_deterministic no_raw_patterns "def foo"
              [Directive 1 "def foo" 0 "# doc"]) as [Hfun Hdet].
  apply (Hdet _ _ Hfun). exact Hfun.
Defined.

(** C5.  [find_insertion_line] returns not-found when the expected
    position is outside the buffer and when it is claimed; an index that it
    returns is a line of the buffer and is not claimed; and so the indices
    claimed during one call of [insert_comments] are all different. *)
Theorem resolver_error_side (E : raw_search) (lines : list string)
  (line_number : Z) (anchor : string) (inserted_at_lines : gset nat) :
  ((line_number - 1 < 0 \/ Z.of_nat (length lines) <= line_number - 1)%Z ->
   find_insertion_line E lines line_number anchor inserted_at_lines = NotFound)
  /\ ((0 <= line_number - 1)%Z ->
      Z.to_nat (line_number - 1) ∈ inserted_at_lines ->
      find_insertion_line E lines line_number anchor inserted_at_lines
      = NotFound)
  /\ (forall idx h,
        find_insertion_line E lines line_number anchor inserted_at_lines
        = Found idx h ->
        idx < length lines /\ idx ∉ inserted_at_lines)
  /\ (forall original_content comments,
        NoDup (inserted_indices (outcomes E original_content comments))).
Proof.
  split; [apply find_out_of_bounds|].
  split; [apply find_claimed|].
  split; [intros idx h; apply find_found|].
  intros original_content comments.
  eapply loop_steps_claims, outcomes_steps.
Qed.

Lemma resolver_error_side_witness :
  find_insertion_line no_raw_patterns ["a"; "def foo"] 3 "def foo" ∅ = NotFound
  /\ find_insertion_line no_raw_patterns ["a"; "def foo"] 2 "def foo" {[1]}
     = NotFound
  /\ (1 < 2 /\ 1 ∉ (∅ : gset nat)).
Proof.
  destruct (resolver_error_side no_raw_patterns ["a"; "def foo"] 3 "def foo" ∅)
    as (Hout & _).
  destruct (resolver_error_side no_raw_patterns ["a"; "def foo"] 2 "def foo"
              {[1]}) as (_ & Hclaimed & _).
  destruct (resolver_error_side no_raw_patterns ["a"; "def foo"] 1 "def foo" ∅)
    as (_ & _ & Hfound & _).
  split; [apply Hout; cbn; lia|].
  split; [apply Hclaimed; [lia | cbn; set_solver]|].
  apply (Hfound 1 NearMiss). reflexivity.
Defined.

(** C8 (as amended).  Anchor uniqueness: the entries whose blocks were
    inserted have normalized anchors that are all different; of two entries
    with the same normalized anchor at most one has its block inserted, and
    exactly one when one of them at least has its required fields and can
    be resolved in the original file. *)
Theorem anchor_uniqueness (E : raw_search) (original_content : string)
  (comments : list directive) :
  NoDup (entry_key <$> applied E original_content comments)
  /\ forall d1 d2,
       entry_key d1 = entry_key d2 ->
       length (applied E original_content [d1; d2]) <= 1
       /\ (length (applied E original_content [d1; d2]) = 1
           <-> resolvable E original_content d1
               \/ resolvable E original_content d2).
Proof.
  split.
  - unfold applied. eapply loop_steps_keys, outcomes_steps.
  - intros d1 d2 Hkey. unfold applied, outcomes, sorted_comments.
    cbn [foldr insert_sorted].
    destruct (line_number d2 <=? line_number d1)%Z.
    + apply pair_pass. exact Hkey.
    + destruct (pair_pass E original_content d2 d1 (eq_sym Hkey)) as [Hle Hiff].
      split; [exact Hle|]. rewrite Hiff. tauto.
Qed.

Lemma anchor_uniqueness_witness :
  length (applied no_raw_patterns (text_of ["class A"; "  def foo"; "end"])
            [Directive 2 "def foo" 0 "# one"; Directive 2 "DEF Foo" 0 "# two"])
  <= 1.
Proof.
  destruct (anchor_uniqueness no_raw_patterns
              (text_of ["class A"; "  def foo"; "end"]) []) as [_ Hpair].
  apply Hpair. reflexivity.
Defined.

(** C8 as stated fails when the anchor of the two entries is nowhere in
    the file: no block is inserted. *)
Lemma duplicate_anchor_absent :
  let original_content := text_of ["class A"; "end"] in
  let comments :=
    [Directive 1 "def foo" 0 "# one"; Directive 1 "DEF FOO" 0 "# two"] in
  entry_key (Directive 1 "def foo" 0 "# one")
  = entry_key (Directive 1 "DEF FOO" 0 "# two")
  /\ applied no_raw_patterns original_content comments = []
  /\ insert_comments no_raw_patterns original_content comments
     = original_content.
Proof. vm_compute. repeat split. Qed.

(** C9 (as amended).  Indentation rule: when the block of an entry is
    inserted before the line at [idx], the lines inserted are the lines of
    the trimmed comment text, each line that is not blank after as many
    spaces as the line at [idx] has white-space characters at its head,
    each blank line empty; these spaces are the leading white space of that
    line when it is made of spaces; and the text that [insert_comments]
    returns does not depend on the [indent] fields. *)
Theorem indentation_rule (E : raw_search) :
  (forall st entry idx st',
      insert_entry E st entry = (st', Inserted idx) ->
      exists anchor_line,
        lines st !! idx = Some anchor_line
        /\ lines st'
           = take idx (lines st)
             ++ map (fun comment_line =>
                       if PyStr.is_empty (PyStr.strip comment_line)
                       then EmptyString
                       else PyStr.replicate_char
                              (String.length (leading_space anchor_line)) " "
                            +:+ comment_line)
                    (PyStr.split PyStr.nl (PyStr.strip (comment entry)))
             ++ drop idx (lines st)
        /\ (all_spaces (leading_space anchor_line) = true ->
            PyStr.replicate_char
              (String.length (leading_space anchor_line)) " "
            = leading_space anchor_line))
  /\ (forall original_content comments1 comments2,
        Forall2 same_but_indent comments1 comments2 ->
        insert_comments E original_content comments1
        = insert_comments E original_content comments2).
Proof.
  split.
  - intros st entry idx st' Heq.
    pose proof (insert_entry_step E st entry) as Hstep.
    rewrite Heq in Hstep. cbn [fst snd] in Hstep.
    inversion Hstep as [| | | |idx' h al Hv Hd Hr Hl]; subst.
    exists al. split; [exact Hl|]. split.
    + cbn [lines]. unfold comment_lines_of, indent_of.
      rewrite length_leading_space. reflexivity.
    + apply replicate_all_spaces.
  - intros original_content comments1 comments2 Hsame.
    unfold insert_comments.
    destruct Hsame as [|d1 d2 ds1 ds2 Hd Hds]; [reflexivity|].
    assert (Hall : Forall2 same_but_indent (d1 :: ds1) (d2 :: ds2))
      by (constructor; assumption).
    rewrite (insert_loop_indent E _ _ (sorted_comments_indent _ _ Hall)).
    reflexivity.
Qed.

Lemma indentation_rule_witness :
  insert_comments no_raw_patterns (text_of ["class A"; "  def foo"; "  end"])
    [Directive 2 "def foo" 0 "# doc"]
  = insert_comments no_raw_patterns (text_of ["class A"; "  def foo"; "  end"])
      [Directive 2 "def foo" 8 "# doc"].
Proof.
  destruct (indentation_rule no_raw_patterns) as [_ Hindent].
  apply Hindent. constructor; [|constructor].
  unfold same_but_indent. cbn. repeat split.
Defined.

(** C9 as stated fails on a line indented with a tab: the comment goes in
    after one space, not after the tab. *)
Lemma indentation_tab :
  let original_content := tab +:+ "def foo" in
  let comments := [Directive 1 "def foo" 0 "# doc"] in
  insert_comments no_raw_patterns original_content comments
  = text_of [" # doc"; tab +:+ "def foo"]
  /\ insert_comments no_raw_patterns original_content comments
     <> text_of [tab +:+ "# doc"; tab +:+ "def foo"]
  /\ leading_space (tab +:+ "def foo") = tab.
Proof. vm_compute. repeat split; congruence. Qed.

(** ** Drift *)

Lemma only_soft_match_spec (E : raw_search) (anchor : string)
  (lines : list string) (d : nat) :
  only_soft_match E anchor lines d = true ->
  d < length lines
  /\ soft_at E lines anchor d = Some true
  /\ forall j, j < length lines -> j <> d ->
               soft_at E lines anchor j = Some false.
Proof.
  unfold only_soft_match. intros H. apply andb_true_iff in H as [Hall Hd].
  apply Nat.ltb_lt in Hd.
  assert (Hat : forall j, j < length lines ->
                          soft_at E lines anchor j = Some (Nat.eqb j d)).
  { intros j Hj. destruct (lookup_lt_is_Some_2 _ _ Hj) as [l Hl].
    unfold soft_at. rewrite Hl. cbn.
    rewrite forallb_forall in Hall.
    assert (Hin : In (j, l) (imap pair lines)).
    { apply list_elem_of_In, list_elem_of_lookup. exists j.
      rewrite list_lookup_imap, Hl. reflexivity. }
    specialize (Hall (j, l) Hin). cbn in Hall.
    apply bool_decide_eq_true in Hall. exact Hall. }
  split; [exact Hd|]. split.
  - rewrite (Hat d Hd), Nat.eqb_refl. reflexivity.
  - intros j Hj Hne. rewrite (Hat j Hj).
    apply Nat.eqb_neq in Hne. rewrite Hne. reflexivity.
Qed.

Lemma soft_def_foo (E : raw_search) (l : string) :
  soft_match_anchor E "def foo" l
  = Some (Re.search (def_pattern "foo") l || PyStr.contains "def foo" l).
Proof.
  change (soft_match_anchor E "def foo" l)
    with (if Re.search (def_pattern "foo") l then Some true
          else if PyStr.contains "def foo" l then Some true else Some false).
  destruct (Re.search (def_pattern "foo") l); [reflexivity|].
  destruct (PyStr.contains "def foo" l); reflexivity.
Qed.

(** C6.  In a file of 200 lines where the line at index [d] is the only one
    that matches the anchor [def foo] softly, an entry that claims line 8 is
    resolved to [d], whatever [d]: as a near miss for line 11 (index 10,
    three lines away), as a distant match for line 58 (index 57, fifty lines
    away); the lines claimed before must not be line 8 or the declaration.
    Whenever the search of the file finds a line, it is the first line of
    the search order that is neither claimed nor without a soft match. *)
Theorem drift_resolution (E : raw_search) (lines : list string)
  (claimed : gset nat) :
  length lines = 200 ->
  7 ∉ claimed ->
  (forall d,
      only_soft_match E "def foo" lines d = true ->
      d <> 7 ->
      d ∉ claimed ->
      find_insertion_line E lines 8 "def foo" claimed = Found d (flag_of 7 d))
  /\ flag_of 7 10 = NearMiss
  /\ flag_of 7 57 = Distant
  /\ (forall idx h,
        find_insertion_line E lines 8 "def foo" claimed = Found idx h ->
        h = NearMiss \/ h = Distant ->
        exists pre post,
          search_order 200 7 = pre ++ idx :: post
          /\ Forall (passed E lines "def foo" claimed) pre
          /\ (idx ∉ claimed)
          /\ soft_at E lines "def foo" idx = Some true).
Proof.
  intros Hlen H7. split; [|split; [reflexivity|split; [reflexivity|]]].
  - intros d Honly Hd7 Hd.
    apply only_soft_match_spec in Honly as (Hlt & Hsoft & Hothers).
    apply (find_drifted E lines "def foo" claimed 8 d);
      try assumption; try (cbn; lia).
    intros l Hl.
    pose proof (Hothers 7 ltac:(lia) ltac:(congruence)) as H.
    unfold soft_at in H. change (Z.to_nat (8 - 1)) with 7 in Hl.
    rewrite Hl in H. cbn in H. rewrite soft_def_foo in H.
    injection H as H. apply orb_false_iff in H as [_ H]. exact H.
  - intros idx h Hfind Hh.
    pose proof (find_searched E lines "def foo" claimed 8 idx h Hfind Hh) as H.
    rewrite Hlen in H. exact H.
Qed.

Lemma drift_resolution_witness :
  find_insertion_line no_raw_patterns (file_with_foo_at 10) 8 "def foo" ∅
  = Found 10 NearMiss
  /\ find_insertion_line no_raw_patterns (file_with_foo_at 57) 8 "def foo" ∅
     = Found 57 Distant.
Proof.
  split.
  - destruct (drift_resolution no_raw_patterns (file_with_foo_at 10) ∅)
      as (Hfind & _); [reflexivity | apply not_elem_of_empty |].
    apply (Hfind 10); [vm_compute; reflexivity | lia | apply not_elem_of_empty].
  - destruct (drift_resolution no_raw_patterns (file_with_foo_at 57) ∅)
      as (Hfind & _); [reflexivity | apply not_elem_of_empty |].
    apply (Hfind 57); [vm_compute; reflexivity | lia | apply not_elem_of_empty].
Defined.

(** ** The matcher against what a pattern matches *)

Lemma append_assoc (a b c : string) : (a +:+ b) +:+ c = a +:+ (b +:+ c).
Proof.
  induction a as [|x a IH]; [reflexivity|].
  rewrite !append_cons, IH. reflexivity.
Qed.

Lemma append_empty_r (a : string) : a +:+ EmptyString = a.
Proof.
  induction a as [|x a IH]; [reflexivity|]. rewrite append_cons, IH. reflexivity.
Qed.

Lemma prev_after_empty prev : prev_after prev EmptyString = prev.
Proof. reflexivity. Qed.

Lemma last_char_is_some w : forall c, exists d, last_char (String c w) = Some d.
Proof.
  induction w as [|a w IH]; intros c; [exists c; reflexivity|].
  destruct (IH a) as [d Hd]. exists d. rewrite <- Hd. reflexivity.
Qed.

Lemma prev_after_cons prev c w :
  prev_after prev (String c w) = prev_after (Some c) w.
Proof.
  unfold prev_after. destruct w as [|d w]; [reflexivity|].
  change (last_char (String c (String d w))) with (last_char (String d w)).
  destruct (last_char_is_some w d) as [x ->]. reflexivity.
Qed.

Lemma prev_after_app prev w1 w2 :
  prev_after prev (w1 +:+ w2) = prev_after (prev_after prev w1) w2.
Proof.
  revert prev. induction w1 as [|c w1 IH]; intros prev; [reflexivity|].
  rewrite append_cons, !prev_after_cons. apply IH.
Qed.

Lemma prev_after_none pre : prev_after None pre = last_char pre.
Proof. unfold prev_after. destruct (last_char pre); reflexivity. Qed.

Lemma eat_spec l : forall prev s p' s',
  Re.eat l prev s = Some (p', s') <-> s = l +:+ s' /\ p' = prev_after prev l.
Proof.
  induction l as [|a l IH]; intros prev s p' s'.
  - cbn [Re.eat]. rewrite append_empty, prev_after_empty.
    split; [intros [= -> ->]; split; reflexivity | intros [-> ->]; reflexivity].
  - cbn [Re.eat]. rewrite append_cons, prev_after_cons.
    destruct s as [|b s]; [split; [discriminate | intros [[=] _]]|].
    destruct (Ascii.eqb a b) eqn:Eab.
    + apply ascii_eqb_true in Eab. subst b. rewrite IH.
      split; [intros [-> ->]; split; reflexivity | intros [[= ->] ->]; split; reflexivity].
    + apply ascii_eqb_false in Eab.
      split; [discriminate | intros [[= Hab _] _]; congruence].
Qed.

Lemma star_spec cls k : forall s prev,
  Re.star cls prev s k = true <->
  exists w rest,
    s = w +:+ rest /\ all_chars (Re.in_class cls) w = true
    /\ k (prev_after prev w) rest = true.
Proof.
  induction s as [|c s IH]; intros prev; cbn [Re.star].
  - rewrite orb_false_r. split.
    + intros Hk. exists EmptyString, EmptyString. repeat split. exact Hk.
    + intros (w & rest & Hs & _ & Hk).
      destruct w; [|discriminate Hs]. rewrite append_empty in Hs. subst rest.
      exact Hk.
  - rewrite orb_true_iff, andb_true_iff, IH. split.
    + intros [Hk|[Hc (w & rest & -> & Hw & Hk)]].
      * exists EmptyString, (String c s). repeat split. exact Hk.
      * exists (String c w), rest. rewrite append_cons, prev_after_cons.
        cbn [all_chars]. rewrite Hc, Hw. repeat split. exact Hk.
    + intros (w & rest & Hs & Hw & Hk). destruct w as [|d w].
      * left. rewrite append_empty in Hs. subst rest. exact Hk.
      * right. rewrite append_cons in Hs. injection Hs as <- ->.
        cbn [all_chars] in Hw. apply andb_true_iff in Hw as [Hc Hw].
        split; [exact Hc|]. exists w, rest.
        rewrite prev_after_cons in Hk. repeat split; assumption.
Qed.

(** The matcher and the meaning of the patterns agree. *)
Lemma matches_den r : forall prev s k,
  Re.matches r prev s k = true <->
  exists w rest,
    s = w +:+ rest /\ den r prev w rest /\ k (prev_after prev w) rest = true.
Proof.
  induction r as [l|cls|cls|cls| | |r1 IH1 r2 IH2|r1 IH1 r2 IH2|r1 IH1];
    intros prev s k; cbn [Re.matches den].
  - (* literal *)
    split.
    + destruct (Re.eat l prev s) as [[p' s']|] eqn:He; [|discriminate].
      apply eat_spec in He as [-> ->]. intros Hk. exists l, s'. auto.
    + intros (w & rest & -> & -> & Hk).
      assert (He : Re.eat l prev (l +:+ rest) = Some (prev_after prev l, rest))
        by (apply eat_spec; auto).
      rewrite He. exact Hk.
  - (* one character *)
    split.
    + destruct s as [|c s]; [discriminate|]. intros H.
      apply andb_true_iff in H as [Hc Hk].
      exists (String c EmptyString), s. split; [reflexivity|].
      split; [exists c; auto | exact Hk].
    + intros (w & rest & -> & (c & -> & Hc) & Hk).
      rewrite append_cons, append_empty. rewrite Hc. exact Hk.
  - (* star *)
    apply star_spec.
  - (* plus *)
    split.
    + destruct s as [|c s]; [discriminate|]. intros H.
      apply andb_true_iff in H as [Hc Hs].
      apply star_spec in Hs as (w & rest & -> & Hw & Hk).
      exists (String c w), rest. rewrite append_cons, prev_after_cons.
      cbn [all_chars]. rewrite Hc, Hw. repeat split; [discriminate | exact Hk].
    + intros (w & rest & -> & [Hne Hw] & Hk).
      destruct w as [|c w]; [congruence|]. rewrite append_cons.
      cbn [all_chars] in Hw. apply andb_true_iff in Hw as [Hc Hw].
      rewrite Hc. cbn [andb]. apply star_spec. exists w, rest.
      rewrite prev_after_cons in Hk. auto.
  - (* start of the text *)
    split.
    + destruct prev; [discriminate|]. intros Hk.
      exists EmptyString, s. auto.
    + intros (w & rest & -> & [-> ->] & Hk). exact Hk.
  - (* word boundary *)
    rewrite andb_true_iff. split.
    + intros [Hb Hk]. exists EmptyString, s. auto.
    + intros (w & rest & -> & [-> Hb] & Hk). auto.
  - (* sequence *)
    rewrite IH1. split.
    + intros (w1 & rest1 & -> & H1 & H2).
      apply IH2 in H2 as (w2 & rest & -> & H2 & Hk).
      exists (w1 +:+ w2), rest. rewrite append_assoc, prev_after_app.
      split; [reflexivity|]. split; [|exact Hk]. exists w1, w2. auto.
    + intros (w & rest & -> & (w1 & w2 & -> & H1 & H2) & Hk).
      exists w1, (w2 +:+ rest). rewrite append_assoc.
      split; [reflexivity|]. split; [exact H1|].
      apply IH2. exists w2, rest. rewrite prev_after_app in Hk. auto.
  - (* alternative *)
    rewrite orb_true_iff, IH1, IH2. split.
    + intros [(w & rest & ? & ? & ?)|(w & rest & ? & ? & ?)];
        exists w, rest; auto.
    + intros (w & rest & ? & [?|?] & ?); [left|right]; exists w, rest; auto.
  - (* option *)
    rewrite orb_true_iff, IH1. split.
    + intros [(w & rest & ? & ? & ?)|Hk]; [exists w, rest; auto|].
      exists EmptyString, s. auto.
    + intros (w & rest & Hs & [Hd | ->] & Hk); [left; exists w, rest; auto|].
      right. rewrite append_empty in Hs. subst rest. exact Hk.
Qed.

Lemma match_here_den r prev s :
  Re.match_here r prev s = true <->
  exists w rest, s = w +:+ rest /\ den r prev w rest.
Proof.
  unfold Re.match_here. rewrite matches_den. split.
  - intros (w & rest & ? & ? & _). exists w, rest. auto.
  - intros (w & rest & ? & ?). exists w, rest. auto.
Qed.

Lemma search_from_den r : forall s prev,
  Re.search_from r prev s = true <->
  exists pre w rest,
    s = pre +:+ w +:+ rest /\ den r (prev_after prev pre) w rest.
Proof.
  induction s as [|c s IH]; intros prev; cbn [Re.search_from].
  - rewrite orb_false_r, match_here_den. split.
    + intros (w & rest & Hs & Hd). exists EmptyString, w, rest. auto.
    + intros (pre & w & rest & Hs & Hd).
      destruct pre; [|discriminate Hs]. exists w, rest. auto.
  - rewrite orb_true_iff, match_here_den, IH. split.
    + intros [(w & rest & Hs & Hd)|(pre & w & rest & -> & Hd)].
      * exists EmptyString, w, rest. auto.
      * exists (String c pre), w, rest. rewrite prev_after_cons. auto.
    + intros (pre & w & rest & Hs & Hd). destruct pre as [|d pre].
      * left. exists w, rest. auto.
      * right. rewrite append_cons in Hs. injection Hs as <- ->.
        rewrite prev_after_cons in Hd. exists pre, w, rest. auto.
Qed.

(** [re.search]: the pattern matches somewhere in the line. *)
Lemma search_den r line :
  Re.search r line = true <->
  exists pre w rest,
    line = pre +:+ w +:+ rest /\ den r (last_char pre) w rest.
Proof.
  unfold Re.search. rewrite search_from_den.
  split; intros (pre & w & rest & Hs & Hd); exists pre, w, rest;
    [rewrite <- prev_after_none | rewrite prev_after_none]; auto.
Qed.

Lemma startswith_spec p : forall s,
  PyStr.startswith p s = true <-> exists post, s = p +:+ post.
Proof.
  induction p as [|a p IH]; intros s; cbn [PyStr.startswith].
  - split; [intros _; exists s; reflexivity | reflexivity].
  - destruct s as [|b s].
    + split; [discriminate | intros [post H]; discriminate H].
    + rewrite andb_true_iff, IH. split.
      * intros [Hab [post ->]]. apply ascii_eqb_true in Hab. subst b.
        exists post. reflexivity.
      * intros [post H]. rewrite append_cons in H. injection H as -> ->.
        split; [apply Ascii.eqb_refl | exists post; reflexivity].
Qed.

(** [sub in line] *)
Lemma contains_spec sub : forall line,
  PyStr.contains sub line = true <-> is_substring sub line.
Proof.
  unfold is_substring.
  induction line as [|c line IH]; cbn [PyStr.contains].
  - rewrite orb_false_r, startswith_spec. split.
    + intros [post H]. exists EmptyString, post. exact H.
    + intros (pre & post & H). destruct pre; [|discriminate H].
      exists post. exact H.
  - rewrite orb_true_iff, startswith_spec, IH. split.
    + intros [[post H]|(pre & post & ->)].
      * exists EmptyString, post. exact H.
      * exists (String c pre), post. reflexivity.
    + intros (pre & post & H). destruct pre as [|d pre].
      * left. exists post. exact H.
      * right. rewrite append_cons in H. injection H as <- ->.
        exists pre, post. reflexivity.
Qed.

(** ** Definition-like anchors *)

Lemma contains_char c : forall s,
  PyStr.contains (String c EmptyString) s = PyStr.mem_char c s.
Proof.
  induction s as [|b s IH]; [reflexivity|].
  cbn [PyStr.contains PyStr.startswith PyStr.mem_char].
  rewrite IH, andb_true_r. reflexivity.
Qed.

Lemma method_name_is_bare_name sig :
  (if PyStr.contains "." sig then List.last (PyStr.split "." sig) "" else sig)
  = List.last (PyStr.split "." sig) "".
Proof.
  destruct (PyStr.contains "." sig) eqn:Hc; [reflexivity|].
  rewrite contains_char in Hc. rewrite (split_free_line "." sig Hc). reflexivity.
Qed.

Lemma qualifier_den prev w rest : den qualifier prev w rest <-> is_qualifier w.
Proof.
  unfold qualifier, is_qualifier. cbn [den]. split.
  - intros [(w1 & w2 & -> & [-> |[Hne Hw]] & ->)| ->]; [| |left; reflexivity].
    + right. exists "self". repeat split. discriminate.
    + right. exists w1. repeat split; assumption.
  - intros [-> |(w1 & Hne & Hw & ->)]; [right; reflexivity|].
    left. exists w1, ".". split; [reflexivity|]. split; [|reflexivity].
    right. split; assumption.
Qed.

Lemma suffix_den prev w rest :
  den (Re.ROpt (Re.RChar (Re.CSet "?!="))) prev w rest <-> is_name_suffix w.
Proof.
  unfold is_name_suffix. cbn [den Re.in_class PyStr.mem_char]. split.
  - intros [(c & -> & Hc)| ->]; [|left; reflexivity].
    rewrite !orb_true_iff in Hc.
    destruct Hc as [Hc|[Hc|[Hc|Hc]]]; try discriminate Hc;
      apply ascii_eqb_true in Hc; subst c; auto.
  - intros [-> |[-> |[-> | ->]]]; [right; reflexivity| | |]; left;
      eexists; split; reflexivity.
Qed.

(** The head that the two method patterns share: [def] at a word
    boundary, white space, an optional qualifier. *)
Lemma def_head_den X prev w rest :
  den (Re.RSeq Re.RWordB (Re.RSeq (Re.RLit "def")
         (Re.RSeq (Re.RPlus Re.CSpace) (Re.RSeq qualifier X)))) prev w rest
  <->
  Re.word_before prev = false
  /\ exists ws qual x,
       w = "def" +:+ ws +:+ qual +:+ x
       /\ ws <> ""
       /\ all_chars PyStr.isspace ws = true
       /\ is_qualifier qual
       /\ den X (prev_after prev ("def" +:+ ws +:+ qual)) x rest.
Proof.
  cbn [den]. split.
  - intros (w0 & w1 & -> & [-> Hb] & wd & w2 & -> & -> & ws & w3 & ->
            & [Hne Hws] & qual & x & -> & Hq & Hx).
    apply qualifier_den in Hq. split.
    + unfold Re.at_boundary in Hb. cbn in Hb.
      destruct (Re.word_before prev); [discriminate Hb | reflexivity].
    + exists ws, qual, x. rewrite append_empty. split; [reflexivity|].
      repeat split; try assumption.
      rewrite prev_after_empty in Hx.
      rewrite <- !prev_after_app in Hx. rewrite <- append_assoc in Hx.
      rewrite (append_assoc "def" ws qual) in Hx. exact Hx.
  - intros (Hb & ws & qual & x & -> & Hne & Hws & Hq & Hx).
    exists "", ("def" +:+ ws +:+ qual +:+ x). split; [reflexivity|]. split.
    { split; [reflexivity|]. unfold Re.at_boundary. cbn. rewrite Hb. reflexivity. }
    exists "def", (ws +:+ qual +:+ x). split; [reflexivity|].
    split; [reflexivity|].
    exists ws, (qual +:+ x). split; [reflexivity|]. split; [split; assumption|].
    exists qual, x. split; [reflexivity|].
    split; [apply qualifier_den; exact Hq|].
    rewrite prev_after_empty. rewrite <- !prev_after_app.
    rewrite <- append_assoc. rewrite (append_assoc "def" ws qual). exact Hx.
Qed.

Lemma search_def_pattern name line :
  Re.search (def_pattern name) line = true <-> contains_definition name line.
Proof.
  rewrite search_den. unfold contains_definition, def_pattern.
  cbn [Re.seq]. split.
  - intros (pre & w & rest & -> & Hd).
    apply def_head_den in Hd as (Hb & ws & qual & x & -> & Hne & Hws & Hq & Hx).
    cbn [den] in Hx. destruct Hx as (n & suffix & -> & -> & Hs).
    apply (proj1 (suffix_den None suffix EmptyString)) in Hs.
    exists pre, ws, qual, suffix, rest. repeat split; assumption.
  - intros (pre & ws & qual & suffix & rest & -> & Hb & Hne & Hws & Hq & Hs).
    exists pre, ("def" +:+ ws +:+ qual +:+ name +:+ suffix), rest.
    split; [reflexivity|]. apply def_head_den. split; [exact Hb|].
    exists ws, qual, (name +:+ suffix). repeat split; try assumption.
    cbn [den]. exists name, suffix. split; [reflexivity|].
    split; [reflexivity|].
    apply (proj2 (suffix_den None suffix EmptyString)). exact Hs.
Qed.

Lemma search_def_index_pattern line :
  Re.search def_index_pattern line = true <-> contains_definition "[]" line.
Proof.
  rewrite search_den. unfold contains_definition, def_index_pattern.
  cbn [Re.seq]. split.
  - intros (pre & w & rest & -> & Hd).
    apply def_head_den in Hd as (Hb & ws & qual & x & -> & Hne & Hws & Hq & Hx).
    cbn [den] in Hx. subst x.
    exists pre, ws, qual, "", rest. repeat split; try assumption.
    left. reflexivity.
  - intros (pre & ws & qual & suffix & rest & -> & Hb & Hne & Hws & Hq & Hs).
    exists pre, ("def" +:+ ws +:+ qual +:+ "[]"), (suffix +:+ rest). split.
    + f_equal. rewrite !append_assoc. reflexivity.
    + apply def_head_den. split; [exact Hb|].
      exists ws, qual, "[]". repeat split; assumption.
Qed.

Lemma def_anchor_is_not_declaration s :
  PyStr.startswith "def " s = true ->
  PyStr.startswith "class " s || PyStr.startswith "module " s = false.
Proof.
  destruct s as [|c s]; [discriminate|]. cbn [PyStr.startswith].
  intros H. apply andb_true_iff in H as [Hc _].
  apply ascii_eqb_true in Hc. subst c. reflexivity.
Qed.

(** The method branch of [soft_match_anchor]. *)
Lemma soft_match_def (E : raw_search) (anchor line : string) :
  PyStr.startswith "def " (PyStr.strip anchor) = true ->
  soft_match_anchor E anchor line
  = Some ((if String.eqb (bare_name anchor) "[]"
           then Re.search def_index_pattern line
           else Re.search (def_pattern (bare_name anchor)) line)
          || PyStr.contains ("def " +:+ method_sig anchor) line).
Proof.
  intros Hdef. unfold soft_match_anchor.
  rewrite (def_anchor_is_not_declaration _ Hdef), Hdef.
  fold (method_sig anchor). rewrite method_name_is_bare_name.
  fold (bare_name anchor).
  destruct (String.eqb (bare_name anchor) "[]").
  - destruct (Re.search def_index_pattern line); [reflexivity|].
    destruct (PyStr.contains _ line); reflexivity.
  - destruct (Re.search (def_pattern (bare_name anchor)) line); [reflexivity|].
    destruct (PyStr.contains _ line); reflexivity.
Qed.

(** A line that defines the method has the text that the pattern looks
    for. *)
Lemma defines_method_contains name line :
  defines_method name line -> contains_definition name line.
Proof.
  intros (pre & ws & qual & rest & -> & Hb & Hne & Hws & Hq & _).
  exists pre, ws, qual, "", rest. rewrite append_empty_r.
  repeat split; try assumption. left. reflexivity.
Qed.

Lemma length_append (a b : string) :
  String.length (a +:+ b) = String.length a + String.length b.
Proof.
  induction a as [|c a IH]; [rewrite append_empty; reflexivity|].
  rewrite append_cons. cbn [String.length]. rewrite IH. reflexivity.
Qed.

Lemma drop_length_append (a b : string) :
  PyStr.drop (String.length a) (a +:+ b) = b.
Proof. induction a as [|c a IH]; [destruct b; reflexivity | exact IH]. Qed.

(** A line that defines the method has the name somewhere, ended. *)
Lemma defines_method_occurs name line :
  defines_method name line -> occurs_ended name line = true.
Proof.
  intros (pre & ws & qual & rest & -> & _ & _ & _ & _ & Hend).
  set (A := pre +:+ "def" +:+ ws +:+ qual).
  assert (Hline : pre +:+ ("def" +:+ ws +:+ qual +:+ name) +:+ rest
                  = A +:+ name +:+ rest).
  { unfold A. rewrite !append_assoc. reflexivity. }
  rewrite Hline. unfold occurs_ended. apply existsb_exists.
  exists (String.length A). split.
  - apply in_seq. rewrite length_append. lia.
  - apply andb_true_iff. split.
    + rewrite drop_length_append. apply startswith_spec. eauto.
    + rewrite <- length_append, <- append_assoc, drop_length_append.
      exact Hend.
Qed.

(** C7.  For an anchor that, once trimmed, starts with [def] and a space,
    the soft match on a line never fails, and it succeeds exactly when the
    line contains the head of a definition of the bare method name of the
    anchor (the word [def], white space, an optional receiver qualifier
    made of a word and a dot, the name, an optional [?], [!] or [=];
    nothing is asked of what follows), or contains [def], a space and the
    signature of the anchor as a substring.  A line that defines the method
    of that very name is such a line: on it the soft match succeeds. *)
Theorem definition_soft_match (E : raw_search) (anchor line : string) :
  PyStr.startswith "def " (PyStr.strip anchor) = true ->
  (exists b, soft_match_anchor E anchor line = Some b)
  /\ (soft_match_anchor E anchor line = Some true
      <-> contains_definition (bare_name anchor) line
          \/ is_substring ("def " +:+ method_sig anchor) line)
  /\ (defines_method (bare_name anchor) line ->
      soft_match_anchor E anchor line = Some true).
Proof.
  intros Hdef. rewrite (soft_match_def E anchor line Hdef).
  split; [eexists; reflexivity|].
  rewrite <- contains_spec.
  assert (Hre : (if String.eqb (bare_name anchor) "[]"
                 then Re.search def_index_pattern line
                 else Re.search (def_pattern (bare_name anchor)) line) = true
                <-> contains_definition (bare_name anchor) line).
  { destruct (String.eqb (bare_name anchor) "[]") eqn:Hn.
    - apply String.eqb_eq in Hn. rewrite Hn. apply search_def_index_pattern.
    - apply search_def_pattern. }
  assert (Hiff : Some ((if String.eqb (bare_name anchor) "[]"
                        then Re.search def_index_pattern line
                        else Re.search (def_pattern (bare_name anchor)) line)
                       || PyStr.contains ("def " +:+ method_sig anchor) line)
                 = Some true
                 <-> contains_definition (bare_name anchor) line
                     \/ PyStr.contains ("def " +:+ method_sig anchor) line = true).
  { rewrite <- Hre. split.
    - intros [= H]. apply orb_true_iff in H. exact H.
    - intros H. f_equal. apply orb_true_iff. exact H. }
  split; [exact Hiff|].
  intros Hm. apply Hiff. left. apply defines_method_contains, Hm.
Qed.

Lemma definition_soft_match_witness :
  soft_match_anchor no_raw_patterns "def self.ready?" "  def Game.ready?(x)"
  = Some true
  /\ contains_definition "ready?" "  def Game.ready?(x)".
Proof.
  destruct (definition_soft_match no_raw_patterns "def self.ready?"
              "  def Game.ready?(x)" eq_refl) as (_ & Hiff & Hstrict).
  assert (Hm : defines_method "ready?" "  def Game.ready?(x)").
  { exists "  ", " ", "Game.", "(x)". repeat split; try reflexivity.
    - discriminate.
    - right. exists "Game". repeat split. discriminate. }
  split; [exact (Hstrict Hm) | apply defines_method_contains, Hm].
Defined.

(** C7, as first worded, fails from right to left of the code: the anchor
    [def self.foo], whose bare name is [foo], matches softly a line that
    defines [foobar] and a line that defines [foo=]; neither line defines
    [foo], and neither has the signature [self.foo] of the anchor in it. *)
Lemma definition_soft_match_longer_name :
  bare_name "def self.foo" = "foo"
  /\ method_sig "def self.foo" = "self.foo"
  /\ soft_match_anchor no_raw_patterns "def self.foo" "  def Game.foobar(x)"
     = Some true
  /\ ~ defines_method "foo" "  def Game.foobar(x)"
  /\ ~ is_substring "self.foo" "  def Game.foobar(x)"
  /\ soft_match_anchor no_raw_patterns "def self.foo" "def Game.foo=(v)"
     = Some true
  /\ ~ defines_method "foo" "def Game.foo=(v)"
  /\ ~ is_substring "self.foo" "def Game.foo=(v)".
Proof.
  repeat split; try (vm_compute; reflexivity).
  - intros H. apply defines_method_occurs in H. vm_compute in H. discriminate H.
  - intros H. apply contains_spec in H. vm_compute in H. discriminate H.
  - intros H. apply defines_method_occurs in H. vm_compute in H. discriminate H.
  - intros H. apply contains_spec in H. vm_compute in H. discriminate H.
Qed.

(** ** Content-hash manifest *)

Section Manifest.

Variable self : generator.
Variable w : world.
Variable now : string.
Variable file_path : Path.

Lemma save_manifest_manifest g : manifest (save_manifest g w) = manifest g.
Proof. unfold save_manifest. case_bool_decide; reflexivity. Qed.

(** [mark_file_processed] changes the manifest and the saved copy only. *)
Lemma mark_keeps_settings success content :
  let self' := mark_file_processed self w now file_path success content in
  provider_name self' = provider_name self
  /\ incremental self' = incremental self
  /\ output_structure self' = output_structure self
  /\ source_root self' = source_root self
  /\ output_dir self' = output_dir self.
Proof.
  cbn zeta. unfold mark_file_processed, save_manifest.
  case_bool_decide; cbn; repeat split.
Qed.

Lemma mark_success_manifest content :
  manifest (mark_file_processed self w now file_path true content)
  = Manifest
      (Some (<[path_str file_path :=
                 ManifestEntry now (provider_name self)
                   (match content with
                    | Some (String c r) => Some (compute_code_hash (String c r))
                    | _ => compute_code_hash <$> read_text w file_path
                    end)
                   (path_name file_path)]>
               (default ∅ (processed_files (manifest self)))))
      (failed_files (manifest self)).
Proof.
  unfold mark_file_processed. rewrite save_manifest_manifest. reflexivity.
Qed.

Lemma mark_failure_manifest content :
  manifest (mark_file_processed self w now file_path false content)
  = Manifest
      (processed_files (manifest self))
      (Some (let failed := default [] (failed_files (manifest self)) in
             if bool_decide (path_str file_path ∈ failed) then failed
             else failed ++ [path_str file_path])).
Proof.
  unfold mark_file_processed. rewrite save_manifest_manifest. reflexivity.
Qed.

End Manifest.

(** C10.  Frame property of [mark_file_processed].  With [success] true
    the list of failed files is as before (so a path that is in it stays in
    it) and the entries of the other paths are as before; with [success]
    false the processed files are as before and the list of failed files is
    the old one, with the path added at its end when it was not in it. *)
Theorem manifest_frame (self : generator) (w : world) (now : string)
  (file_path : Path) (content : option string) :
  let ok := mark_file_processed self w now file_path true content in
  let ko := mark_file_processed self w now file_path false content in
  let failed := default [] (failed_files (manifest self)) in
  failed_files (manifest ok) = failed_files (manifest self)
  /\ (forall key,
        key <> path_str file_path ->
        default ∅ (processed_files (manifest ok)) !! key
        = default ∅ (processed_files (manifest self)) !! key)
  /\ (path_str file_path ∈ failed ->
      path_str file_path ∈ default [] (failed_files (manifest ok)))
  /\ processed_files (manifest ko) = processed_files (manifest self)
  /\ failed_files (manifest ko)
     = Some (if bool_decide (path_str file_path ∈ failed) then failed
             else failed ++ [path_str file_path])
  /\ (forall key,
        key <> path_str file_path ->
        (key ∈ default [] (failed_files (manifest ko)) <-> key ∈ failed)).
Proof.
  cbn zeta. rewrite mark_success_manifest, mark_failure_manifest.
  cbn [failed_files processed_files from_option].
  split; [reflexivity|].
  split; [intros key Hne; apply lookup_insert_ne; congruence|].
  split; [auto|].
  split; [reflexivity|].
  split; [reflexivity|].
  intros key Hne. case_bool_decide; [reflexivity|]. unfold id.
  rewrite elem_of_app, list_elem_of_singleton. tauto.
Qed.

Lemma manifest_frame_witness :
  failed_files
    (manifest (mark_file_processed example_generator example_world "t1" a_rb
                                   true None))
  = Some ["lib/a.rb"]
  /\ failed_files
       (manifest (mark_file_processed example_generator example_world "t1"
                                      a_rb false None))
     = Some ["lib/a.rb"].
Proof.
  destruct (manifest_frame example_generator example_world "t1" a_rb None)
    as (Hok & _ & _ & _ & Hko & _).
  split; [exact Hok | exact Hko].
Defined.

(** ** Incremental skip *)

Lemma resolve_join_relative (w : world) (base : Path) (ps : list string) :
  resolve w (path_join base (MkPath false ps)) = resolve w base ++ ps.
Proof.
  unfold path_join, resolve. cbn.
  destruct (absolute base); [reflexivity | apply app_assoc].
Qed.

Lemma resolve_documented_path (self : generator) (w : world) (base : Path)
  (file_path : Path) :
  resolve w (documented_path self w base file_path)
  = resolve w base ++ documented_suffix self w file_path.
Proof.
  unfold documented_path, documented_suffix, relative_to.
  pose proof (resolve_join_relative w base) as Hrel.
  destruct (String.eqb (output_structure self) "mirror");
    [|apply (Hrel [path_name file_path])].
  destruct (source_root self) as [root|]; [|apply (Hrel [path_name file_path])].
  destruct (strip_prefix (resolve w root) (resolve w file_path)) as [ps|];
    [apply (Hrel ps) | apply (Hrel [path_name file_path])].
Qed.

Lemma write_text_inv (w : world) (p : Path) (text : string) (w' : world) :
  write_text w p text = Some w' ->
  cwd w' = cwd w /\ files w' = <[resolve w p := text]> (files w).
Proof.
  unfold write_text. case_bool_decide; [discriminate|].
  intros [= <-]. split; reflexivity.
Qed.

Lemma resolve_same_cwd (w w' : world) (p : Path) :
  cwd w' = cwd w -> resolve w' p = resolve w p.
Proof. intros H. unfold resolve. rewrite H. reflexivity. Qed.

Lemma documented_path_same (self self' : generator) (w w' : world)
  (base file_path : Path) :
  cwd w' = cwd w ->
  output_structure self' = output_structure self ->
  source_root self' = source_root self ->
  documented_path self' w' base file_path
  = documented_path self w base file_path.
Proof.
  intros Hc Hs Hr. unfold documented_path.
  rewrite Hs, Hr. destruct (String.eqb (output_structure self) "mirror");
    [|reflexivity].
  destruct (source_root self) as [root|]; [|reflexivity].
  rewrite !(resolve_same_cwd w w' _ Hc). reflexivity.
Qed.

(** A successful [_process_single_file]: the text was written and the file
    marked as processed. *)
Lemma process_single_file_success (self : generator) (w : world) (now : string)
  (file_path : Path) (result : option string) (self1 : generator) (w1 : world) :
  _process_single_file self w now file_path result = (true, self1, w1) ->
  exists doc,
    result = Some doc
    /\ write_text w (get_output_file_path self w file_path) doc = Some w1
    /\ self1 = mark_file_processed self w1 now file_path true None.
Proof.
  unfold _process_single_file.
  destruct result as [[|c r]|]; [discriminate| |discriminate].
  destruct (write_text w (get_output_file_path self w file_path) (String c r))
    as [w'|] eqn:Hw; [|discriminate].
  intros [= <- <-]. exists (String c r). auto.
Qed.

(** After a file was marked as processed with success, [is_file_processed]
    only asks whether its documented copy is below the working directory. *)
Lemma is_processed_after_mark (self : generator) (w : world) (now : string)
  (file_path : Path) (content : string) :
  incremental self = true ->
  read_text w file_path = Some content ->
  let self1 := mark_file_processed self w now file_path true None in
  is_file_processed self1 w file_path
  = path_exists w (documented_path self1 w (rel "documented") file_path).
Proof.
  intros Hinc Hread self1. unfold is_file_processed.
  destruct (mark_keeps_settings self w now file_path true None)
    as (_ & Hi & _). fold self1 in Hi. rewrite Hi, Hinc. cbn [negb].
  unfold self1 at 1. rewrite mark_success_manifest.
  cbn [processed_files from_option]. unfold id at 1.
  rewrite lookup_insert_eq.
  destruct (path_exists w (documented_path self1 w (rel "documented") file_path));
    [|reflexivity].
  cbn [negb]. rewrite Hread. cbn [content_hash fmap option_fmap option_map].
  rewrite bool_decide_eq_true_2; reflexivity.
Qed.

Lemma is_processed_changed (self : generator) (w w2 : world) (now : string)
  (file_path : Path) (content content' : string) :
  read_text w file_path = Some content ->
  read_text w2 file_path = Some content' ->
  compute_code_hash content' <> compute_code_hash content ->
  is_file_processed (mark_file_processed self w now file_path true None)
                    w2 file_path = false.
Proof.
  intros Hread Hread' Hne. unfold is_file_processed.
  destruct (negb _); [reflexivity|].
  rewrite mark_success_manifest.
  cbn [processed_files from_option]. unfold id at 1.
  rewrite lookup_insert_eq.
  destruct (negb _); [reflexivity|].
  rewrite Hread', Hread. cbn [content_hash fmap option_fmap option_map].
  rewrite bool_decide_eq_false_2; [reflexivity|]. congruence.
Qed.

(** The text that is hashed changes when a code line is changed. *)
Lemma code_content_of_lines (ls : list string) :
  ls <> [] -> Forall (free_of PyStr.nl) ls ->
  code_content (text_of ls) = text_of (List.filter is_code_line ls).
Proof.
  intros Hne Hall. unfold code_content, text_of, newline.
  rewrite split_join; auto.
Qed.

Lemma text_of_inj (a b : list string) :
  a <> [] -> b <> [] ->
  Forall (free_of PyStr.nl) a -> Forall (free_of PyStr.nl) b ->
  text_of a = text_of b -> a = b.
Proof.
  intros Ha Hb Hfa Hfb Heq. unfold text_of, newline in Heq.
  rewrite <- (split_join PyStr.nl a Ha Hfa), <- (split_join PyStr.nl b Hb Hfb).
  rewrite Heq. reflexivity.
Qed.

Lemma Forall_filter_free (ls : list string) :
  Forall (free_of PyStr.nl) ls ->
  Forall (free_of PyStr.nl) (List.filter is_code_line ls).
Proof.
  intros H. apply List.Forall_forall. intros x Hx.
  apply List.filter_In in Hx as [Hx _].
  rewrite List.Forall_forall in H. auto.
Qed.

Lemma code_line_change (content : string) (i : nat) (l l' : string) :
  PyStr.split PyStr.nl content !! i = Some l ->
  is_code_line l = true ->
  is_code_line l' = true ->
  free_of PyStr.nl l' ->
  l <> l' ->
  code_content (text_of (<[i := l']> (PyStr.split PyStr.nl content)))
  <> code_content content.
Proof.
  intros Hl Hc Hc' Hfree Hne.
  set (ls := PyStr.split PyStr.nl content) in *.
  assert (Hfls : Forall (free_of PyStr.nl) ls) by apply split_free.
  pose proof (take_drop_middle ls i l Hl) as Hmid.
  assert (Hins : <[i := l']> ls = take i ls ++ l' :: drop (S i) ls).
  { apply insert_take_drop. eapply lookup_lt_Some, Hl. }
  assert (Hf : Forall (free_of PyStr.nl) (take i ls)
               /\ Forall (free_of PyStr.nl) (drop (S i) ls)).
  { rewrite <- Hmid in Hfls. apply Forall_app in Hfls as [H1 H2].
    inversion H2; subst. split; assumption. }
  destruct Hf as [Hft Hfd].
  assert (Hfins : Forall (free_of PyStr.nl) (<[i := l']> ls)).
  { rewrite Hins. apply Forall_app. split; [exact Hft|].
    constructor; assumption. }
  rewrite code_content_of_lines; [|rewrite Hins; destruct (take i ls); discriminate|exact Hfins].
  unfold code_content. fold ls. fold newline.
  fold (text_of (List.filter is_code_line ls)).
  assert (Hnew : List.filter is_code_line (<[i := l']> ls)
                 = List.filter is_code_line (take i ls)
                   ++ l' :: List.filter is_code_line (drop (S i) ls)).
  { rewrite Hins, List.filter_app. cbn [List.filter]. rewrite Hc'. reflexivity. }
  assert (Hold : List.filter is_code_line ls
                 = List.filter is_code_line (take i ls)
                   ++ l :: List.filter is_code_line (drop (S i) ls)).
  { rewrite <- Hmid at 1. rewrite List.filter_app. cbn [List.filter].
    rewrite Hc. reflexivity. }
  rewrite Hnew, Hold.
  intros Heq. apply text_of_inj in Heq.
  - apply app_inv_head in Heq. congruence.
  - destruct (List.filter is_code_line (take i ls)); discriminate.
  - destruct (List.filter is_code_line (take i ls)); discriminate.
  - apply Forall_app. split; [apply Forall_filter_free, Hft|].
    constructor; [exact Hfree | apply Forall_filter_free, Hfd].
  - apply Forall_app. split; [apply Forall_filter_free, Hft|].
    constructor; [|apply Forall_filter_free, Hfd].
    rewrite <- Hmid in Hfls. apply Forall_app in Hfls as [_ H2].
    inversion H2; subst. assumption.
Qed.

(** C1 (as amended).  After [_process_single_file] has written the
    documented text of a file and marked it as processed, in incremental
    mode and with the file still readable: [is_file_processed] is true
    exactly when the documented copy of the file exists below the
    [documented] directory of the working directory, which is the case when
    the output directory is the working directory; it is false on any later
    content whose code hash differs from the one recorded; and a change of
    one code line into another code line changes the text that is hashed. *)
Theorem incremental_skip (self : generator) (w : world) (now : string)
  (file_path : Path) (doc : string) (self1 : generator) (w1 : world)
  (content : string) :
  incremental self = true ->
  _process_single_file self w now file_path (Some doc) = (true, self1, w1) ->
  read_text w1 file_path = Some content ->
  is_file_processed self1 w1 file_path
  = path_exists w1 (documented_path self1 w1 (rel "documented") file_path)
  /\ (resolve w (output_dir self) = cwd w ->
      is_file_processed self1 w1 file_path = true)
  /\ (forall w2 content',
        read_text w2 file_path = Some content' ->
        compute_code_hash content' <> compute_code_hash content ->
        is_file_processed self1 w2 file_path = false)
  /\ (forall i l l',
        PyStr.split PyStr.nl content !! i = Some l ->
        is_code_line l = true ->
        is_code_line l' = true ->
        free_of PyStr.nl l' ->
        l <> l' ->
        code_content (text_of (<[i := l']> (PyStr.split PyStr.nl content)))
        <> code_content content).
Proof.
  intros Hinc Hrun Hread.
  apply process_single_file_success in Hrun as (doc' & [= <-] & Hwrite & ->).
  pose proof (is_processed_after_mark self w1 now file_path content Hinc Hread)
    as Hafter. cbn zeta in Hafter.
  split; [exact Hafter|]. split; [|split].
  - intros Hout. rewrite Hafter.
    apply write_text_inv in Hwrite as [Hcwd Hfiles].
    destruct (mark_keeps_settings self w1 now file_path true None)
      as (_ & _ & Hs & Hr & _).
    unfold path_exists. apply bool_decide_eq_true_2.
    rewrite resolve_documented_path.
    rewrite (documented_path_same self _ w1 w1 _ _ eq_refl Hs Hr) in *.
    clear Hafter.
    assert (Hsuffix : documented_suffix
                        (mark_file_processed self w1 now file_path true None)
                        w1 file_path
                      = documented_suffix self w file_path).
    { unfold documented_suffix. rewrite Hs, Hr.
      destruct (String.eqb (output_structure self) "mirror"); [|reflexivity].
      destruct (source_root self); [|reflexivity].
      rewrite !(resolve_same_cwd w w1 _ Hcwd). reflexivity. }
    rewrite Hsuffix, Hfiles.
    assert (Hsame : resolve w1 (rel "documented") ++ documented_suffix self w file_path
                    = resolve w (get_output_file_path self w file_path)).
    { unfold get_output_file_path. rewrite resolve_documented_path.
      f_equal. unfold rel. rewrite resolve_join_relative, Hout.
      unfold resolve. cbn. rewrite Hcwd. reflexivity. }
    rewrite Hsame, lookup_insert_eq. eauto.
  - intros w2 content' Hread' Hne.
    eapply is_processed_changed; eassumption.
  - intros i l l'. apply code_line_change.
Qed.

Lemma incremental_skip_witness :
  let r := _process_single_file cwd_generator example_world "t1" a_rb
                                (Some documented_a_rb) in
  is_file_processed r.1.2 r.2 a_rb = true
  /\ is_file_processed r.1.2 edited_world a_rb = false.
Proof.
  cbn zeta.
  set (r := _process_single_file cwd_generator example_world "t1" a_rb
                                 (Some documented_a_rb)).
  assert (Hrun : r = (true, r.1.2, r.2)) by (vm_compute; reflexivity).
  assert (Hread : read_text r.2 a_rb = Some (text_of ["def foo"; "end"]))
    by (vm_compute; reflexivity).
  destruct (incremental_skip cwd_generator example_world "t1" a_rb
              documented_a_rb r.1.2 r.2 (text_of ["def foo"; "end"])
              eq_refl Hrun Hread) as (_ & Hsame & Hchanged & _).
  split.
  - apply Hsame. reflexivity.
  - apply (Hchanged edited_world (text_of ["def foo"; "  1"; "end"])).
    + vm_compute. reflexivity.
    + vm_compute. congruence.
Defined.

(** C1 as stated fails with the output directory [output/latest]: the file
    is processed, its hash recorded and its documented text written below
    [output/latest/documented], and [is_file_processed] is false on the
    unchanged file, for want of [documented/a.rb] in the working
    directory. *)
Lemma incremental_skip_output_dir :
  let r := _process_single_file example_generator example_world "t1" a_rb
                                (Some documented_a_rb) in
  r.1.1 = true
  /\ files r.2 !! ["repo"; "output"; "latest"; "documented"; "a.rb"]
     = Some documented_a_rb
  /\ read_text r.2 a_rb = read_text example_world a_rb
  /\ content_hash
       <$> (default ∅ (processed_files (manifest r.1.2)) !! "lib/a.rb")
     = Some (Some (compute_code_hash (text_of ["def foo"; "end"])))
  /\ is_file_processed r.1.2 r.2 a_rb = false.
Proof. vm_compute. repeat split. Qed.

(* ===================================================================== *)
(** * Further properties *)
(* ===================================================================== *)

(** ** What a pass of [insert_comments] keeps *)

Lemma output_lines (E : raw_search) (original_content : string)
  (comments : list directive) :
  PyStr.split PyStr.nl (insert_comments E original_content comments)
  = lines (fst (insert_loop E (initial_buffer original_content)
                            (sorted_comments comments))).
Proof.
  unfold insert_comments. destruct comments as [|c cs]; [reflexivity|].
  pose proof (outcomes_steps E original_content (c :: cs)) as Hloop.
  pose proof (loop_steps_length _ _ _ _ _ Hloop) as Hlen.
  pose proof (loop_steps_free _ _ _ _ _ Hloop
                (initial_lines_free original_content)) as Hfree.
  unfold newline. apply split_join; [|exact Hfree].
  intros Hnil. rewrite Hnil in Hlen. cbn [length initial_buffer lines] in Hlen.
  pose proof (split_not_nil PyStr.nl original_content) as Hne.
  destruct (PyStr.split PyStr.nl original_content); [congruence|].
  cbn [length] in Hlen. lia.
Qed.

Lemma entry_step_sublist (E : raw_search) st entry o st' :
  entry_step E st entry o st' -> lines st `sublist_of` lines st'.
Proof.
  intros H. destruct H as [| | | |idx h al Hv Hd Hr Hl]; try reflexivity.
  cbn [lines]. rewrite <- (take_drop idx (lines st)) at 1.
  apply sublist_app; [reflexivity|]. apply sublist_inserts_l. reflexivity.
Qed.

Lemma loop_steps_sublist (E : raw_search) st entries os st' :
  loop_steps E st entries os st' -> lines st `sublist_of` lines st'.
Proof.
  induction 1 as [st|st entry rest o st1 os st2 Hstep Hloop IH]; [reflexivity|].
  etransitivity; [eapply entry_step_sublist, Hstep | exact IH].
Qed.

(** X6.  No line of the original file is lost, changed or moved past
    another: the lines of the original are the lines of the result with
    some lines left out. *)
Theorem original_lines_kept (E : raw_search) (original_content : string)
  (comments : list directive) :
  PyStr.split PyStr.nl original_content
  `sublist_of`
  PyStr.split PyStr.nl (insert_comments E original_content comments).
Proof.
  rewrite output_lines.
  apply (loop_steps_sublist E (initial_buffer original_content) _ _ _
           (outcomes_steps E original_content comments)).
Qed.

Lemma loop_steps_nothing_inserted (E : raw_search) st entries os st' :
  loop_steps E st entries os st' ->
  select_inserted entries os = [] -> st' = st.
Proof.
  induction 1 as [st|st entry rest o st1 os st2 Hstep Hloop IH]; [reflexivity|].
  cbn [select_inserted]. destruct (is_inserted o) eqn:Ho; [discriminate|].
  intros Hnone. rewrite (IH Hnone). eapply step_not_inserted; eassumption.
Qed.

(** X7.  When no entry is applied, the result is the original text, byte
    for byte. *)
Theorem nothing_applied_unchanged (E : raw_search) (original_content : string)
  (comments : list directive) :
  applied E original_content comments = [] ->
  insert_comments E original_content comments = original_content.
Proof.
  intros Hnone. unfold insert_comments.
  destruct comments as [|c cs]; [reflexivity|].
  rewrite (loop_steps_nothing_inserted E _ _ _ _
             (outcomes_steps E original_content (c :: cs)) Hnone).
  apply join_split.
Qed.

Lemma nothing_applied_unchanged_witness :
  insert_comments no_raw_patterns (text_of ["class A"; "end"])
    [Directive 0 "class A" 0 "# no line"; Directive 1 "def foo" 0 "# absent";
     Directive 1 "class A" 0 " "]
  = text_of ["class A"; "end"].
Proof.
  apply (nothing_applied_unchanged no_raw_patterns). vm_compute. reflexivity.
Defined.

Lemma insert_sorted_perm (x : directive) (l : list directive) :
  insert_sorted x l ≡ₚ x :: l.
Proof.
  induction l as [|y l IH]; [reflexivity|]. cbn [insert_sorted].
  destruct (line_number y <=? line_number x)%Z; [reflexivity|].
  rewrite IH. apply Permutation_swap.
Qed.

Lemma sorted_comments_perm (comments : list directive) :
  sorted_comments comments ≡ₚ comments.
Proof.
  induction comments as [|c cs IH]; [reflexivity|].
  unfold sorted_comments. cbn [foldr]. rewrite insert_sorted_perm.
  constructor. exact IH.
Qed.

Lemma select_inserted_valid (E : raw_search) st entries os st' :
  loop_steps E st entries os st' ->
  forall d, d ∈ select_inserted entries os -> d ∈ entries /\ valid_entry d.
Proof.
  induction 1 as [st|st entry rest o st1 os st2 Hstep Hloop IH];
    intros d Hd; [by apply elem_of_nil in Hd|].
  cbn [select_inserted] in Hd.
  destruct (is_inserted o) eqn:Ho.
  - apply elem_of_cons in Hd as [->|Hd].
    + split; [apply elem_of_cons; left; reflexivity|].
      apply (step_inserted_iff E _ _ _ _ Hstep) in Ho as [Hv _]. exact Hv.
    + destruct (IH d Hd) as [Hin Hv]. split; [|exact Hv].
      apply elem_of_cons. right. exact Hin.
  - destruct (IH d Hd) as [Hin Hv]. split; [|exact Hv].
    apply elem_of_cons. right. exact Hin.
Qed.

Lemma select_inserted_length (entries : list directive) : forall os,
  length (select_inserted entries os) <= length entries.
Proof.
  induction entries as [|d ds IH]; intros os; [cbn; lia|].
  destruct os as [|o os]; cbn [select_inserted]; [cbn; lia|].
  specialize (IH os). destruct (is_inserted o); cbn [length]; lia.
Qed.

(** X8.  An entry whose block is inserted is one of the entries given, has
    a line number other than zero and an anchor and a comment that are not
    blank; there are no more inserted blocks than entries. *)
Theorem applied_entries_are_valid (E : raw_search) (original_content : string)
  (comments : list directive) :
  (forall d, d ∈ applied E original_content comments ->
             d ∈ comments /\ valid_entry d)
  /\ length (applied E original_content comments) <= length comments.
Proof.
  split.
  - intros d Hd. unfold applied in Hd.
    destruct (select_inserted_valid E _ _ _ _
                (outcomes_steps E original_content comments) d Hd) as [Hin Hv].
    split; [|exact Hv]. rewrite <- (sorted_comments_perm comments). exact Hin.
  - unfold applied. etransitivity; [apply select_inserted_length|].
    rewrite (Permutation_length (sorted_comments_perm comments)). reflexivity.
Qed.

Lemma applied_entries_are_valid_witness :
  forallb (fun d => negb (Z.eqb (line_number d) 0))
          (applied no_raw_patterns (text_of ["class A"; "end"])
                   [Directive 0 "class A" 0 "# zero"; Directive 1 "class A" 0 "# one"])
  = true.
Proof.
  destruct (applied_entries_are_valid no_raw_patterns (text_of ["class A"; "end"])
              [Directive 0 "class A" 0 "# zero"; Directive 1 "class A" 0 "# one"])
    as [Hvalid _].
  apply forallb_forall. intros d Hd.
  apply list_elem_of_In in Hd. destruct (Hvalid d Hd) as [_ (Hl & _)].
  apply negb_true_iff, Z.eqb_neq. exact Hl.
Defined.

(** ** The order of the entries *)

Lemma insert_sorted_elem (x y : directive) (l : list directive) :
  y ∈ insert_sorted x l <-> y = x \/ y ∈ l.
Proof. rewrite (insert_sorted_perm x l), elem_of_cons. reflexivity. Qed.

Lemma insert_sorted_sorted (x : directive) (l : list directive) :
  StronglySorted descending l -> StronglySorted descending (insert_sorted x l).
Proof.
  induction 1 as [|y l Hs IH Hall]; cbn [insert_sorted].
  - repeat constructor.
  - destruct (line_number y <=? line_number x)%Z eqn:Hle.
    + apply Z.leb_le in Hle. constructor; [constructor; assumption|].
      constructor; [exact Hle|].
      eapply Forall_impl; [exact Hall|]. unfold descending. intros z Hz. lia.
    + apply Z.leb_gt in Hle. constructor; [exact IH|].
      apply Forall_forall. intros z Hz.
      apply insert_sorted_elem in Hz as [->|Hz].
      * unfold descending. lia.
      * rewrite Forall_forall in Hall. auto.
Qed.

Lemma sorted_comments_sorted (comments : list directive) :
  StronglySorted descending (sorted_comments comments).
Proof.
  induction comments as [|c cs IH]; [constructor|].
  unfold sorted_comments. cbn [foldr]. apply insert_sorted_sorted, IH.
Qed.

(** Two entries with different line numbers go into a list in either
    order. *)
Lemma insert_sorted_comm (x y : directive) (l : list directive) :
  line_number x <> line_number y ->
  insert_sorted x (insert_sorted y l) = insert_sorted y (insert_sorted x l).
Proof.
  intros Hne. induction l as [|z l IH].
  - cbn [insert_sorted].
    destruct (line_number y <=? line_number x)%Z eqn:Hyx;
      destruct (line_number x <=? line_number y)%Z eqn:Hxy; try reflexivity.
    + apply Z.leb_le in Hyx, Hxy. lia.
    + apply Z.leb_gt in Hyx, Hxy. lia.
  - destruct (line_number z <=? line_number y)%Z eqn:Hzy;
      destruct (line_number z <=? line_number x)%Z eqn:Hzx;
      destruct (line_number y <=? line_number x)%Z eqn:Hyx;
      destruct (line_number x <=? line_number y)%Z eqn:Hxy;
      try (apply Z.leb_le in Hyx, Hxy; lia);
      try (apply Z.leb_gt in Hyx, Hxy; lia);
      try (apply Z.leb_le in Hzy; apply Z.leb_gt in Hzx;
           apply Z.leb_le in Hyx; lia);
      try (apply Z.leb_le in Hzx; apply Z.leb_gt in Hzy;
           apply Z.leb_le in Hxy; lia);
      repeat (cbn [insert_sorted]; rewrite ?Hzy, ?Hzx, ?Hyx, ?Hxy);
      try reflexivity; f_equal; exact IH.
Qed.

Lemma sorted_comments_order (comments1 comments2 : list directive) :
  comments1 ≡ₚ comments2 ->
  NoDup (line_number <$> comments1) ->
  sorted_comments comments1 = sorted_comments comments2.
Proof.
  induction 1 as [|x l1 l2 Hp IH|x y l|l1 l2 l3 Hp1 IH1 Hp2 IH2]; intros Hnd.
  - reflexivity.
  - unfold sorted_comments in *. cbn [foldr]. rewrite IH; [reflexivity|].
    rewrite fmap_cons in Hnd. apply NoDup_cons in Hnd as [_ Hnd]. exact Hnd.
  - unfold sorted_comments. cbn [foldr]. apply insert_sorted_comm.
    rewrite !fmap_cons in Hnd. apply NoDup_cons in Hnd as [Hy _].
    intros Heq. apply Hy. rewrite Heq. apply elem_of_cons. left. reflexivity.
  - rewrite IH1 by exact Hnd. apply IH2.
    rewrite <- Hp1. exact Hnd.
Qed.

(** X5.  The entries are processed from the highest line number down:
    [sorted_comments] keeps the entries and puts their line numbers in
    descending order; and when the line numbers of the entries are all
    different, the result of [insert_comments] does not depend on the order
    in which the entries are given. *)
Theorem submission_order_irrelevant (E : raw_search) (original_content : string)
  (comments1 comments2 : list directive) :
  comments1 ≡ₚ comments2 ->
  NoDup (line_number <$> comments1) ->
  sorted_comments comments1 ≡ₚ comments1
  /\ StronglySorted descending (sorted_comments comments1)
  /\ insert_comments E original_content comments1
     = insert_comments E original_content comments2.
Proof.
  intros Hp Hnd. split; [apply sorted_comments_perm|].
  split; [apply sorted_comments_sorted|].
  unfold insert_comments.
  pose proof (sorted_comments_order _ _ Hp Hnd) as Hs.
  pose proof (Permutation_length Hp) as Hlen.
  destruct comments1 as [|a l1], comments2 as [|b l2];
    try discriminate Hlen; [reflexivity|].
  rewrite Hs. reflexivity.
Qed.

Lemma submission_order_irrelevant_witness :
  insert_comments no_raw_patterns (text_of ["class A"; "  def foo"; "  end"; "end"])
    [Directive 2 "def foo" 0 "# Foo"; Directive 1 "class A" 0 "# A"]
  = insert_comments no_raw_patterns (text_of ["class A"; "  def foo"; "  end"; "end"])
      [Directive 1 "class A" 0 "# A"; Directive 2 "def foo" 0 "# Foo"].
Proof.
  apply (submission_order_irrelevant no_raw_patterns).
  - apply Permutation_swap.
  - cbn. apply NoDup_cons. split; [|apply NoDup_singleton].
    intros H. apply list_elem_of_singleton in H. discriminate H.
Defined.

(** ** The code hash and the documentation *)

Lemma code_content_lines (ls : list string) :
  Forall (free_of PyStr.nl) ls ->
  code_content (text_of ls) = text_of (List.filter is_code_line ls).
Proof.
  intros Hall. destruct ls as [|l ls]; [reflexivity|].
  apply code_content_of_lines; [discriminate | exact Hall].
Qed.

(** X1.  Hash stability: a line that is left out of the hashed text (a
    comment with a YARD tag, a comment that starts with [# ]) can be added
    to a file or removed from it, anywhere, without a change of the code
    hash. *)
Theorem hash_stable_under_comment_line (before after : list string)
  (l : string) :
  Forall (free_of PyStr.nl) before ->
  Forall (free_of PyStr.nl) after ->
  free_of PyStr.nl l ->
  is_code_line l = false ->
  compute_code_hash (text_of (before ++ l :: after))
  = compute_code_hash (text_of (before ++ after)).
Proof.
  intros Hb Ha Hl Hc. unfold compute_code_hash.
  rewrite !code_content_lines.
  - rewrite !List.filter_app. cbn [List.filter]. rewrite Hc. reflexivity.
  - apply Forall_app. split; assumption.
  - apply Forall_app. split; [assumption | constructor; assumption].
Qed.

Lemma hash_stable_under_comment_line_witness :
  compute_code_hash (text_of ["class A"; "  # @return [Integer] one"; "  def one"])
  = compute_code_hash (text_of ["class A"; "  def one"]).
Proof.
  apply (hash_stable_under_comment_line ["class A"] ["  def one"]
           "  # @return [Integer] one"); repeat constructor.
Defined.

Lemma lstrip_spaces n s :
  PyStr.lstrip (PyStr.replicate_char n " " +:+ s) = PyStr.lstrip s.
Proof. induction n as [|n IH]; [reflexivity | exact IH]. Qed.

Lemma is_code_line_indented n s :
  is_code_line (PyStr.replicate_char n " " +:+ s) = is_code_line s.
Proof. unfold is_code_line, PyStr.strip. rewrite lstrip_spaces. reflexivity. Qed.

Lemma blank_is_code_line s :
  PyStr.is_empty (PyStr.strip s) = true -> is_code_line s = true.
Proof.
  intros H. apply is_empty_true in H. unfold is_code_line. rewrite H.
  reflexivity.
Qed.

Lemma documentation_block_filtered indent_n comment_text :
  Forall (fun comment_line => is_code_line comment_line = false)
         (PyStr.split PyStr.nl comment_text) ->
  List.filter is_code_line
    (comment_lines_of (PyStr.replicate_char indent_n " ") comment_text) = [].
Proof.
  unfold comment_lines_of.
  induction 1 as [|cl cls Hcl Hcls IH]; [reflexivity|].
  cbn [map List.filter].
  destruct (PyStr.is_empty (PyStr.strip cl)) eqn:Hb.
  - rewrite (blank_is_code_line cl Hb) in Hcl. discriminate Hcl.
  - rewrite is_code_line_indented, Hcl. exact IH.
Qed.

Lemma entry_step_code_lines (E : raw_search) st entry o st' :
  entry_step E st entry o st' ->
  comment_is_documentation entry ->
  List.filter is_code_line (lines st') = List.filter is_code_line (lines st).
Proof.
  intros H Hdoc. destruct H as [| | | |idx h al Hv Hd Hr Hl]; try reflexivity.
  cbn [lines]. rewrite !List.filter_app. unfold indent_of.
  rewrite (documentation_block_filtered _ _ Hdoc). cbn [app].
  rewrite <- List.filter_app, take_drop. reflexivity.
Qed.

Lemma loop_steps_code_lines (E : raw_search) st entries os st' :
  loop_steps E st entries os st' ->
  Forall comment_is_documentation entries ->
  List.filter is_code_line (lines st') = List.filter is_code_line (lines st).
Proof.
  induction 1 as [st|st entry rest o st1 os st2 Hstep Hloop IH]; [reflexivity|].
  intros Hall. inversion Hall as [|? ? Hd Hrest]; subst.
  rewrite (IH Hrest). eapply entry_step_code_lines; eassumption.
Qed.

(** X2.  When the comments of the entries are documentation (every line of
    each of them is left out of the hashed text), the documented code has
    the code hash of the original: documenting a file is not a change of
    its code. *)
Theorem hash_unchanged_by_documentation (E : raw_search)
  (original_content : string) (comments : list directive) :
  Forall comment_is_documentation comments ->
  compute_code_hash (insert_comments E original_content comments)
  = compute_code_hash original_content.
Proof.
  intros Hdoc. unfold compute_code_hash. f_equal. f_equal.
  unfold code_content at 1. rewrite output_lines.
  rewrite (loop_steps_code_lines E _ _ _ _
             (outcomes_steps E original_content comments)).
  - reflexivity.
  - rewrite (sorted_comments_perm comments). exact Hdoc.
Qed.

Lemma hash_unchanged_by_documentation_witness :
  compute_code_hash
    (insert_comments no_raw_patterns (text_of ["class A"; "  def one"; "  end"; "end"])
       [Directive 2 "def one" 2 (text_of ["# Gives one."; "# @return [Integer]"])])
  = compute_code_hash (text_of ["class A"; "  def one"; "  end"; "end"]).
Proof.
  apply (hash_unchanged_by_documentation no_raw_patterns).
  repeat constructor.
Defined.

(** ** The entries as they are parsed *)

Example sorted_json_examples :
  sorted_json [EntryObject (KeyInt 3) (FieldText "a") (FieldText "c");
               EntryObject KeyNull (FieldText "a") (FieldText "c")] = None
  /\ sorted_json [EntryObject KeyNull (FieldText "a") (FieldText "c")]
     = Some [EntryObject KeyNull (FieldText "a") (FieldText "c")]
  /\ sorted_json [EntryObject (KeyText "7") (FieldText "a") (FieldText "c");
                  EntryObject (KeyInt 3) (FieldText "a") (FieldText "c")] = None
  /\ sorted_json [EntryObject (KeyText "a") (FieldText "a") (FieldText "c");
                  EntryObject (KeyText "b") (FieldText "a") (FieldText "c")]
     = Some [EntryObject (KeyText "b") (FieldText "a") (FieldText "c");
             EntryObject (KeyText "a") (FieldText "a") (FieldText "c")]
  /\ sorted_json [EntryOther] = None.
Proof. repeat split. Qed.

Example path_stem_examples :
  path_stem (MkPath false ["lib"; "a.b.rb"]) = "a.b"
  /\ path_stem (rel ".bashrc") = ".bashrc"
  /\ path_stem (rel "a.") = "a."
  /\ path_stem (rel "Rakefile") = "Rakefile".
Proof. repeat split. Qed.





(** *** When [sorted] raises *)

Lemma key_leb_some (a b : line_key) :
  is_Some (key_leb a b)
  <-> (exists x y, a = KeyInt x /\ b = KeyInt y)
      \/ (exists s t, a = KeyText s /\ b = KeyText t).
Proof.
  destruct a, b; cbn [key_leb]; split;
    try (intros [? [=]]);
    try (intros [(? & ? & [=] & [=])|(? & ? & [=] & [=])]);
    eauto 6.
Qed.









(** *** Entries of the wire format *)





(** ** From the response to the manifest *)

Example failed_response_example :
  failed_response_file example_generator a_rb
  = MkPath false ["output"; "latest"; "a_failed_response.txt"]
  /\ failed_response_text a_rb "no json"
     = "Failed to parse JSON for: a.rb" +:+ newline
       +:+ "AI Response Length: 7 characters" +:+ newline
       +:+ PyStr.replicate_char 80 "=" +:+ newline +:+ "no json".
Proof. split; reflexivity. Qed.









(** Marking a file as failed a second time changes nothing. *)
Lemma mark_failure_twice (self : generator) (w : world) (now now' : string)
  (file_path : Path) (content content' : option string) :
  manifest (mark_file_processed
              (mark_file_processed self w now file_path false content)
              w now' file_path false content')
  = manifest (mark_file_processed self w now file_path false content).
Proof.
  rewrite (mark_failure_manifest (mark_file_processed self w now file_path false content)).
  rewrite mark_failure_manifest. cbn [processed_files failed_files from_option].
  unfold id. f_equal. f_equal.
  rewrite bool_decide_eq_true_2; [reflexivity|].
  case_bool_decide as Hin; [exact Hin|].
  apply elem_of_app. right. apply list_elem_of_singleton. reflexivity.
Qed.

(** X14.  The list of failed files has no duplicates when it had none:
    marking a file as failed keeps [NoDup], and marking the same file as
    failed twice gives the manifest of marking it once. *)
Theorem failed_files_no_duplicates (self : generator) (w : world)
  (now now' : string) (file_path : Path) (content content' : option string) :
  (NoDup (default [] (failed_files (manifest self))) ->
   NoDup (default [] (failed_files
            (manifest (mark_file_processed self w now file_path false content)))))
  /\ manifest (mark_file_processed
                 (mark_file_processed self w now file_path false content)
                 w now' file_path false content')
     = manifest (mark_file_processed self w now file_path false content).
Proof.
  split; [|apply mark_failure_twice].
  intros Hnd. rewrite mark_failure_manifest. cbn [failed_files from_option].
  unfold id. case_bool_decide as Hin; [exact Hnd|].
  apply NoDup_app. split; [exact Hnd|]. split; [|apply NoDup_singleton].
  intros x Hx Hx'. apply list_elem_of_singleton in Hx'. subst x. contradiction.
Qed.

Lemma failed_files_no_duplicates_witness :
  NoDup (default [] (failed_files
           (manifest (mark_file_processed example_generator example_world "t1"
                                          a_rb false None)))).
Proof.
  destruct (failed_files_no_duplicates example_generator example_world "t1" "t2"
              a_rb None None) as [Hnd _].
  apply Hnd. cbn. apply NoDup_singleton.
Defined.

(** ** The files that a run processes *)

Lemma filter_processed_count (self : generator) (w : world)
  (ruby_files : list Path) :
  (filter_processed self w ruby_files).1
  + length (filter_processed self w ruby_files).2
  = length ruby_files.
Proof.
  induction ruby_files as [|p ps IH]; [reflexivity|]. cbn [filter_processed].
  destruct (filter_processed self w ps) as [n todo]. cbn [fst snd] in IH.
  destruct (is_file_processed self w p); cbn [fst snd length]; lia.
Qed.

(** X16.  Every file that is found is either counted as processed or left
    to process, in the order in which it was found: the files left are the
    files for which [is_file_processed] is false; with incremental mode off
    (or a rebuild forced) every file is left to process. *)
Theorem files_to_process_partition (self : generator) (w : world)
  (ruby_files : list Path) :
  (filter_processed self w ruby_files).1
  + length (filter_processed self w ruby_files).2
  = length ruby_files
  /\ (filter_processed self w ruby_files).2
     = List.filter (fun p => negb (is_file_processed self w p)) ruby_files
  /\ (incremental self = false ->
      filter_processed self w ruby_files = (0, ruby_files)).
Proof.
  split; [apply filter_processed_count|]. split.
  - induction ruby_files as [|p ps IH]; [reflexivity|].
    cbn [filter_processed List.filter].
    destruct (filter_processed self w ps) as [n todo]. cbn [snd] in IH.
    destruct (is_file_processed self w p); cbn [negb snd]; congruence.
  - intros Hoff. induction ruby_files as [|p ps IH]; [reflexivity|].
    cbn [filter_processed]. rewrite IH.
    unfold is_file_processed. rewrite Hoff. reflexivity.
Qed.

Lemma files_to_process_partition_witness :
  filter_processed
    (Generator "openai" false "flat" None (MkPath false []) (Manifest None None) None)
    example_world [a_rb; MkPath false ["lib"; "b.rb"]]
  = (0, [a_rb; MkPath false ["lib"; "b.rb"]]).
Proof.
  destruct (files_to_process_partition
              (Generator "openai" false "flat" None (MkPath false [])
                         (Manifest None None) None)
              example_world [a_rb; MkPath false ["lib"; "b.rb"]])
    as (_ & _ & Hoff).
  apply Hoff. reflexivity.
Defined.

(** ** The comments of the documented code *)

Lemma filter_sublist (f : string -> bool) (l1 l2 : list string) :
  l1 `sublist_of` l2 -> List.filter f l1 `sublist_of` List.filter f l2.
Proof.
  induction 1 as [|x l1 l2 Hs IH|x l1 l2 Hs IH]; cbn [List.filter].
  - constructor.
  - destruct (f x); [constructor; exact IH | exact IH].
  - destruct (f x); [constructor; exact IH | exact IH].
Qed.

(** X18.  The comment lines that [generate_yard_docs] takes from the
    documented code have the comment lines of the original among them, in
    their order; so a [.yard] file is written for every file that had a
    comment line. *)
Theorem yard_keeps_original_comments (E : raw_search)
  (original_content : string) (comments : list directive) :
  yard_comments original_content
  `sublist_of` yard_comments (insert_comments E original_content comments)
  /\ (yard_comments original_content <> [] ->
      is_Some (yard_file (insert_comments E original_content comments))).
Proof.
  assert (Hsub : yard_comments original_content
                 `sublist_of`
                 yard_comments (insert_comments E original_content comments)).
  { apply filter_sublist. rewrite output_lines.
    apply (loop_steps_sublist E (initial_buffer original_content) _ _ _
             (outcomes_steps E original_content comments)). }
  split; [exact Hsub|].
  intros Hne. unfold yard_file.
  destruct (yard_comments (insert_comments E original_content comments)) eqn:Hy;
    [|eauto].
  apply sublist_nil_r in Hsub. contradiction.
Qed.

Lemma yard_keeps_original_comments_witness :
  is_Some (yard_file
             (insert_comments no_raw_patterns
                (text_of ["# A class"; "class A"; "end"])
                [Directive 2 "class A" 0 "# @example"])).
Proof.
  destruct (yard_keeps_original_comments no_raw_patterns
              (text_of ["# A class"; "class A"; "end"])
              [Directive 2 "class A" 0 "# @example"]) as [_ Hsome].
  apply Hsome. discriminate.
Defined.

(** ** The search of [find_insertion_line] *)

Section Search.

Variable E : raw_search.
Variable file_lines : list string.
Variable anchor_text : string.
Variable claimed : gset nat.

Local Abbreviation passed_here := (passed E file_lines anchor_text claimed).

Lemma nearby_elem (len : nat) (expected_idx : Z) (offsets : list Z) (idx : nat) :
  idx ∈ flat_map (fun offset : Z =>
                    if (offset =? 0)%Z then []
                    else
                      let i := (expected_idx + offset)%Z in
                      if (0 <=? i)%Z && (i <? Z.of_nat len)%Z
                      then [Z.to_nat i] else [])
                 offsets
  <-> exists offset,
        offset ∈ offsets /\ offset <> 0%Z
        /\ (0 <= expected_idx + offset < Z.of_nat len)%Z
        /\ idx = Z.to_nat (expected_idx + offset).
Proof.
  rewrite list_elem_of_In, in_flat_map. split.
  - intros (offset & Hin & Hidx). exists offset.
    apply list_elem_of_In in Hin.
    destruct (offset =? 0)%Z eqn:Ez; [destruct Hidx|]. apply Z.eqb_neq in Ez.
    cbn zeta in Hidx.
    destruct ((0 <=? expected_idx + offset)%Z
              && (expected_idx + offset <? Z.of_nat len)%Z) eqn:Eb;
      [|destruct Hidx].
    apply andb_true_iff in Eb as [B1 B2].
    destruct Hidx as [<-|[]]. repeat split; try assumption; lia.
  - intros (offset & Hin & Hz & Hb & ->). exists offset.
    split; [apply list_elem_of_In; exact Hin|].
    apply Z.eqb_neq in Hz. rewrite Hz. cbn zeta.
    assert (Eb : (0 <=? expected_idx + offset)%Z
                 && (expected_idx + offset <? Z.of_nat len)%Z = true)
      by (apply andb_true_iff; split; [apply Z.leb_le | apply Z.ltb_lt]; lia).
    rewrite Eb. left. reflexivity.
Qed.

Lemma nearby_NoDup (len : nat) (expected_idx : Z) (offsets : list Z) :
  NoDup offsets ->
  NoDup (flat_map (fun offset : Z =>
                     if (offset =? 0)%Z then []
                     else
                       let i := (expected_idx + offset)%Z in
                       if (0 <=? i)%Z && (i <? Z.of_nat len)%Z
                       then [Z.to_nat i] else [])
                  offsets).
Proof.
  induction 1 as [|offset offsets Hnin Hnd IH]; [constructor|].
  cbn [flat_map]. apply NoDup_app. split; [|split; [|exact IH]].
  - destruct (offset =? 0)%Z; [constructor|]. cbn zeta.
    destruct (_ && _); [apply NoDup_singleton | constructor].
  - intros idx Hidx Hrest.
    apply nearby_elem in Hrest as (offset' & Hin' & _ & Hb' & ->).
    destruct (offset =? 0)%Z; [by apply elem_of_nil in Hidx|]. cbn zeta in Hidx.
    destruct ((0 <=? expected_idx + offset)%Z
              && (expected_idx + offset <? Z.of_nat len)%Z) eqn:Eb;
      [|by apply elem_of_nil in Hidx].
    apply andb_true_iff in Eb as [B1 B2]. apply Z.leb_le in B1.
    apply list_elem_of_singleton in Hidx.
    assert (offset' = offset) by lia. subst offset'. contradiction.
Qed.

Lemma search_order_elem (expected_idx : Z) (idx : nat) :
  idx ∈ search_order (length file_lines) expected_idx
  <-> idx < length file_lines /\ Z.of_nat idx <> expected_idx.
Proof.
  split.
  - intros Hin. split; [|eapply search_order_not_expected; exact Hin].
    unfold search_order in Hin. apply elem_of_app in Hin as [Hin|Hin].
    + apply nearby_elem in Hin as (offset & _ & _ & Hb & ->). lia.
    + apply list_elem_of_filter in Hin as [_ Hin].
      apply elem_of_seq in Hin. lia.
  - intros [Hlt Hne]. apply search_order_complete; assumption.
Qed.

(** X11.  The search order has every line of the file but the expected one,
    once: no line is left out of the search and none is tried twice. *)
Theorem search_order_covers (expected_idx : Z) :
  NoDup (search_order (length file_lines) expected_idx)
  /\ forall idx,
       idx ∈ search_order (length file_lines) expected_idx
       <-> idx < length file_lines /\ Z.of_nat idx <> expected_idx.
Proof.
  split.
  - unfold search_order. apply NoDup_app. split; [|split].
    + apply nearby_NoDup. apply NoDup_seqZ.
    + intros idx Hnear Hrest.
      apply list_elem_of_filter in Hrest as [[_ Hnot] _]. contradiction.
    + apply NoDup_filter, NoDup_seq.
  - intros idx. apply search_order_elem.
Qed.

Lemma scan_not_found (expected_idx : Z) (order : list nat) :
  Forall (fun idx => idx < length file_lines) order ->
  (scan E file_lines expected_idx anchor_text claimed order = NotFound
   <-> Forall passed_here order).
Proof.
  induction 1 as [|j order Hj Hall IH]; cbn [scan].
  - split; [constructor | reflexivity].
  - destruct (lookup_lt_is_Some_2 _ _ Hj) as [l Hl].
    case_bool_decide as Hc.
    + rewrite IH. split.
      * intros H. constructor; [left; exact Hc | exact H].
      * intros H. inversion H; assumption.
    + rewrite Hl.
      destruct (soft_match_anchor E anchor_text l) as [[|]|] eqn:Hs.
      * split; [discriminate|]. intros H. inversion H as [|? ? [Hp|Hp] _]; subst;
          [contradiction|]. unfold soft_at in Hp. rewrite Hl in Hp. cbn in Hp.
        congruence.
      * rewrite IH. split.
        -- intros H. constructor; [|exact H]. right. unfold soft_at.
           rewrite Hl. exact Hs.
        -- intros H. inversion H; assumption.
      * split; [discriminate|]. intros H. inversion H as [|? ? [Hp|Hp] _]; subst;
          [contradiction|]. unfold soft_at in Hp. rewrite Hl in Hp. cbn in Hp.
        congruence.
Qed.

(** X9.  For a line number inside the file whose line is not claimed, the
    resolver gives up exactly when the expected line matches the anchor
    neither exactly nor softly and every other line of the file is claimed
    or does not match softly: a line that matches and is free is always
    found. *)
Theorem not_found_iff (line_number : Z) (l : string) :
  (0 <= line_number - 1)%Z ->
  file_lines !! Z.to_nat (line_number - 1) = Some l ->
  Z.to_nat (line_number - 1) ∉ claimed ->
  find_insertion_line E file_lines line_number anchor_text claimed = NotFound
  <-> PyStr.contains anchor_text l = false
      /\ soft_match_anchor E anchor_text l = Some false
      /\ forall idx, idx < length file_lines ->
                     idx <> Z.to_nat (line_number - 1) ->
                     passed_here idx.
Proof.
  intros Hpos Hl He. pose proof (lookup_lt_Some _ _ _ Hl) as Hlt.
  unfold find_insertion_line.
  destruct ((line_number - 1 <? 0)%Z
            || (Z.of_nat (length file_lines) <=? line_number - 1)%Z) eqn:Eb.
  { apply orb_true_iff in Eb as [Eb|Eb]; lia. }
  rewrite bool_decide_eq_false_2 by exact He. rewrite Hl.
  pose proof (search_order_elem (line_number - 1)) as Hcover.
  destruct (PyStr.contains anchor_text l); [split; [discriminate | intros [[=] _]]|].
  destruct (soft_match_anchor E anchor_text l) as [[|]|];
    [split; [discriminate | intros (_ & [=] & _)]
    | |split; [discriminate | intros (_ & [=] & _)]].
  rewrite scan_not_found.
  - rewrite Forall_forall. split.
    + intros Hall. repeat split. intros idx Hidx Hne.
      apply Hall, Hcover. split; [exact Hidx | lia].
    + intros (_ & _ & Hall) idx Hin. apply Hcover in Hin as [Hidx Hne].
      apply Hall; [exact Hidx | lia].
  - apply Forall_forall. intros idx Hin. apply Hcover in Hin as [Hidx _].
    exact Hidx.
Qed.

(** X10.  A line that the resolver returns matches the anchor: exactly or
    softly at the expected line, softly elsewhere; and its flag tells where
    it is: the expected line itself, a line up to five lines away, or a
    line farther away. *)
Theorem found_line_matches (line_number : Z) (idx : nat) (h : how) :
  find_insertion_line E file_lines line_number anchor_text claimed
  = Found idx h ->
  exists l,
    file_lines !! idx = Some l
    /\ match h with
       | Exact =>
           Z.of_nat idx = (line_number - 1)%Z
           /\ PyStr.contains anchor_text l = true
       | Soft =>
           Z.of_nat idx = (line_number - 1)%Z
           /\ PyStr.contains anchor_text l = false
           /\ soft_match_anchor E anchor_text l = Some true
       | NearMiss =>
           Z.of_nat idx <> (line_number - 1)%Z
           /\ (Z.abs (Z.of_nat idx - (line_number - 1)) <= 5)%Z
           /\ soft_match_anchor E anchor_text l = Some true
       | Distant =>
           (5 < Z.abs (Z.of_nat idx - (line_number - 1)))%Z
           /\ soft_match_anchor E anchor_text l = Some true
       end.
Proof.
  unfold find_insertion_line.
  destruct ((line_number - 1 <? 0)%Z
            || (Z.of_nat (length file_lines) <=? line_number - 1)%Z) eqn:Eb;
    [discriminate|].
  apply orb_false_iff in Eb as [B1 B2]. apply Z.ltb_ge in B1.
  case_bool_decide as Hc; [discriminate|].
  destruct (file_lines !! Z.to_nat (line_number - 1)) as [l|] eqn:Hl;
    [|discriminate].
  destruct (PyStr.contains anchor_text l) eqn:Hex.
  { intros [= <- <-]. exists l. split; [exact Hl|]. split; [lia | exact Hex]. }
  destruct (soft_match_anchor E anchor_text l) as [[|]|] eqn:Hs; [| |discriminate].
  { intros [= <- <-]. exists l. split; [exact Hl|]. repeat split; [lia|assumption..]. }
  intros H. pose proof H as Hfound.
  apply scan_found in H as (pre & post & Ho & _ & _ & Hlt & Hsoft & ->).
  assert (Hin : idx ∈ search_order (length file_lines) (line_number - 1))
    by (rewrite Ho; apply elem_of_app; right; apply elem_of_cons; left; reflexivity).
  apply search_order_not_expected in Hin.
  unfold soft_at in Hsoft.
  destruct (file_lines !! idx) as [li|] eqn:Hli; [|discriminate Hsoft].
  cbn in Hsoft. exists li. split; [reflexivity|]. unfold flag_of.
  destruct (Z.abs (Z.of_nat idx - (line_number - 1)) <=? 5)%Z eqn:Ed.
  - apply Z.leb_le in Ed. repeat split; assumption.
  - apply Z.leb_gt in Ed. split; assumption.
Qed.

End Search.

Lemma not_found_iff_witness :
  find_insertion_line no_raw_patterns ["class A"; "end"] 1 "def foo" ∅ = NotFound.
Proof.
  apply (not_found_iff no_raw_patterns ["class A"; "end"] "def foo" ∅ 1 "class A");
    [lia | reflexivity | apply not_elem_of_empty |].
  split; [reflexivity|]. split; [reflexivity|].
  intros idx Hidx Hne. right.
  destruct idx as [|[|idx]]; [contradiction | reflexivity | cbn in Hidx; lia].
Defined.

Lemma found_line_matches_witness :
  exists l, ["class A"; "  def foo(x)"; "end"] !! 1 = Some l
            /\ soft_match_anchor no_raw_patterns "def foo" l = Some true.
Proof.
  assert (Hfound : find_insertion_line no_raw_patterns
                     ["class A"; "  def foo(x)"; "end"] 1 "def foo" ∅
                   = Found 1 NearMiss) by (vm_compute; reflexivity).
  destruct (found_line_matches no_raw_patterns ["class A"; "  def foo(x)"; "end"]
              "def foo" ∅ 1 1 NearMiss Hfound) as (l & Hl & _ & _ & Hs).
  exists l. split; assumption.
Defined.

(** ** The sanitizer on its own output *)

Lemma doubled_is_ill_formed c rest :
  valid_single_escape c = false ->
  Ascii.eqb c "u" && four_hex rest = false ->
  escapes_ok (String backslash (String c rest)) = false.
Proof.
  intros Hv Hu. cbn [escapes_ok]. change (Ascii.eqb backslash backslash) with true.
  cbv iota. rewrite Hv. destruct (Ascii.eqb c "u"); [|reflexivity].
  cbn [andb] in Hu.
  destruct rest as [|h1 [|h2 [|h3 [|h4 rest]]]]; try reflexivity.
  cbn [four_hex] in Hu. rewrite Hu. reflexivity.
Qed.

Lemma sanitize_well_formed_fixed s :
  escapes_ok s = true -> sanitize_json_escapes s = s.
Proof.
  induction s as [s IH] using string_strong_ind.
  destruct (token_view_of s) as [| |c rest Hc|c rest Hv|h1 h2 h3 h4 rest Hh|c rest Hv Hu];
    intros Hok.
  - reflexivity.
  - discriminate Hok.
  - rewrite (san_plain _ _ Hc). rewrite escapes_ok_plain in Hok by exact Hc.
    rewrite IH; [reflexivity | simpl; lia | exact Hok].
  - rewrite (san_valid _ _ Hv). cbn [escapes_ok] in Hok.
    change (Ascii.eqb backslash backslash) with true in Hok. cbv iota in Hok.
    rewrite Hv in Hok. rewrite IH; [reflexivity | simpl; lia | exact Hok].
  - rewrite (san_unicode _ _ _ _ _ Hh). cbn [escapes_ok] in Hok.
    change (Ascii.eqb backslash backslash) with true in Hok. cbv iota in Hok.
    change (valid_single_escape "u") with false in Hok. cbv iota in Hok.
    change (Ascii.eqb "u" "u") with true in Hok. cbv iota in Hok.
    rewrite Hh in Hok. cbn [andb] in Hok.
    rewrite IH; [reflexivity | simpl; lia | exact Hok].
  - rewrite (doubled_is_ill_formed _ _ Hv Hu) in Hok. discriminate Hok.
Qed.

Lemma sanitize_idempotent s :
  sanitize_json_escapes (sanitize_json_escapes s) = sanitize_json_escapes s.
Proof.
  induction s as [s IH] using string_strong_ind.
  destruct (token_view_of s) as [| |c rest Hc|c rest Hv|h1 h2 h3 h4 rest Hh|c rest Hv Hu].
  - reflexivity.
  - reflexivity.
  - rewrite (san_plain _ _ Hc), (san_plain _ _ Hc), IH; [reflexivity | simpl; lia].
  - rewrite (san_valid _ _ Hv), (san_valid _ _ Hv), IH; [reflexivity | simpl; lia].
  - rewrite (san_unicode _ _ _ _ _ Hh), (san_unicode _ _ _ _ _ Hh), IH;
      [reflexivity | simpl; lia].
  - rewrite (san_doubled _ _ Hv Hu).
    rewrite (san_valid _ _ backslash_is_valid_escape).
    rewrite (san_plain _ _ (invalid_escape_not_backslash _ Hv)).
    rewrite IH; [reflexivity | simpl; lia].
Qed.

(** X4.  The sanitizer leaves alone a text whose escape sequences are all
    well formed, and sanitizing twice is sanitizing once: a response that
    was already valid is not altered before it is parsed. *)
Theorem sanitizer_is_a_repair (s : string) :
  (escapes_ok s = true -> sanitize_json_escapes s = s)
  /\ sanitize_json_escapes (sanitize_json_escapes s) = sanitize_json_escapes s.
Proof. split; [apply sanitize_well_formed_fixed | apply sanitize_idempotent]. Qed.

Lemma sanitizer_is_a_repair_witness :
  sanitize_json_escapes "[{\\n: é \/}]" = "[{\\n: é \/}]".
Proof.
  destruct (sanitizer_is_a_repair "[{\\n: é \/}]") as [Hfixed _].
  apply Hfixed. reflexivity.
Defined.

(** ** The form of the code hash *)

Lemma round_length st kw : length st = 8 -> length (Sha256.round st kw) = 8.
Proof.
  intros H. destruct st as [|a [|b [|c [|d [|e [|f [|g [|h [|i st]]]]]]]]];
    try discriminate H. reflexivity.
Qed.

Lemma rounds_length kws : forall st,
  length st = 8 -> length (fold_left Sha256.round kws st) = 8.
Proof.
  induction kws as [|kw kws IH]; intros st H; [exact H|].
  cbn [fold_left]. apply IH, round_length, H.
Qed.

Lemma compress_length h block :
  length h = 8 -> length (Sha256.compress h block) = 8.
Proof.
  intros H. unfold Sha256.compress.
  rewrite length_map, length_combine, rounds_length by exact H. lia.
Qed.

Lemma blocks_length fuel : forall h bytes,
  length h = 8 -> length (Sha256.blocks fuel h bytes) = 8.
Proof.
  induction fuel as [|fuel IH]; intros h bytes H; [exact H|].
  cbn [Sha256.blocks]. destruct bytes; [exact H|].
  apply IH, compress_length, H.
Qed.

Lemma be_bytes_length n x : length (Sha256.be_bytes n x) = n.
Proof. induction n as [|n IH]; [reflexivity|]. cbn [Sha256.be_bytes length]. lia. Qed.

Lemma digest_length msg : length (Sha256.digest msg) = 32.
Proof.
  unfold Sha256.digest.
  pose proof (blocks_length (length (Sha256.pad msg)) Sha256.H0 (Sha256.pad msg)
                eq_refl) as H.
  destruct (Sha256.blocks _ _ _) as [|a [|b [|c [|d [|e [|f [|g [|h [|i st]]]]]]]]];
    try discriminate H.
  cbn [flat_map]. rewrite !length_app, !be_bytes_length. reflexivity.
Qed.

Lemma hex_length bytes : String.length (Sha256.hex bytes) = 2 * length bytes.
Proof.
  induction bytes as [|b bytes IH]; [reflexivity|].
  cbn [Sha256.hex String.length length]. lia.
Qed.

Lemma hex_digit_is_hex n : is_lower_hex (Sha256.hex_digit n) = true.
Proof.
  unfold Sha256.hex_digit.
  destruct (Z.to_nat n) as [|[|[|[|[|[|[|[|[|[|[|[|[|[|[|[|k]]]]]]]]]]]]]]]];
    try reflexivity.
  cbn. destruct k; reflexivity.
Qed.

Lemma hex_all_hex bytes : all_chars is_lower_hex (Sha256.hex bytes) = true.
Proof.
  induction bytes as [|b bytes IH]; [reflexivity|].
  cbn [Sha256.hex all_chars]. rewrite !hex_digit_is_hex, IH. reflexivity.
Qed.

Lemma prefix_chars_length n : forall s,
  n <= String.length s -> String.length (prefix_chars n s) = n.
Proof.
  induction n as [|n IH]; intros s H; [reflexivity|].
  destruct s as [|c s]; [cbn in H; lia|].
  cbn [prefix_chars String.length] in *. rewrite IH; lia.
Qed.

Lemma prefix_chars_all p n : forall s,
  all_chars p s = true -> all_chars p (prefix_chars n s) = true.
Proof.
  induction n as [|n IH]; intros s H; [reflexivity|].
  destruct s as [|c s]; [reflexivity|].
  cbn [prefix_chars all_chars] in *. apply andb_true_iff in H as [Hc Hs].
  rewrite Hc, (IH s Hs). reflexivity.
Qed.

(** X3.  The code hash of any content is 16 characters long and made of
    the digits and the letters a to f: the form of the [content_hash] of a
    manifest entry. *)
Theorem code_hash_format (content : string) :
  String.length (compute_code_hash content) = 16
  /\ all_chars is_lower_hex (compute_code_hash content) = true.
Proof.
  unfold compute_code_hash, Sha256.hexdigest. split.
  - apply prefix_chars_length. rewrite hex_length, digest_length. lia.
  - apply prefix_chars_all, hex_all_hex.
Qed.

(** ** The soft match: failures and declarations *)

Lemma rstrip_last x : forall c,
  last_char (PyStr.rstrip x) = Some c -> PyStr.isspace c = false.
Proof.
  induction x as [|a x IH]; intros c; [discriminate|].
  cbn [PyStr.rstrip].
  destruct (PyStr.isspace a && PyStr.is_empty (PyStr.rstrip x)) eqn:Hc;
    [discriminate|].
  destruct (PyStr.rstrip x) as [|b y] eqn:Hr.
  - cbn. intros [= <-]. cbn in Hc. rewrite andb_true_r in Hc. exact Hc.
  - change (last_char (String a (String b y))) with (last_char (String b y)).
    apply IH.
Qed.

Lemma strip_last x c :
  last_char (PyStr.strip x) = Some c -> PyStr.isspace c = false.
Proof. apply rstrip_last. Qed.

Lemma last_char_app (a b : string) :
  last_char (a +:+ b) = prev_after (last_char a) b.
Proof. rewrite <- !prev_after_none. apply prev_after_app. Qed.

Lemma all_space_last p :
  all_chars PyStr.isspace p = true -> p <> EmptyString ->
  exists c, last_char p = Some c /\ PyStr.isspace c = true.
Proof.
  induction p as [|a p IH]; intros Hall Hne; [congruence|].
  cbn [all_chars] in Hall. apply andb_true_iff in Hall as [Ha Hp].
  destruct p as [|b p]; [exists a; auto|].
  change (last_char (String a (String b p))) with (last_char (String b p)).
  apply IH; [exact Hp | discriminate].
Qed.

Lemma lstrip_empty p :
  PyStr.lstrip p = EmptyString <-> all_chars PyStr.isspace p = true.
Proof.
  induction p as [|a p IH]; [split; reflexivity|].
  cbn [PyStr.lstrip all_chars]. destruct (PyStr.isspace a); [exact IH|].
  split; discriminate.
Qed.

Lemma span_word_keyword kw post :
  all_chars no_space kw = true ->
  PyStr.span_word (kw +:+ String " " post) = (kw, String " " post).
Proof.
  induction kw as [|a kw IH]; intros Hall; [reflexivity|].
  cbn [all_chars] in Hall. apply andb_true_iff in Hall as [Ha Hkw].
  rewrite append_cons. cbn [PyStr.span_word].
  unfold no_space in Ha. apply negb_true_iff in Ha. rewrite Ha.
  rewrite (IH Hkw). reflexivity.
Qed.

Lemma split_ws_1_keyword a kw post :
  all_chars no_space (String a kw) = true ->
  PyStr.lstrip post <> EmptyString ->
  PyStr.split_ws_1 (String a kw +:+ String " " post)
  = [String a kw; PyStr.lstrip post].
Proof.
  intros Hall Hpost. unfold PyStr.split_ws_1.
  assert (Ha : PyStr.isspace a = false).
  { cbn [all_chars] in Hall. apply andb_true_iff in Hall as [Ha _].
    apply negb_true_iff in Ha. exact Ha. }
  rewrite append_cons. cbn [PyStr.lstrip]. rewrite Ha.
  rewrite <- append_cons, (span_word_keyword _ _ Hall).
  cbn [PyStr.lstrip]. change (PyStr.isspace " ") with true. cbv iota.
  destruct (PyStr.lstrip post); [congruence | reflexivity].
Qed.

Lemma drop_app (a b : string) : PyStr.drop (String.length a) (a +:+ b) = b.
Proof. induction a as [|c a IH]; [destruct b; reflexivity | exact IH]. Qed.

(** A trimmed anchor that starts with a keyword and a space has something
    after the keyword. *)
Lemma keyword_anchor_parts (kw anchor : string) :
  kw <> EmptyString ->
  PyStr.startswith (kw +:+ " ") (PyStr.strip anchor) = true ->
  exists post,
    PyStr.strip anchor = kw +:+ String " " post
    /\ PyStr.lstrip post <> EmptyString
    /\ PyStr.lstrip post
       = PyStr.lstrip (PyStr.drop (String.length kw + 1) (PyStr.strip anchor)).
Proof.
  intros Hkw Hstart. apply startswith_spec in Hstart as [post Hs].
  rewrite append_assoc in Hs. change (" " +:+ post) with (String " " post) in Hs.
  exists post. split; [exact Hs|]. split.
  - intros Hempty. apply lstrip_empty in Hempty.
    pose proof (strip_last anchor) as Hlast. rewrite Hs in Hlast.
    rewrite last_char_app in Hlast.
    destruct post as [|p post].
    + specialize (Hlast " "%char eq_refl). discriminate Hlast.
    + destruct (all_space_last (String p post) Hempty ltac:(discriminate))
        as (c & Hc & Hsp).
      assert (Hl : prev_after (last_char kw) (String " " (String p post)) = Some c).
      { rewrite prev_after_cons. unfold prev_after. rewrite Hc. reflexivity. }
      specialize (Hlast c Hl). congruence.
  - rewrite Hs. replace (String.length kw + 1) with (String.length (kw +:+ " ")).
    + replace (kw +:+ String " " post) with ((kw +:+ " ") +:+ post)
        by (rewrite append_assoc; reflexivity).
      rewrite drop_app. reflexivity.
    + clear. induction kw as [|c kw IH]; [reflexivity|].
      rewrite append_cons. cbn [String.length]. rewrite IH. reflexivity.
Qed.

(** The first branch of [soft_match_anchor]. *)
Lemma soft_match_declaration (E : raw_search) (kw anchor line : string) :
  kw = "class" \/ kw = "module" ->
  PyStr.startswith (kw +:+ " ") (PyStr.strip anchor) = true ->
  soft_match_anchor E anchor line
  = Some (Re.search (declaration_pattern kw (declared_name kw anchor)) line).
Proof.
  intros Hkw Hstart.
  assert (Hne : kw <> EmptyString) by (destruct Hkw; subst; discriminate).
  destruct (keyword_anchor_parts kw anchor Hne Hstart) as (post & Hs & Hpost & Hdrop).
  unfold soft_match_anchor.
  assert (Hbranch : PyStr.startswith "class " (PyStr.strip anchor)
                    || PyStr.startswith "module " (PyStr.strip anchor) = true).
  { destruct Hkw; subst kw.
    - change ("class" +:+ " ") with "class " in Hstart. rewrite Hstart.
      reflexivity.
    - change ("module" +:+ " ") with "module " in Hstart. rewrite Hstart.
      apply orb_true_r. }
  rewrite Hbranch. rewrite Hs at 1.
  assert (Hsplit : PyStr.split_ws_1 (kw +:+ String " " post)
                   = [kw; PyStr.lstrip post]).
  { destruct Hkw; subst kw; apply split_ws_1_keyword; try reflexivity; exact Hpost. }
  rewrite Hsplit. unfold declared_name, declaration_pattern. rewrite <- Hdrop.
  reflexivity.
Qed.

Lemma last_char_none p : last_char p = None -> p = EmptyString.
Proof.
  destruct p as [|c p]; [reflexivity|].
  destruct (last_char_is_some p c) as [d Hd]. congruence.
Qed.

Lemma search_declaration_pattern kw name line :
  Re.search (declaration_pattern kw name) line = true
  <-> declares kw name line.
Proof.
  rewrite search_den. unfold declares, declaration_pattern. cbn [Re.seq den].
  split.
  - intros (pre & w & rest & -> & w0 & w1 & -> & [-> Hnone]
            & ws1 & w2 & -> & Hws1 & wk & w3 & -> & -> & ws2 & w4 & ->
            & [Hne Hws2] & wn & w5 & -> & -> & -> & Hb).
    apply last_char_none in Hnone. subst pre.
    exists ws1, ws2, rest. rewrite !append_empty, append_empty_r.
    split; [rewrite !append_assoc; reflexivity|].
    repeat split; try assumption.
    rewrite !prev_after_empty in Hb. cbn [last_char] in Hb.
    rewrite <- !prev_after_app, prev_after_none in Hb. exact Hb.
  - intros (ws1 & ws2 & rest & -> & Hws1 & Hne & Hws2 & Hb).
    exists "", (ws1 +:+ kw +:+ ws2 +:+ name), rest. split.
    { rewrite append_empty, !append_assoc. reflexivity. }
    exists "", (ws1 +:+ kw +:+ ws2 +:+ name). split; [reflexivity|].
    split; [split; reflexivity|].
    exists ws1, (kw +:+ ws2 +:+ name). split; [reflexivity|].
    split; [exact Hws1|].
    exists kw, (ws2 +:+ name). split; [reflexivity|]. split; [reflexivity|].
    exists ws2, name. split; [reflexivity|]. split; [split; assumption|].
    exists name, "". split; [rewrite append_empty_r; reflexivity|].
    split; [reflexivity|]. split; [reflexivity|].
    rewrite !prev_after_empty. cbn [last_char].
    rewrite <- !prev_after_app, prev_after_none. exact Hb.
Qed.

(** X13.  For an anchor that, once trimmed, starts with [class] or
    [module] and a space, the soft match on a line never fails, and it
    succeeds exactly when the line is: white space or nothing, the keyword,
    white space, the name of the anchor, and then the end of a word.  The
    name is matched as a whole word, unlike the name of a method. *)
Theorem declaration_soft_match (E : raw_search) (kw anchor line : string) :
  kw = "class" \/ kw = "module" ->
  PyStr.startswith (kw +:+ " ") (PyStr.strip anchor) = true ->
  (exists b, soft_match_anchor E anchor line = Some b)
  /\ (soft_match_anchor E anchor line = Some true
      <-> declares kw (declared_name kw anchor) line).
Proof.
  intros Hkw Hstart. rewrite (soft_match_declaration E kw anchor line Hkw Hstart).
  split; [eexists; reflexivity|].
  rewrite <- search_declaration_pattern. split; [intros [= H]; exact H|].
  intros H. rewrite H. reflexivity.
Qed.

Lemma declaration_soft_match_witness :
  soft_match_anchor no_raw_patterns " class Foo (x)" "  class  Foo < Bar" = Some true
  /\ ~ declares "class" "Foo" "class Foobar".
Proof.
  destruct (declaration_soft_match no_raw_patterns "class" " class Foo (x)"
              "  class  Foo < Bar" (or_introl eq_refl) eq_refl) as [_ Hiff].
  destruct (declaration_soft_match no_raw_patterns "class" "class Foo"
              "class Foobar" (or_introl eq_refl) eq_refl) as [_ Hiff'].
  split.
  - apply Hiff. exists "  ", "  ", " < Bar". repeat split. discriminate.
  - intros Hd. apply Hiff' in Hd. vm_compute in Hd. discriminate Hd.
Defined.

Lemma split_ws_aux_some w s : PyStr.split_ws_aux (Some w) s <> [].
Proof.
  revert w. induction s as [|c s IH]; intros w; cbn [PyStr.split_ws_aux];
    [discriminate|].
  destruct (PyStr.isspace c); [discriminate | apply IH].
Qed.

Lemma split_ws_not_nil c s :
  PyStr.isspace c = false -> PyStr.split_ws (String c s) <> [].
Proof.
  intros Hc. unfold PyStr.split_ws. cbn [PyStr.split_ws_aux]. rewrite Hc.
  apply split_ws_aux_some.
Qed.

Lemma startswith_head c p s :
  PyStr.startswith (String c p) s = true -> exists r, s = String c r.
Proof.
  destruct s as [|d s]; [discriminate|]. cbn [PyStr.startswith].
  intros H. apply andb_true_iff in H as [H _]. apply ascii_eqb_true in H.
  subst d. eauto.
Qed.

(** X12.  The soft match fails (an exception of the body) in one case only:
    the anchor is an attribute accessor whose keyword has a character that
    is special in a pattern, and the search of the pattern built from it
    fails.  No other anchor makes [soft_match_anchor] raise. *)
Theorem soft_match_failure (E : raw_search) (anchor line : string) :
  soft_match_anchor E anchor line = None ->
  PyStr.startswith "attr_" (PyStr.strip anchor) = true
  /\ exists attr_type part1 parts,
       PyStr.split_ws (PyStr.strip anchor) = attr_type :: part1 :: parts
       /\ Re.plain attr_type = false
       /\ E (attr_type +:+ "\s+:" +:+ Re.escape (PyStr.lstrip_char ":" part1)
                       +:+ "\b") line = None.
Proof.
  destruct (PyStr.startswith "class " (PyStr.strip anchor)) eqn:Hclass.
  { intros H. rewrite (soft_match_declaration E "class" anchor line
                         (or_introl eq_refl) Hclass) in H. discriminate H. }
  destruct (PyStr.startswith "module " (PyStr.strip anchor)) eqn:Hmodule.
  { intros H. rewrite (soft_match_declaration E "module" anchor line
                         (or_intror eq_refl) Hmodule) in H. discriminate H. }
  unfold soft_match_anchor. rewrite Hclass, Hmodule. cbn [orb].
  destruct (PyStr.startswith "def " (PyStr.strip anchor)).
  { destruct (Re.search _ line); [discriminate|].
    destruct (PyStr.contains _ line); discriminate. }
  destruct (PyStr.startswith "attr_" (PyStr.strip anchor)) eqn:Hattr.
  - destruct (PyStr.split_ws (PyStr.strip anchor)) as [|attr_type [|part1 parts]] eqn:Hs.
    + apply startswith_head in Hattr as [r Hr]. rewrite Hr in Hs.
      apply split_ws_not_nil in Hs; [contradiction | reflexivity].
    + discriminate.
    + destruct (Re.plain attr_type) eqn:Hp; [discriminate|].
      intros H. split; [reflexivity|]. exists attr_type, part1, parts.
      split; [reflexivity|]. split; [exact Hp | exact H].
  - destruct (PyStr.isupper _); [discriminate|].
    destruct (PyStr.startswith "@@" (PyStr.strip anchor)
              || PyStr.startswith "@" (PyStr.strip anchor)) eqn:Hvar.
    + destruct (PyStr.split_ws (PyStr.strip anchor)) as [|part0 parts] eqn:Hs;
        [|discriminate].
      assert (Hat : PyStr.startswith "@" (PyStr.strip anchor) = true).
      { apply orb_true_iff in Hvar as [Hvar|Hvar]; [|exact Hvar].
        apply startswith_head in Hvar as [r ->]. reflexivity. }
      apply startswith_head in Hat as [r Hr]. rewrite Hr in Hs.
      apply split_ws_not_nil in Hs; [contradiction | reflexivity].
    + destruct (PyStr.split_ws _); discriminate.
Qed.

Lemma soft_match_failure_witness :
  PyStr.startswith "attr_" (PyStr.strip "attr_reader( :mana") = true.
Proof.
  apply (soft_match_failure no_raw_patterns "attr_reader( :mana" "x").
  reflexivity.
Defined.

(** ** Constants, variables and accessors *)

Lemma soft_match_constant (E : raw_search) (anchor line : string) :
  no_keyword anchor ->
  is_constant_anchor anchor = true ->
  soft_match_anchor E anchor line
  = Some (Re.search (constant_pattern (constant_name anchor)) line).
Proof.
  intros (H1 & H2 & H3 & H4) Hc. unfold soft_match_anchor.
  rewrite H1, H2, H3, H4. cbn [orb].
  unfold is_constant_anchor in Hc. rewrite Hc. reflexivity.
Qed.

Lemma search_constant_pattern name line :
  Re.search (constant_pattern name) line = true
  <-> assigns_constant name line.
Proof.
  rewrite search_den. unfold assigns_constant, constant_pattern.
  cbn [Re.seq den]. split.
  - intros (pre & w & rest & -> & w0 & w1 & -> & [-> Hb]
            & wn & w2 & -> & -> & ws & we & -> & Hws & ->).
    exists pre, ws, rest. rewrite append_empty in *.
    rewrite !append_assoc in *. repeat split; assumption.
  - intros (pre & ws & rest & -> & Hws & Hb).
    exists pre, (name +:+ ws +:+ "="), rest.
    split; [rewrite !append_assoc; reflexivity|].
    exists "", (name +:+ ws +:+ "="). split; [reflexivity|].
    split; [split; [reflexivity | rewrite !append_assoc; exact Hb]|].
    exists name, (ws +:+ "="). split; [reflexivity|]. split; [reflexivity|].
    exists ws, "=". repeat split. exact Hws.
Qed.

(** X21.  For an anchor in capitals that starts with none of the keywords,
    the soft match on a line never fails, and it succeeds exactly when the
    line has the name of the anchor at a word boundary, white space or
    nothing, and an equals sign. *)
Theorem constant_soft_match (E : raw_search) (anchor line : string) :
  no_keyword anchor ->
  is_constant_anchor anchor = true ->
  (exists b, soft_match_anchor E anchor line = Some b)
  /\ (soft_match_anchor E anchor line = Some true
      <-> assigns_constant (constant_name anchor) line).
Proof.
  intros Hk Hc. rewrite (soft_match_constant E anchor line Hk Hc).
  split; [eexists; reflexivity|].
  rewrite <- search_constant_pattern. split; [intros [= H]; exact H|].
  intros H. rewrite H. reflexivity.
Qed.

Lemma constant_soft_match_witness :
  soft_match_anchor no_raw_patterns "MAX_SIZE = 10" "  MAX_SIZE   = 200" = Some true
  /\ soft_match_anchor no_raw_patterns "MAX_SIZE" "  XMAX_SIZE = 1" = Some false.
Proof.
  destruct (constant_soft_match no_raw_patterns "MAX_SIZE = 10"
              "  MAX_SIZE   = 200"
              (conj eq_refl (conj eq_refl (conj eq_refl eq_refl))) eq_refl)
    as [_ Hiff].
  split.
  - apply Hiff. exists "  ", "   ", " 200". repeat split.
  - vm_compute. reflexivity.
Defined.

Lemma soft_match_variable (E : raw_search) (anchor line : string) :
  is_constant_anchor anchor = false ->
  PyStr.startswith "@" (PyStr.strip anchor) = true ->
  soft_match_anchor E anchor line
  = Some (Re.search (variable_pattern (variable_name anchor)) line).
Proof.
  intros Hc Hat. unfold soft_match_anchor, variable_name.
  unfold is_constant_anchor in Hc. rewrite Hc. rewrite Hat.
  destruct (startswith_head _ _ _ Hat) as [r Hr]. rewrite Hr.
  change (PyStr.startswith "class " (String "@" r)) with false.
  change (PyStr.startswith "module " (String "@" r)) with false.
  change (PyStr.startswith "def " (String "@" r)) with false.
  change (PyStr.startswith "attr_" (String "@" r)) with false.
  cbn [orb]. rewrite orb_true_r.
  destruct (PyStr.split_ws (String "@" r)) as [|part0 parts] eqn:Hs.
  - apply split_ws_not_nil in Hs; [contradiction | reflexivity].
  - reflexivity.
Qed.

Lemma search_variable_pattern name line :
  Re.search (variable_pattern name) line = true
  <-> assigns_variable name line.
Proof.
  rewrite search_den. unfold assigns_variable, variable_pattern.
  cbn [Re.seq den]. split.
  - intros (pre & w & rest & -> & wn & w1 & -> & -> & ws & op & -> & Hws & Hop).
    exists pre, ws, op, rest. rewrite !append_assoc. repeat split; assumption.
  - intros (pre & ws & op & rest & -> & Hws & Hop).
    exists pre, (name +:+ ws +:+ op), rest.
    split; [rewrite !append_assoc; reflexivity|].
    exists name, (ws +:+ op). split; [reflexivity|]. split; [reflexivity|].
    exists ws, op. repeat split; assumption.
Qed.

(** X22.  For an anchor that starts with [@] and is not in capitals, the
    soft match on a line never fails, and it succeeds exactly when the line
    has the name of the variable (the first word of the anchor, up to an
    equals sign), white space or nothing, and [=] or [||=].  No word
    boundary is asked before the name. *)
Theorem variable_soft_match (E : raw_search) (anchor line : string) :
  is_constant_anchor anchor = false ->
  PyStr.startswith "@" (PyStr.strip anchor) = true ->
  (exists b, soft_match_anchor E anchor line = Some b)
  /\ (soft_match_anchor E anchor line = Some true
      <-> assigns_variable (variable_name anchor) line).
Proof.
  intros Hc Hat. rewrite (soft_match_variable E anchor line Hc Hat).
  split; [eexists; reflexivity|].
  rewrite <- search_variable_pattern. split; [intros [= H]; exact H|].
  intros H. rewrite H. reflexivity.
Qed.

Lemma variable_soft_match_witness :
  soft_match_anchor no_raw_patterns " @@count = 0" "    @@count  ||= 1" = Some true
  /\ soft_match_anchor no_raw_patterns "@name" "@name_of = 1" = Some false.
Proof.
  destruct (variable_soft_match no_raw_patterns " @@count = 0"
              "    @@count  ||= 1" eq_refl eq_refl) as [_ Hiff].
  split.
  - apply Hiff. exists "    ", "  ", "||=", " 1". repeat split. right. reflexivity.
  - vm_compute. reflexivity.
Defined.

Lemma soft_match_accessor_branch (E : raw_search) (anchor line : string) :
  PyStr.startswith "attr_" (PyStr.strip anchor) = true ->
  soft_match_anchor E anchor line
  = match PyStr.split_ws (PyStr.strip anchor) with
    | [] => None
    | [attr_type] => Some (PyStr.contains attr_type line)
    | attr_type :: part1 :: _ =>
        if Re.plain attr_type then
          Some (Re.search
                  (accessor_pattern attr_type (PyStr.lstrip_char ":" part1))
                  line)
        else E (attr_type +:+ "\s+:" +:+ Re.escape (PyStr.lstrip_char ":" part1)
                          +:+ "\b") line
    end.
Proof.
  intros Hattr. unfold soft_match_anchor. rewrite Hattr.
  destruct (startswith_head _ _ _ Hattr) as [r Hr]. rewrite Hr.
  change (PyStr.startswith "class " (String "a" r)) with false.
  change (PyStr.startswith "module " (String "a" r)) with false.
  change (PyStr.startswith "def " (String "a" r)) with false.
  reflexivity.
Qed.

Lemma search_accessor_pattern attr_type symbol line :
  Re.search (accessor_pattern attr_type symbol) line = true
  <-> declares_accessor attr_type symbol line.
Proof.
  rewrite search_den. unfold declares_accessor, accessor_pattern.
  cbn [Re.seq den]. split.
  - intros (pre & w & rest & -> & wa & w1 & -> & -> & ws & w2 & ->
            & [Hne Hws] & wc & w3 & -> & -> & wsym & w4 & -> & -> & -> & Hb).
    exists pre, ws, rest. rewrite append_empty_r.
    split; [rewrite !append_assoc; reflexivity|].
    repeat split; try assumption.
    rewrite <- prev_after_none in Hb. rewrite <- !prev_after_app in Hb.
    rewrite prev_after_none in Hb. rewrite ?append_assoc, ?append_empty_r in Hb.
    exact Hb.
  - intros (pre & ws & rest & -> & Hne & Hws & Hb).
    exists pre, (attr_type +:+ ws +:+ ":" +:+ symbol), rest.
    split; [rewrite !append_assoc; reflexivity|].
    exists attr_type, (ws +:+ ":" +:+ symbol). split; [reflexivity|].
    split; [reflexivity|].
    exists ws, (":" +:+ symbol). split; [reflexivity|].
    split; [split; assumption|].
    exists ":", symbol. split; [reflexivity|]. split; [reflexivity|].
    exists symbol, "". split; [rewrite append_empty_r; reflexivity|].
    split; [reflexivity|]. split; [reflexivity|].
    rewrite <- prev_after_none. rewrite <- !prev_after_app.
    rewrite prev_after_none. rewrite ?append_assoc, ?append_empty_r. exact Hb.
Qed.

(** X23.  For an anchor that starts with [attr_]: when it is the keyword
    alone, the soft match succeeds exactly when the line contains the
    keyword; when a symbol follows and the keyword has no character that is
    special in a pattern, it succeeds exactly when the line has the
    keyword, white space, a colon, the symbol without its leading colons,
    and then the end of a word. *)
Theorem accessor_soft_match (E : raw_search) (anchor line attr_type : string) :
  PyStr.startswith "attr_" (PyStr.strip anchor) = true ->
  (PyStr.split_ws (PyStr.strip anchor) = [attr_type] ->
   (soft_match_anchor E anchor line = Some true
    <-> is_substring attr_type line))
  /\ (forall part1 parts,
        PyStr.split_ws (PyStr.strip anchor) = attr_type :: part1 :: parts ->
        Re.plain attr_type = true ->
        (soft_match_anchor E anchor line = Some true
         <-> declares_accessor attr_type (PyStr.lstrip_char ":" part1) line)).
Proof.
  intros Hattr. rewrite (soft_match_accessor_branch E anchor line Hattr).
  split.
  - intros ->. rewrite <- contains_spec. split; [intros [= H]; exact H|].
    intros H. rewrite H. reflexivity.
  - intros part1 parts -> ->. rewrite <- search_accessor_pattern.
    split; [intros [= H]; exact H|]. intros H. rewrite H. reflexivity.
Qed.

Lemma accessor_soft_match_witness :
  soft_match_anchor no_raw_patterns "attr_reader :mana" "  attr_reader  :mana, :hp"
  = Some true
  /\ soft_match_anchor no_raw_patterns "attr_reader :mana" "attr_reader :manager"
     = Some false
  /\ soft_match_anchor no_raw_patterns "attr_accessor" "x attr_accessor y"
     = Some true.
Proof.
  destruct (accessor_soft_match no_raw_patterns "attr_reader :mana"
              "  attr_reader  :mana, :hp" "attr_reader" eq_refl) as [_ Hiff].
  destruct (accessor_soft_match no_raw_patterns "attr_accessor"
              "x attr_accessor y" "attr_accessor" eq_refl) as [Hiff' _].
  split; [|split].
  - apply (Hiff ":mana" [] eq_refl eq_refl).
    exists "  ", "  ", ", :hp". repeat split. discriminate.
  - vm_compute. reflexivity.
  - apply (Hiff' eq_refl). exists "x ", " y". reflexivity.
Defined.

(** ** Output paths *)

Lemma strip_prefix_app (root p rest : list string) :
  strip_prefix root p = Some rest -> p = root ++ rest.
Proof.
  revert p. induction root as [|r root IH]; intros p H.
  - cbn in H. injection H as <-. reflexivity.
  - destruct p as [|x p]; [discriminate H|]. cbn [strip_prefix] in H.
    destruct (String.eqb r x) eqn:Hrx; [|discriminate H].
    apply String.eqb_eq in Hrx. subst x. cbn. f_equal. apply IH, H.
Qed.

(** X19.  In the flat structure the output path of a file depends on its
    name only, so two files with one name in different directories share
    their output path; in the mirror structure two files below the source
    root that have one output path are one file. *)
Theorem output_path_structure (self : generator) (w : world) (p q : Path) :
  (output_structure self <> "mirror" \/ source_root self = None ->
   path_name p = path_name q ->
   get_output_file_path self w p = get_output_file_path self w q)
  /\ (forall root,
        output_structure self = "mirror" ->
        source_root self = Some root ->
        is_Some (strip_prefix (resolve w root) (resolve w p)) ->
        is_Some (strip_prefix (resolve w root) (resolve w q)) ->
        resolve w (get_output_file_path self w p)
        = resolve w (get_output_file_path self w q) ->
        resolve w p = resolve w q).
Proof.
  split.
  - intros Hflat Hname. unfold get_output_file_path, documented_path.
    destruct (String.eqb (output_structure self) "mirror") eqn:Hm.
    + apply String.eqb_eq in Hm. destruct Hflat as [Hflat|Hflat];
        [contradiction|]. rewrite Hflat, Hname. reflexivity.
    + rewrite Hname. reflexivity.
  - intros root Hm Hroot [rp Hp] [rq Hq] Hsame.
    unfold get_output_file_path in Hsame.
    rewrite !resolve_documented_path in Hsame.
    apply app_inv_head in Hsame.
    unfold documented_suffix in Hsame. rewrite Hm, Hroot in Hsame.
    cbn in Hsame. rewrite Hp, Hq in Hsame. subst rq.
    rewrite (strip_prefix_app _ _ _ Hp), (strip_prefix_app _ _ _ Hq).
    reflexivity.
Qed.

Lemma output_path_structure_witness :
  get_output_file_path example_generator example_world
    (MkPath false ["lib"; "a.rb"])
  = get_output_file_path example_generator example_world
      (MkPath false ["lib"; "util"; "a.rb"]).
Proof.
  destruct (output_path_structure example_generator example_world
              (MkPath false ["lib"; "a.rb"])
              (MkPath false ["lib"; "util"; "a.rb"])) as [Hflat _].
  apply Hflat; [left; discriminate | reflexivity].
Defined.

(** ** Two entries for one line *)

Lemma insert_entry_inserted (E : raw_search) st entry :
  valid_entry entry ->
  entry_key entry ∉ documented_anchors st ->
  forall idx h,
    resolve_entry E st entry = Found idx h ->
    exists st',
      insert_entry E st entry = (st', Inserted idx)
      /\ inserted_at_lines st' = {[idx]} ∪ inserted_at_lines st.
Proof.
  intros Hv Hk idx h Hr.
  pose proof (insert_entry_step E st entry) as Hstep.
  destruct (insert_entry E st entry) as [st' o]. cbn [fst snd] in Hstep.
  destruct Hstep as [Hn| | | |idx' h' al _ _ Hr' Hl]; try contradiction;
    try congruence.
  assert (idx' = idx) by congruence. subst idx'. eauto.
Qed.

(** X20.  Of two entries with one line number, when the first one given is
    resolved at that line itself, the first one only is applied: the second
    finds the line claimed, or its anchor documented, and is skipped. *)
Theorem first_entry_claims_line (E : raw_search) (original_content : string)
  (d1 d2 : directive) (idx : nat) (h : how) :
  line_number d1 = line_number d2 ->
  valid_entry d1 ->
  resolve_entry E (initial_buffer original_content) d1 = Found idx h ->
  Z.of_nat idx = (line_number d1 - 1)%Z ->
  applied E original_content [d1; d2] = [d1].
Proof.
  intros Hln Hv Hr Hidx. unfold applied, outcomes, sorted_comments.
  cbn [foldr insert_sorted]. rewrite Hln, Z.leb_refl.
  cbn [insert_loop].
  destruct (insert_entry_inserted E (initial_buffer original_content) d1 Hv
              ltac:(cbn; set_solver) idx h Hr) as (st1 & Hins & Hclaimed).
  rewrite Hins.
  pose proof (insert_entry_step E st1 d2) as Hstep.
  destruct (insert_entry E st1 d2) as [st2 o2]. cbn [fst snd] in Hstep.
  cbn [snd select_inserted is_inserted].
  destruct Hstep as [| | | |idx2 h2 al _ _ Hr2 _]; try reflexivity.
  exfalso. unfold resolve_entry in Hr2. rewrite <- Hln in Hr2.
  rewrite find_claimed in Hr2; [discriminate Hr2 | lia |].
  rewrite Hclaimed, <- Hidx, Nat2Z.id.
  apply elem_of_union. left. apply elem_of_singleton. reflexivity.
Qed.

Lemma first_entry_claims_line_witness :
  applied no_raw_patterns (text_of ["def foo; end  # def bar"; "end"])
    [Directive 1 "def foo" 0 "# Foo"; Directive 1 "def bar" 0 "# Bar"]
  = [Directive 1 "def foo" 0 "# Foo"].
Proof.
  apply (first_entry_claims_line no_raw_patterns _ _ _ 0 Exact).
  - reflexivity.
  - repeat split; discriminate.
  - vm_compute. reflexivity.
  - reflexivity.
Defined.

(** ** The numbered listing of the prompt *)

Lemma digits_free (d : Decimal.uint) :
  free_of PyStr.nl (DecimalString.NilEmpty.string_of_uint d).
Proof.
  unfold free_of. induction d; cbn [DecimalString.NilEmpty.string_of_uint];
    [reflexivity | cbn [PyStr.mem_char]; exact IHd ..].
Qed.

Lemma format_4d_free (i : nat) : free_of PyStr.nl (format_4d i).
Proof.
  unfold format_4d. cbv zeta. apply free_of_app.
  - apply free_of_replicate. reflexivity.
  - unfold DecimalString.NilZero.string_of_uint.
    destruct (Nat.to_uint i); try apply digits_free. reflexivity.
Qed.

Lemma number_from_free (ls : list string) : forall i,
  Forall (free_of PyStr.nl) ls ->
  Forall (free_of PyStr.nl) (number_from i ls).
Proof.
  induction ls as [|l ls IH]; intros i Hall; [constructor|].
  inversion Hall as [|? ? Hl Hls]; subst. cbn [number_from]. constructor.
  - apply free_of_app; [apply format_4d_free|].
    apply free_of_app; [reflexivity | exact Hl].
  - apply IH, Hls.
Qed.

Lemma number_from_length (ls : list string) : forall i,
  length (number_from i ls) = length ls.
Proof.
  induction ls as [|l ls IH]; intros i; [reflexivity|].
  cbn [number_from length]. rewrite IH. reflexivity.
Qed.

Lemma number_from_lookup (ls : list string) : forall i idx l,
  ls !! idx = Some l ->
  number_from i ls !! idx = Some (format_4d (i + idx) +:+ ": " +:+ l).
Proof.
  induction ls as [|x ls IH]; intros i idx l H; [discriminate H|].
  destruct idx as [|idx]; cbn [number_from].
  - injection H as ->. rewrite Nat.add_0_r. reflexivity.
  - replace (i + S idx) with (S i + idx) by lia. exact (IH (S i) idx l H).
Qed.

Lemma unnumber_number (ls : list string) : forall i,
  unnumber_from i (number_from i ls) = ls.
Proof.
  induction ls as [|l ls IH]; intros i; [reflexivity|].
  cbn [number_from unnumber_from]. rewrite IH. f_equal.
  rewrite <- append_assoc. apply drop_app.
Qed.

Lemma split_numbered_content (content : string) :
  PyStr.split PyStr.nl (numbered_content content) = numbered_lines content.
Proof.
  unfold numbered_content, numbered_lines, newline. apply split_join.
  - pose proof (split_not_nil PyStr.nl content) as Hne.
    destruct (PyStr.split PyStr.nl content); [congruence | discriminate].
  - apply number_from_free, split_free.
Qed.

(** X24.  The listing of the prompt numbers the lines of the content from
    one, keeps every line behind its number and loses nothing: it has as
    many lines as the content and the content is read back from it by
    taking the numbers away.  The number shown with a line is the line
    number at which the resolver finds it: an entry that gives this number
    and an anchor that the line contains is resolved at that line, as an
    exact match, when the line is not claimed. *)
Theorem prompt_line_numbers (E : raw_search) (content : string)
  (claimed : gset nat) :
  line_count (numbered_content content) = line_count content
  /\ listing_source (numbered_content content) = content
  /\ forall idx l anchor,
       PyStr.split PyStr.nl content !! idx = Some l ->
       PyStr.split PyStr.nl (numbered_content content) !! idx
       = Some (format_4d (S idx) +:+ ": " +:+ l)
       /\ (PyStr.contains anchor l = true ->
           idx ∉ claimed ->
           find_insertion_line E (PyStr.split PyStr.nl content)
                               (Z.of_nat (S idx)) anchor claimed
           = Found idx Exact).
Proof.
  split; [|split].
  - unfold line_count. rewrite split_numbered_content.
    apply number_from_length.
  - unfold listing_source. rewrite split_numbered_content.
    unfold numbered_lines. rewrite unnumber_number. apply join_split.
  - intros idx l anchor Hl. split.
    + rewrite split_numbered_content. unfold numbered_lines.
      rewrite (number_from_lookup _ 1 idx l Hl). reflexivity.
    + intros Hc Hfree. unfold find_insertion_line.
      pose proof (lookup_lt_Some _ _ _ Hl) as Hlt.
      replace (Z.of_nat (S idx) - 1)%Z with (Z.of_nat idx) by lia.
      destruct ((Z.of_nat idx <? 0)%Z
                || (Z.of_nat (length (PyStr.split PyStr.nl content))
                    <=? Z.of_nat idx)%Z) eqn:Eb.
      { apply orb_true_iff in Eb as [Eb|Eb]; lia. }
      rewrite Nat2Z.id. rewrite bool_decide_eq_false_2 by exact Hfree.
      rewrite Hl, Hc. reflexivity.
Qed.

Lemma prompt_line_numbers_witness :
  numbered_content ("a" +:+ newline +:+ "def b")
  = "   1: a" +:+ newline +:+ "   2: def b"
  /\ find_insertion_line no_raw_patterns
       (PyStr.split PyStr.nl ("a" +:+ newline +:+ "def b")) 2 "def b" ∅
     = Found 1 Exact.
Proof.
  destruct (prompt_line_numbers no_raw_patterns ("a" +:+ newline +:+ "def b") ∅)
    as (_ & _ & H).
  destruct (H 1 "def b" "def b" eq_refl) as [_ Hfind].
  split; [vm_compute; reflexivity|].
  apply Hfind; [reflexivity | apply not_elem_of_empty].
Defined.

(** ** An empty source file *)

Lemma app_empty (a b : string) :
  EmptyString = a +:+ b -> a = EmptyString /\ b = EmptyString.
Proof.
  destruct a as [|c a]; [rewrite append_empty; auto|].
  rewrite append_cons. discriminate.
Qed.

Lemma contains_empty_line (sub : string) :
  sub <> EmptyString -> PyStr.contains sub EmptyString = false.
Proof. destruct sub; [congruence | reflexivity]. Qed.

Lemma split_ws_aux_nonempty (s : string) : forall cur,
  (forall w, cur = Some w -> w <> EmptyString) ->
  Forall (fun token => token <> EmptyString) (PyStr.split_ws_aux cur s).
Proof.
  induction s as [|c s IH]; intros cur Hcur; cbn [PyStr.split_ws_aux].
  - destruct cur as [w|]; [|constructor].
    constructor; [apply Hcur; reflexivity | constructor].
  - destruct (PyStr.isspace c).
    + destruct cur as [w|].
      * constructor; [apply Hcur; reflexivity|]. apply IH. discriminate.
      * apply IH. discriminate.
    + destruct cur as [w|]; apply IH; intros w' [= <-].
      * destruct w; [rewrite append_empty | rewrite append_cons]; discriminate.
      * discriminate.
Qed.

Lemma split_ws_nonempty (s : string) :
  Forall (fun token => token <> EmptyString) (PyStr.split_ws s).
Proof. apply split_ws_aux_nonempty. discriminate. Qed.

Lemma search_empty (r : Re.regex) :
  Re.search r EmptyString = true -> den r None EmptyString EmptyString.
Proof.
  rewrite search_den. intros (pre & w & rest & Hs & Hd).
  apply app_empty in Hs as [-> Hs]. symmetry in Hs.
  apply app_empty in Hs as [-> ->].
  exact Hd.
Qed.

Lemma some_true_eq (b : bool) : Some b = Some true -> b = true.
Proof. congruence. Qed.

Ltac empty_den :=
  repeat first [ match goal with
          | H : exists _, _ |- _ => destruct H
          | H : _ /\ _ |- _ => destruct H
          | H : _ \/ _ |- _ => destruct H
          | H : EmptyString = _ +:+ _ |- _ => apply app_empty in H
          | H : _ +:+ _ = EmptyString |- _ => symmetry in H
          end | progress subst ];
  try discriminate; try congruence.

(** No anchor matches the empty line softly. *)
Lemma soft_match_empty_line (E : raw_search) (anchor : string) :
  no_match_on_empty E ->
  soft_match_anchor E anchor EmptyString <> Some true.
Proof.
  intros HE.
  destruct (PyStr.startswith "class " (PyStr.strip anchor)) eqn:Hclass.
  { rewrite (soft_match_declaration E "class" anchor _ (or_introl eq_refl) Hclass).
    intros H. apply some_true_eq, search_empty in H.
    unfold declaration_pattern in H. cbn [Re.seq den] in H. empty_den. }
  destruct (PyStr.startswith "module " (PyStr.strip anchor)) eqn:Hmodule.
  { rewrite (soft_match_declaration E "module" anchor _ (or_intror eq_refl) Hmodule).
    intros H. apply some_true_eq, search_empty in H.
    unfold declaration_pattern in H. cbn [Re.seq den] in H. empty_den. }
  unfold soft_match_anchor. rewrite Hclass, Hmodule. cbn [orb].
  destruct (PyStr.startswith "def " (PyStr.strip anchor)).
  { destruct (Re.search _ EmptyString) eqn:Hs.
    - apply search_empty in Hs. exfalso.
      destruct (String.eqb _ "[]"); unfold def_index_pattern, def_pattern in Hs;
        cbn [Re.seq den] in Hs;
        destruct Hs as (w1 & w2 & H1 & _ & w3 & w4 & H2 & H3 & _);
        apply app_empty in H1 as [_ ->]; apply app_empty in H2 as [-> _];
        discriminate H3.
    - rewrite contains_empty_line; [discriminate|].
      intros Heq. vm_compute in Heq. discriminate Heq. }
  destruct (PyStr.startswith "attr_" (PyStr.strip anchor)).
  { pose proof (split_ws_nonempty (PyStr.strip anchor)) as Hne.
    destruct (PyStr.split_ws (PyStr.strip anchor)) as [|attr_type [|part1 parts]];
      [discriminate| |].
    - inversion Hne as [|? ? Ha _]; subst.
      rewrite (contains_empty_line _ Ha). discriminate.
    - destruct (Re.plain attr_type); [|apply HE].
      intros H. apply some_true_eq, search_empty in H. cbn [Re.seq den] in H.
      destruct H as (w1 & w2 & H1 & _ & w3 & w4 & H2 & _ & w5 & w6 & H3 & H4 & _).
      apply app_empty in H1 as [_ ->]. apply app_empty in H2 as [_ ->].
      apply app_empty in H3 as [-> _]. discriminate H4. }
  destruct (PyStr.isupper _).
  { intros H. apply some_true_eq, search_empty in H. cbn [Re.seq den] in H.
    destruct H as (w1 & w2 & H1 & _ & w3 & w4 & H2 & _ & w5 & w6 & H3 & _ & H4).
    apply app_empty in H1 as [_ ->]. apply app_empty in H2 as [_ ->].
    apply app_empty in H3 as [_ ->]. discriminate H4. }
  destruct (PyStr.startswith "@@" (PyStr.strip anchor)
            || PyStr.startswith "@" (PyStr.strip anchor)).
  { destruct (PyStr.split_ws (PyStr.strip anchor)) as [|part0 parts];
      [discriminate|].
    intros H. apply some_true_eq, search_empty in H. cbn [Re.seq den] in H.
    destruct H as (w1 & w2 & H1 & _ & w3 & w4 & H2 & _ & H4).
    apply app_empty in H1 as [_ ->]. apply app_empty in H2 as [_ ->].
    destruct H4 as [H4|H4]; discriminate H4. }
  pose proof (split_ws_nonempty
                (PyStr.strip (hd "" (PyStr.split "(" (PyStr.strip anchor)))))
    as Hne.
  destruct (PyStr.split_ws _) as [|token tokens]; [discriminate|].
  inversion Hne as [|? ? Ht _]; subst. cbn [forallb].
  rewrite (contains_empty_line _ Ht). discriminate.
Qed.

(** In a buffer of one empty line nothing is found. *)
Lemma find_empty_buffer (E : raw_search) (n : Z) (a : string)
  (claimed : gset nat) (idx : nat) (h : how) :
  no_match_on_empty E ->
  a <> EmptyString ->
  find_insertion_line E [EmptyString] n a claimed <> Found idx h.
Proof.
  intros HE Ha. unfold find_insertion_line.
  destruct ((n - 1 <? 0)%Z || (Z.of_nat (length [EmptyString]) <=? n - 1)%Z)
    eqn:Eb; [discriminate|].
  apply orb_false_iff in Eb as [E1 E2]. cbn [length] in E2.
  apply Z.ltb_ge in E1. apply Z.leb_gt in E2.
  assert (Hn : (n - 1 = 0)%Z) by lia. rewrite Hn.
  case_bool_decide; [discriminate|].
  assert (Hl : ([EmptyString] : list string) !! Z.to_nat 0 = Some EmptyString)
    by reflexivity.
  rewrite Hl.
  rewrite (contains_empty_line _ Ha).
  pose proof (soft_match_empty_line E a HE) as Hsoft.
  destruct (soft_match_anchor E a EmptyString) as [[|]|];
    [congruence | | discriminate].
  vm_compute. discriminate.
Qed.

Lemma insert_entry_empty_buffer (E : raw_search) (st : buffer)
  (entry : directive) :
  no_match_on_empty E ->
  lines st = [EmptyString] ->
  fst (insert_entry E st entry) = st.
Proof.
  intros HE Hl. unfold insert_entry.
  destruct ((line_number entry =? 0)%Z
            || PyStr.is_empty (PyStr.strip (anchor entry))
            || PyStr.is_empty (PyStr.strip (comment entry))) eqn:Hv;
    [reflexivity|].
  case_bool_decide; [reflexivity|].
  apply orb_false_iff in Hv as [Hv _]. apply orb_false_iff in Hv as [_ Ha].
  destruct (find_insertion_line E (lines st) (line_number entry)
              (PyStr.strip (anchor entry)) (inserted_at_lines st))
    as [idx h| |] eqn:Hf; [|reflexivity..].
  rewrite Hl in Hf. exfalso. revert Hf. apply find_empty_buffer; [exact HE|].
  intros Heq. rewrite Heq in Ha. discriminate Ha.
Qed.

Lemma insert_loop_empty_buffer (E : raw_search) (entries : list directive) :
  forall st,
    no_match_on_empty E ->
    lines st = [EmptyString] ->
    fst (insert_loop E st entries) = st.
Proof.
  induction entries as [|entry rest IH]; intros st HE Hl; [reflexivity|].
  cbn [insert_loop].
  pose proof (insert_entry_empty_buffer E st entry HE Hl) as H1.
  destruct (insert_entry E st entry) as [st1 o]. cbn [fst] in H1. subst st1.
  pose proof (IH st HE Hl) as H2.
  destruct (insert_loop E st rest) as [st2 os]. exact H2.
Qed.

Lemma insert_comments_empty_content (E : raw_search)
  (comments : list directive) :
  no_match_on_empty E ->
  insert_comments E EmptyString comments = EmptyString.
Proof.
  intros HE. unfold insert_comments. destruct comments as [|d ds]; [reflexivity|].
  rewrite insert_loop_empty_buffer; [reflexivity | exact HE | reflexivity].
Qed.




(** ** The files left out by [process_directory] *)

Lemma split_app_sep (sep : ascii) (a b : string) :
  PyStr.split sep (a +:+ String sep b) = PyStr.split sep a ++ PyStr.split sep b.
Proof.
  induction a as [|c a IH].
  - rewrite append_empty. cbn [PyStr.split]. rewrite Ascii.eqb_refl. reflexivity.
  - rewrite append_cons. cbn [PyStr.split]. rewrite IH.
    destruct (Ascii.eqb c sep); [reflexivity|].
    pose proof (split_not_nil sep a) as Hne.
    destruct (PyStr.split sep a) as [|h t]; [congruence | reflexivity].
Qed.

Lemma join_cons (sep p : string) (rest : list string) :
  rest <> [] -> PyStr.join sep (p :: rest) = p +:+ sep +:+ PyStr.join sep rest.
Proof. destruct rest; [congruence | reflexivity]. Qed.

Lemma join_app (sep : string) (A B : list string) :
  A <> [] -> B <> [] ->
  PyStr.join sep (A ++ B) = PyStr.join sep A +:+ sep +:+ PyStr.join sep B.
Proof.
  induction A as [|a A IH]; intros HA HB; [congruence|].
  destruct A as [|a' A'].
  - cbn [app]. rewrite (join_cons sep a B HB). reflexivity.
  - change ((a :: a' :: A') ++ B) with (a :: ((a' :: A') ++ B)).
    rewrite join_cons by discriminate. rewrite IH by (discriminate || exact HB).
    rewrite (join_cons sep a (a' :: A')) by discriminate.
    rewrite ?append_assoc. reflexivity.
Qed.

Lemma replace_char_free (old new : ascii) (s : string) :
  PyStr.mem_char old s = false -> replace_char old new s = s.
Proof.
  induction s as [|c s IH]; [reflexivity|]. cbn [PyStr.mem_char replace_char].
  intros H. apply orb_false_iff in H as [Hc Hs].
  rewrite Ascii.eqb_sym, Hc, (IH Hs). reflexivity.
Qed.

Lemma mem_char_app (c : ascii) (a b : string) :
  PyStr.mem_char c (a +:+ b) = PyStr.mem_char c a || PyStr.mem_char c b.
Proof.
  induction a as [|x a IH]; [rewrite append_empty; reflexivity|].
  rewrite append_cons. cbn [PyStr.mem_char]. rewrite IH, orb_assoc. reflexivity.
Qed.

Lemma mem_char_join (c : ascii) (sep : string) (ps : list string) :
  PyStr.mem_char c sep = false ->
  Forall (fun p => PyStr.mem_char c p = false) ps ->
  PyStr.mem_char c (PyStr.join sep ps) = false.
Proof.
  intros Hsep. induction 1 as [|p ps Hp Hps IH]; [reflexivity|].
  destruct ps as [|p' ps']; [exact Hp|].
  rewrite join_cons by discriminate. rewrite !mem_char_app, Hp, Hsep, IH.
  reflexivity.
Qed.

(** The lines of the text of a path are its components. *)
Lemma split_path_str (f : Path) :
  Forall plain_part (parts f) ->
  parts f <> [] ->
  replace_char "\" "/" (path_str f) = path_str f
  /\ PyStr.split "/" (path_str f)
     = if absolute f then EmptyString :: parts f else parts f.
Proof.
  intros Hall Hne.
  assert (Hslash : Forall (free_of "/") (parts f)).
  { eapply Forall_impl; [exact Hall|]. intros p [H _]. exact H. }
  assert (Hback : Forall (fun p => PyStr.mem_char "\" p = false) (parts f)).
  { eapply Forall_impl; [exact Hall|]. intros p [_ H]. exact H. }
  pose proof (mem_char_join "\" "/" (parts f) eq_refl Hback) as Hj.
  pose proof (split_join "/" (parts f) Hne Hslash) as Hsplit.
  unfold path_str. destruct (absolute f).
  - split.
    + apply replace_char_free. rewrite mem_char_app, Hj. reflexivity.
    + change ("/" +:+ PyStr.join "/" (parts f))
        with (EmptyString +:+ String "/" (PyStr.join "/" (parts f))).
      rewrite split_app_sep, Hsplit. reflexivity.
  - destruct (parts f) as [|p ps] eqn:Hp; [congruence|].
    split; [apply replace_char_free, Hj | exact Hsplit].
Qed.

(** X26.  For a path whose components have no backslash, [process_directory]
    leaves the file out exactly when the path goes through a directory
    [critranks]: a component [critranks] that is not the last one (a file
    [critranks.rb] or a file named [critranks] is kept) and that, in a
    relative path, is not the first one (a relative path that starts with
    [critranks] is kept). *)
Theorem critranks_filter (f : Path) :
  Forall plain_part (parts f) ->
  parts f <> [] ->
  in_critranks f = true <-> below_critranks f.
Proof.
  intros Hall Hne. destruct (split_path_str f Hall Hne) as [Hrep Hsplit].
  unfold in_critranks, below_critranks. rewrite Hrep, contains_spec. split.
  - intros (pre & post & Hs). rewrite Hs in Hsplit.
    change ("/critranks/" +:+ post)
      with (String "/" ("critranks" +:+ String "/" post)) in Hsplit.
    rewrite !split_app_sep in Hsplit.
    change (PyStr.split "/" "critranks") with ["critranks"] in Hsplit.
    pose proof (split_not_nil "/" post) as Hpost.
    pose proof (split_not_nil "/" pre) as Hpre.
    destruct (absolute f).
    + destruct (PyStr.split "/" pre) as [|h t]; [congruence|].
      injection Hsplit as _ Ht.
      exists t, (PyStr.split "/" post). split; [symmetry; exact Ht|].
      split; [exact Hpost | discriminate].
    + exists (PyStr.split "/" pre), (PyStr.split "/" post).
      split; [symmetry; exact Hsplit|]. split; [exact Hpost|].
      intros _. exact Hpre.
  - intros (before & after & Hp & Hafter & Hbefore).
    assert (Hj : forall A, A <> [] ->
                 PyStr.join "/" (A ++ "critranks" :: after)
                 = PyStr.join "/" A +:+ "/critranks/" +:+ PyStr.join "/" after).
    { intros A HA. rewrite join_app by (exact HA || discriminate).
      rewrite (join_cons "/" "critranks" after Hafter).
      rewrite ?append_assoc. reflexivity. }
    unfold path_str. rewrite Hp. destruct (absolute f).
    + destruct before as [|b before'].
      * exists "", (PyStr.join "/" after). cbn [app].
        rewrite (join_cons "/" "critranks" after Hafter). reflexivity.
      * exists ("/" +:+ PyStr.join "/" (b :: before')), (PyStr.join "/" after).
        rewrite Hj by discriminate. rewrite ?append_assoc. reflexivity.
    + specialize (Hbefore eq_refl).
      destruct before as [|b before']; [congruence|].
      change (is_substring "/critranks/"
                (PyStr.join "/" ((b :: before') ++ "critranks" :: after))).
      exists (PyStr.join "/" (b :: before')), (PyStr.join "/" after).
      apply Hj. discriminate.
Qed.

Lemma critranks_filter_witness :
  ruby_files [MkPath false ["lib"; "critranks"; "arm.rb"];
              MkPath false ["lib"; "critranks.rb"];
              MkPath false ["critranks"; "arm.rb"]]
  = [MkPath false ["lib"; "critranks.rb"]; MkPath false ["critranks"; "arm.rb"]]
  /\ in_critranks (MkPath false ["lib"; "critranks"; "arm.rb"]) = true.
Proof.
  split; [vm_compute; reflexivity|].
  apply (critranks_filter (MkPath false ["lib"; "critranks"; "arm.rb"])).
  - repeat constructor.
  - discriminate.
  - exists ["lib"], ["arm.rb"]. repeat split; discriminate.
Defined.
